(** * The quiz-taking view of the classroom application

    A shallow embedding of [take_quiz] (classroom/views/students.py): the
    view that shows a student the next unanswered question of a quiz, stores
    a submitted answer, keeps the exponential running score in the session
    and, once every question is answered, records the final percentage.
    [QuizListView.get_queryset], the listing that offers the quizzes, and
    [TakenQuizListView.get_queryset], the listing of the quizzes taken, are
    embedded next to it.

    Python values are modelled as follows: [int] is [Z]; [float] is an
    IEEE 754 binary64 number, given by the Standard Library's [spec_float]
    at precision 53 and exponent bound 1024, with the division of two ints
    and the two forms of [round] written out on it; [dict] (the session) is
    a [gmap] from strings to ints; an exception is an error result.

    The relational store is a record of tables, each a list of rows in the
    order the store returns them.  The models and the form of the
    application (models.py, forms.py) are not part of the sources: the
    tables, the relations between them and the form are modelled from the
    specification, and each such definition says so.

    A view is a computation on the world of a request (store, session,
    messages) that may raise.  Each statement sent to the store may fail,
    following a fault plan, and [transaction.atomic] undoes the writes of
    its block when the block is left by an exception.  Requests are served
    one after the other.

    Two limits of the platform decide what two expressions of the view do:
    the number of digits that [str] converts of an int, and the range of the
    integers that the store takes as a key.  The view is given twice: on a
    platform without the two limits ([take_quiz], [serve]), and with the limits
    as a parameter ([take_quiz_on], [serve_on]); the first is the second at
    [no_limits]. *)

From Stdlib Require Import ZArith List Bool Lia Sorted.
From Stdlib Require Import Floats.SpecFloat.
From stdpp Require Import gmap strings pretty.

Import ListNotations.
Open Scope string_scope.
Open Scope list_scope.
Open Scope Z_scope.

(** ** Exceptions and results *)

Inductive exn :=
  | Http404
  | ZeroDivisionError
  | OverflowError
  | ValueError
  | AttributeError
  | KeyError
  | DoesNotExist
  | MultipleObjectsReturned
  | DatabaseError.

Inductive result (A : Type) :=
  | Ok (a : A)
  | Raise (e : exn).
Arguments Ok {A} a.
Arguments Raise {A} e.

(** ** Python floats *)

Module PyFloat.

Definition prec : Z := 53.
Definition emax : Z := 1024.

Abbreviation float := spec_float.

(** An int seen as an exact, not yet rounded, binary number. *)
Definition Z2SF (z : Z) : float :=
  match z with
  | Z0 => S754_zero false
  | Zpos p => S754_finite false p 0
  | Zneg p => S754_finite true p 0
  end.

(** [a / b] on two ints: the quotient rounded once to the nearest float. *)
Definition int_true_div (a b : Z) : result float :=
  if b =? 0 then Raise ZeroDivisionError
  else match SFdiv prec emax (Z2SF a) (Z2SF b) with
       | S754_infinity _ => Raise OverflowError
       | q => Ok q
       end.

(** [float(z)], used for the int operand of a mixed product and for the
    literals [100.0] and [50.0]. *)
Definition float_of_int (z : Z) : float := binary_normalize prec emax z 0 false.

Definition float_mul (x y : float) : float := SFmul prec emax x y.

Definition float_lt (x y : float) : bool := SFltb x y.
Definition float_le (x y : float) : bool := SFleb x y.

Definition is_nan (x : float) : bool :=
  match x with S754_nan => true | _ => false end.

(** [num / den] rounded to the nearest integer, ties to the even one. *)
Definition round_half_even (num den : Z) : Z :=
  let q := num / den in
  match 2 * (num mod den) ?= den with
  | Lt => q
  | Gt => q + 1
  | Eq => if Z.even q then q else q + 1
  end.

(** [round(x)]: the nearest int, ties to even. *)
Definition py_round (x : float) : result Z :=
  match x with
  | S754_nan => Raise ValueError
  | S754_infinity _ => Raise OverflowError
  | S754_zero _ => Ok 0
  | S754_finite s m e =>
      let k := if 0 <=? e then Z.pos m * 2 ^ e
               else round_half_even (Z.pos m) (2 ^ (- e)) in
      Ok (if s then - k else k)
  end.

(** [round(x, ndigits)] for [ndigits >= 0]: the exact value of [x] is
    rounded to [ndigits] decimals, ties to even, and the decimal is read
    back as the nearest float. *)
Definition py_round_ndigits (x : float) (ndigits : N) : result float :=
  match x with
  | S754_finite s m e =>
      if (323 <? ndigits)%N then Ok x else
      let p10 := 10 ^ Z.of_N ndigits in
      let k := if 0 <=? e then Z.pos m * 2 ^ e * p10
               else round_half_even (Z.pos m * p10) (2 ^ (- e)) in
      match k with
      | Zpos p =>
          match SFdiv prec emax (S754_finite s p 0) (Z2SF p10) with
          | S754_infinity _ => Raise OverflowError
          | r => Ok r
          end
      | _ => Ok (S754_zero s)
      end
  | _ => Ok x
  end.

(** A float that is a zero or a finite number of binary weight at most
    [B]: the proofs that no rounding overflows are carried by it. *)
Definition sf_bounded (B : Z) (x : float) : Prop :=
  match x with
  | S754_zero _ => True
  | S754_finite _ m e => Z.pos (digits2_pos m) + e <= B /\ e <= emax - prec
  | _ => False
  end.

End PyFloat.
Import PyFloat.

Arguments int_true_div : simpl never.
Arguments float_of_int : simpl never.
Arguments float_mul : simpl never.
Arguments float_lt : simpl never.
Arguments float_le : simpl never.
Arguments py_round : simpl never.
Arguments py_round_ndigits : simpl never.

(** [2 ** e] on ints, for [0 <= e].  Python answers a float for a negative
    exponent: the view only ever stores exponents at or above 1, and the
    statements on the power keep to [0 <= e]. *)
Definition py_pow2 (e : Z) : Z := 2 ^ e.

(** [str(n)] of an int, where [str] converts every int; [str_on] below has
    the limit of the digits. *)
Definition str (n : Z) : string := pretty n.

(** ** The relational store *)

(** Modelled from the spec: classroom/models.py is not part of the sources.
    A quiz has a subject and questions, a question has answers of which one
    is marked correct, a student answer references the chosen answer, a
    taken quiz holds the final score of a (student, quiz) pair, and a student
    has subjects of interest. *)
Record Quiz := { quiz_id : Z; quiz_name : string; quiz_subject : Z }.
Record Question := { question_id : Z; question_quiz : Z }.
Record Answer := { answer_id : Z; answer_question : Z; answer_is_correct : bool }.
Record StudentAnswer := { sa_student : Z; sa_answer : Z }.
Record TakenQuiz := { tq_student : Z; tq_quiz : Z; tq_score : float }.

Record DB := {
  quizzes : list Quiz;
  questions : list Question;
  answers : list Answer;
  student_answers : list StudentAnswer;
  taken_quizzes : list TakenQuiz;
  (** the pairs (student, subject) of [student.interests] *)
  interests : list (Z * Z)
}.

Definition insert_student_answer (sa : StudentAnswer) (d : DB) : DB :=
  {| quizzes := quizzes d; questions := questions d; answers := answers d;
     student_answers := student_answers d ++ [sa];
     taken_quizzes := taken_quizzes d; interests := interests d |}.

Definition insert_taken_quiz (t : TakenQuiz) (d : DB) : DB :=
  {| quizzes := quizzes d; questions := questions d; answers := answers d;
     student_answers := student_answers d;
     taken_quizzes := taken_quizzes d ++ [t]; interests := interests d |}.

(** [Quiz.objects.get(pk=pk)], [None] when there is no such row. *)
Definition Quiz_get (d : DB) (pk : Z) : option Quiz :=
  find (fun q => quiz_id q =? pk) (quizzes d).

(** [student.quizzes.filter(pk=pk).exists()].  Modelled from the spec: the
    relation [student.quizzes] is declared in models.py; the quizzes of a
    student are those the student has a taken-quiz row for. *)
Definition student_quizzes_exists (d : DB) (student pk : Z) : bool :=
  existsb (fun t => (tq_student t =? student) && (tq_quiz t =? pk)) (taken_quizzes d).

(** [quiz.questions]: the questions that belong to the quiz. *)
Definition quiz_questions (d : DB) (quiz : Quiz) : list Question :=
  List.filter (fun q => question_quiz q =? quiz_id quiz) (questions d).

(** [question.answers]: the answers that belong to the question. *)
Definition question_answers (d : DB) (question : Question) : list Answer :=
  List.filter (fun a => answer_question a =? question_id question) (answers d).

Definition find_answer (d : DB) (pk : Z) : option Answer :=
  find (fun a => answer_id a =? pk) (answers d).

Definition find_question (d : DB) (pk : Z) : option Question :=
  find (fun q => question_id q =? pk) (questions d).

(** [student.quiz_answers.filter(answer__question__quiz=quiz)].  Modelled
    from the spec: the relation [student.quiz_answers] is declared in
    models.py; it holds the student's answer rows, here joined with their
    answer and its question. *)
Definition student_quiz_answers (d : DB) (student : Z) (quiz : Quiz)
  : list (Answer * Question) :=
  flat_map
    (fun sa =>
       if sa_student sa =? student then
         match find_answer d (sa_answer sa) with
         | Some a =>
             match find_question d (answer_question a) with
             | Some q => if question_quiz q =? quiz_id quiz then [(a, q)] else []
             | None => []
             end
         | None => []
         end
       else [])
    (student_answers d).

Definition answered_question_ids (d : DB) (student : Z) (quiz : Quiz) : list Z :=
  map (fun aq => question_id (snd aq)) (student_quiz_answers d student quiz).

(** Modelled from the spec: [Student.get_unanswered_questions] is in
    models.py, which is not part of the sources.  The unanswered questions
    are the quiz's questions minus those the student has an answer row for,
    in the order of the store. *)
Definition get_unanswered_questions (d : DB) (student : Z) (quiz : Quiz)
  : list Question :=
  List.filter
    (fun q => negb (existsb (Z.eqb (question_id q)) (answered_question_ids d student quiz)))
    (quiz_questions d quiz).

(** [student.quiz_answers.filter(answer__question__quiz=quiz,
    answer__is_correct=True).count()] *)
Definition correct_answers_count (d : DB) (student : Z) (quiz : Quiz) : Z :=
  Z.of_nat (length (List.filter (fun aq => answer_is_correct (fst aq))
                                (student_quiz_answers d student quiz))).

(** [Answer.objects.get(question=question_id, is_correct=True)] *)
Definition Answer_get_correct (d : DB) (question_id : Z) : result Answer :=
  match List.filter (fun a => (answer_question a =? question_id) && answer_is_correct a)
                    (answers d) with
  | [] => Raise DoesNotExist
  | [a] => Ok a
  | _ => Raise MultipleObjectsReturned
  end.

(** [QuizListView.get_queryset]: the quizzes offered to a student are those
    of the student's subjects of interest, that the student has not taken,
    and that have at least one question. *)
Definition QuizListView_get_queryset (d : DB) (student : Z) : list Quiz :=
  let student_interests :=
    map snd (List.filter (fun i => fst i =? student) (interests d)) in
  let taken_quizzes :=
    map tq_quiz (List.filter (fun t => tq_student t =? student) (taken_quizzes d)) in
  List.filter (fun q => 0 <? Z.of_nat (length (quiz_questions d q)))
    (List.filter (fun q => negb (existsb (Z.eqb (quiz_id q)) taken_quizzes))
       (List.filter (fun q => existsb (Z.eqb (quiz_subject q)) student_interests)
          (quizzes d))).

(** ** Requests, forms, messages and responses *)

Record HttpRequest := {
  req_method : string;
  (** the [answer] field of [request.POST], when it holds an id *)
  req_POST : option Z;
  (** [request.user.student] *)
  req_student : Z
}.

(** Modelled from the spec: [TakeQuizForm] is in forms.py, which is not part
    of the sources.  The form is built for the current question and is either
    unbound or bound to the posted data; it is valid when the posted answer id
    belongs to the current question's answer set. *)
Record TakeQuizForm := {
  form_question : Question;
  form_data : option (option Z)
}.

(** [form.cleaned_data['answer']] of a valid form, [None] for an invalid or
    unbound one. *)
Definition form_clean (d : DB) (form : TakeQuizForm) : option Answer :=
  match form_data form with
  | Some (Some pk) =>
      find (fun a => answer_id a =? pk) (question_answers d (form_question form))
  | _ => None
  end.

Inductive level := Warning | Success.

(** The texts of the four messages of the view, with their arguments. *)
Inductive message_text :=
  | CorrectScoreIs (score : Z)
  | WrongScoreIs (score : Z)
  | BetterLuckNextTime (quiz_name : string) (score : float)
  | Congratulations (quiz_name : string) (score : float).

Record message := { msg_level : level; msg_text : message_text }.

Inductive HttpResponse :=
  (** [render(request, 'students/taken_quiz.html')] *)
  | TakenQuizPage
  (** [render(request, 'classroom/students/take_quiz_form.html', ...)] *)
  | TakeQuizFormPage (quiz : Quiz) (question : Question) (form : TakeQuizForm)
                     (progress : Z)
  (** [redirect('students:take_quiz', pk)] *)
  | RedirectTakeQuiz (pk : Z)
  (** [redirect('students:quiz_list')] *)
  | RedirectQuizList.

(** ** The state a request runs in

    The store, the session object of the request and the messages queued for
    the next page.  The session is the object the view reads and writes;
    saving it is the work of the session middleware, after the view. *)

Record world := {
  db : DB;
  session : gmap string Z;
  messages : list message
}.

Definition set_db (d : DB) (w : world) : world :=
  {| db := d; session := session w; messages := messages w |}.
Definition set_session (s : gmap string Z) (w : world) : world :=
  {| db := db w; session := s; messages := messages w |}.
Definition add_message (m : message) (w : world) : world :=
  {| db := db w; session := session w; messages := messages w ++ [m] |}.

(** A computation of the view: it runs on the world and on the storage's
    fault plan, and returns a value or raises.  The fault plan [Some n] makes
    the statement after the next [n] ones fail; [None] is a healthy store. *)
Definition M (A : Type) : Type :=
  world * option nat -> result A * (world * option nat).

Definition ret {A} (a : A) : M A := fun s => (Ok a, s).

Definition bind {A B} (m : M A) (k : A -> M B) : M B :=
  fun s => match m s with
           | (Ok a, s') => k a s'
           | (Raise e, s') => (Raise e, s')
           end.

Notation "x <- c1 ;; c2" := (bind c1 (fun x => c2))
  (at level 100, c1 at next level, right associativity).
Notation "c1 ;; c2" := (bind c1 (fun _ => c2))
  (at level 100, right associativity).

Definition raise {A} (e : exn) : M A := fun s => (Raise e, s).

Definition lift {A} (r : result A) : M A := fun s => (r, s).

(** One statement sent to the store. *)
Definition storage_step : M unit :=
  fun s => match snd s with
           | None => (Ok tt, s)
           | Some O => (Raise DatabaseError, s)
           | Some (S n) => (Ok tt, (fst s, Some n))
           end.

(** A read query. *)
Definition query {A} (f : DB -> A) : M A :=
  storage_step ;; (fun s => (Ok (f (db (fst s))), s)).

(** A write statement. *)
Definition execute (f : DB -> DB) : M unit :=
  storage_step ;; (fun s => (Ok tt, (set_db (f (db (fst s))) (fst s), snd s))).

(** [with transaction.atomic():] the block's writes are committed when it
    is left normally, also by [return], and undone when it raises or when
    the commit fails. *)
Definition atomic {A} (body : M A) : M A :=
  fun s =>
    match (a <- body ;; storage_step ;; ret a) s with
    | (Ok a, s') => (Ok a, s')
    | (Raise e, s') => (Raise e, (set_db (db (fst s)) (fst s'), snd s'))
    end.

(** [request.session.get(key, default)] *)
Definition session_get (key : string) (default : Z) : M Z :=
  fun s => (Ok (match session (fst s) !! key with
                | Some v => v
                | None => default
                end), s).

(** [request.session[key]] *)
Definition session_getitem (key : string) : M Z :=
  fun s => match session (fst s) !! key with
           | Some v => (Ok v, s)
           | None => (Raise KeyError, s)
           end.

(** [request.session[key] = value] *)
Definition session_setitem (key : string) (value : Z) : M unit :=
  fun s => (Ok tt, (set_session (<[key := value]> (session (fst s))) (fst s), snd s)).

(** [messages.warning(request, text)] and [messages.success(request, text)] *)
Definition messages_warning (text : message_text) : M unit :=
  fun s => (Ok tt, (add_message {| msg_level := Warning; msg_text := text |} (fst s), snd s)).
Definition messages_success (text : message_text) : M unit :=
  fun s => (Ok tt, (add_message {| msg_level := Success; msg_text := text |} (fst s), snd s)).

(** [get_object_or_404(Quiz, pk=pk)], where the store takes every int as a
    key and finds no row for one that is no key; [get_object_or_404_Quiz_on]
    below has the range of the keys. *)
Definition get_object_or_404_Quiz (pk : Z) : M Quiz :=
  found <- query (fun d => Quiz_get d pk) ;;
  match found with
  | Some quiz => ret quiz
  | None => raise Http404
  end.

(** [Answer.objects.get(question=question_id, is_correct=True)] as a
    statement of the view. *)
Definition Answer_objects_get (question_id : Z) : M Answer :=
  found <- query (fun d => Answer_get_correct d question_id) ;;
  lift found.

(** Modelled from the spec: the constructor of [TakeQuizForm] is in forms.py,
    which is not part of the sources.  The form is built from the current
    question; without one there is no answer set to offer. *)
Definition TakeQuizForm_init (question : option Question) (data : option (option Z))
  : M TakeQuizForm :=
  match question with
  | Some q => ret {| form_question := q; form_data := data |}
  | None => raise AttributeError
  end.

(** ** The view *)

Definition temp_score_name (quiz : Quiz) : string := "temp_score_" +:+ str (quiz_id quiz).
Definition next_exponent_name (quiz : Quiz) : string := "next_exponent_" +:+ str (quiz_id quiz).

(** [100 - round(((total_unanswered_questions - 1) / total_questions) * 100)] *)
Definition compute_progress (total_unanswered_questions total_questions : Z) : result Z :=
  match int_true_div (total_unanswered_questions - 1) total_questions with
  | Raise e => Raise e
  | Ok x => match py_round (float_mul x (float_of_int 100)) with
            | Raise e => Raise e
            | Ok k => Ok (100 - k)
            end
  end.

(** [round((correct_answers / total_questions) * 100.0, 2)] *)
Definition compute_score (correct_answers total_questions : Z) : result float :=
  match int_true_div correct_answers total_questions with
  | Raise e => Raise e
  | Ok x => py_round_ndigits (float_mul x (float_of_int 100)) 2
  end.

(** The scoring rule on the two session values, as the two branches of the
    view write it. *)
Definition score_update (is_correct : bool) (temp_score next_exponent : Z) : Z * Z :=
  if is_correct then (temp_score + py_pow2 next_exponent, next_exponent + 1)
  else (temp_score - 2, 1).

(** The same on the pair of the two values. *)
Definition score_step (is_correct : bool) (state : Z * Z) : Z * Z :=
  score_update is_correct (fst state) (snd state).

(** The body of the [with transaction.atomic():] block.  The two [print]
    calls write to the standard output only and are left out.  The text of
    the scoring message is ['Correct. Score is: ' + str(...)] of the running
    score: here [str] converts every int and the message holds the score;
    [submit_on] below is the block with the limit of the digits. *)
Definition submit (pk : Z) (quiz : Quiz) (student : Z) (total_questions : Z)
    (question : Question) (answer : Answer) : M HttpResponse :=
  (* student_answer = form.save(commit=False); student_answer.student = student;
     student_answer.save() *)
  let student_answer := {| sa_student := student; sa_answer := answer_id answer |} in
  execute (insert_student_answer student_answer) ;;
  correct_answer <- Answer_objects_get (question_id question) ;;
  temp_score <- session_get (temp_score_name quiz) 0 ;;
  session_setitem (temp_score_name quiz) temp_score ;;
  next_exponent <- session_get (next_exponent_name quiz) 1 ;;
  session_setitem (temp_score_name quiz) temp_score ;;
  (if sa_answer student_answer =? answer_id correct_answer then
     session_setitem (temp_score_name quiz) (temp_score + py_pow2 next_exponent) ;;
     session_setitem (next_exponent_name quiz) (next_exponent + 1) ;;
     shown <- session_getitem (temp_score_name quiz) ;;
     messages_warning (CorrectScoreIs shown)
   else
     session_setitem (temp_score_name quiz) (temp_score - 2) ;;
     session_setitem (next_exponent_name quiz) 1 ;;
     shown <- session_getitem (temp_score_name quiz) ;;
     messages_warning (WrongScoreIs shown)) ;;
  number_correct <- query (fun d => correct_answers_count d student quiz) ;;
  more <- query (fun d => match get_unanswered_questions d student quiz with
                          | [] => false
                          | _ :: _ => true
                          end) ;;
  if more : bool then ret (RedirectTakeQuiz pk)
  else
    correct_answers <- query (fun d => correct_answers_count d student quiz) ;;
    score <- lift (compute_score correct_answers total_questions) ;;
    execute (insert_taken_quiz
               {| tq_student := student; tq_quiz := quiz_id quiz; tq_score := score |}) ;;
    (if float_lt score (float_of_int 50) then
       messages_warning (BetterLuckNextTime (quiz_name quiz) score)
     else
       messages_success (Congratulations (quiz_name quiz) score)) ;;
    ret RedirectQuizList.

(** From [if request.method == 'POST':] to the final [render]: the part of
    the view that runs once the progress and the current question are known. *)
Definition respond (request : HttpRequest) (pk : Z) (quiz : Quiz) (student : Z)
    (total_questions progress : Z) (question : option Question) : M HttpResponse :=
  if String.eqb (req_method request) "POST" then
    form <- TakeQuizForm_init question (Some (req_POST request)) ;;
    cleaned <- query (fun d => form_clean d form) ;;
    match cleaned with
    | Some answer =>
        atomic (submit pk quiz student total_questions (form_question form) answer)
    | None => ret (TakeQuizFormPage quiz (form_question form) form progress)
    end
  else
    form <- TakeQuizForm_init question None ;;
    ret (TakeQuizFormPage quiz (form_question form) form progress).

Definition take_quiz (request : HttpRequest) (pk : Z) : M HttpResponse :=
  quiz <- get_object_or_404_Quiz pk ;;
  let student := req_student request in
  taken <- query (fun d => student_quizzes_exists d student pk) ;;
  if taken : bool then ret TakenQuizPage
  else
    total_questions <- query (fun d => Z.of_nat (length (quiz_questions d quiz))) ;;
    total_unanswered_questions <-
      query (fun d => Z.of_nat (length (get_unanswered_questions d student quiz))) ;;
    progress <- lift (compute_progress total_unanswered_questions total_questions) ;;
    question <- query (fun d => head (get_unanswered_questions d student quiz)) ;;
    respond request pk quiz student total_questions progress question.

(** One request served: the view run on a world under a fault plan. *)
Definition serve (faults : option nat) (request : HttpRequest) (pk : Z) (w : world)
  : result HttpResponse * world :=
  let '(r, (w', _)) := take_quiz request pk (w, faults) in (r, w').

(** ** Scenarios *)

Module Scenario.

Definition quiz1 : Quiz := {| quiz_id := 1; quiz_name := "Algebra"; quiz_subject := 3 |}.

(** A quiz of [n] questions numbered from 1, each with a correct answer
    [10 * i + 1] and a wrong answer [10 * i + 2]. *)
Definition questions_upto (n : nat) : list Question :=
  map (fun i => {| question_id := Z.of_nat i; question_quiz := 1 |}) (seq 1 n).
Definition answers_upto (n : nat) : list Answer :=
  flat_map (fun i => [ {| answer_id := 10 * Z.of_nat i + 1; answer_question := Z.of_nat i;
                          answer_is_correct := true |};
                       {| answer_id := 10 * Z.of_nat i + 2; answer_question := Z.of_nat i;
                          answer_is_correct := false |} ])
           (seq 1 n).

Definition fresh (n : nat) : world :=
  {| db := {| quizzes := [quiz1]; questions := questions_upto n;
              answers := answers_upto n; student_answers := [];
              taken_quizzes := []; interests := [(7, 3)] |};
     session := ∅; messages := [] |}.

Definition post (answer : Z) : HttpRequest :=
  {| req_method := "POST"; req_POST := Some answer; req_student := 7 |}.
Definition get : HttpRequest :=
  {| req_method := "GET"; req_POST := None; req_student := 7 |}.

Definition running_score (w : world) : option Z := session w !! temp_score_name quiz1.
Definition final_scores (w : world) : list float := map tq_score (taken_quizzes (db w)).

End Scenario.


(** ** Notions used in the statements *)

(** The running score and the streak exponent as the view reads them, with
    their defaults 0 and 1. *)
Definition session_state (s : gmap string Z) (quiz : Quiz) : Z * Z :=
  (default 0 (s !! temp_score_name quiz), default 1 (s !! next_exponent_name quiz)).

(** Primary keys identify the rows of the question and answer tables. *)
Definition store_ok (d : DB) : Prop :=
  NoDup (map question_id (questions d)) /\ NoDup (map answer_id (answers d)).

#[global] Instance store_ok_dec d : Decision (store_ok d).
Proof. unfold store_ok. apply _. Defined.

(** The student has at most one answer row per question of the quiz. *)
Definition answered_once (d : DB) (student : Z) (quiz : Quiz) : Prop :=
  NoDup (answered_question_ids d student quiz).

#[global] Instance answered_once_dec d student quiz : Decision (answered_once d student quiz).
Proof. unfold answered_once. apply _. Defined.

(** The form bound to the posted data of a request, for a current question. *)
Definition bound_form (question : Question) (request : HttpRequest) : TakeQuizForm :=
  {| form_question := question; form_data := Some (req_POST request) |}.

Definition unbound_form (question : Question) : TakeQuizForm :=
  {| form_question := question; form_data := None |}.

(** The message that follows the scoring of one answer. *)
Definition scoring_message (is_correct : bool) (shown : Z) : message :=
  {| msg_level := Warning;
     msg_text := if is_correct then CorrectScoreIs shown else WrongScoreIs shown |}.

(** The message that closes a quiz. *)
Definition closing_message (quiz : Quiz) (score : float) : message :=
  if float_lt score (float_of_int 50) then
    {| msg_level := Warning; msg_text := BetterLuckNextTime (quiz_name quiz) score |}
  else
    {| msg_level := Success; msg_text := Congratulations (quiz_name quiz) score |}.

(** The session after the scoring of one answer. *)
Definition scored_session (s : gmap string Z) (quiz : Quiz) (is_correct : bool)
  : gmap string Z :=
  let '(temp_score, next_exponent) := session_state s quiz in
  let '(temp_score', next_exponent') := score_update is_correct temp_score next_exponent in
  <[next_exponent_name quiz := next_exponent']> (<[temp_score_name quiz := temp_score']> s).

(** The requests served one after the other on a healthy store. *)
Fixpoint play (pk : Z) (requests : list HttpRequest) (w : world) : world :=
  match requests with
  | [] => w
  | r :: rest => play pk rest (snd (serve None r pk w))
  end.

(** The responses of the requests served one after the other. *)
Fixpoint responses (pk : Z) (requests : list HttpRequest) (w : world)
  : list (result HttpResponse) :=
  match requests with
  | [] => []
  | r :: rest => fst (serve None r pk w) :: responses pk rest (snd (serve None r pk w))
  end.

Definition is_Ok {A} (r : result A) : Prop :=
  match r with Ok _ => True | Raise _ => False end.

(** The POST of a student that picks the answer marked correct for a
    question. *)
Definition correct_post (d : DB) (student : Z) (question : Question) : HttpRequest :=
  {| req_method := "POST";
     req_POST := match Answer_get_correct d (question_id question) with
                 | Ok a => Some (answer_id a)
                 | Raise _ => None
                 end;
     req_student := student |}.

(** A postcondition of a computation that holds under every fault plan of
    the store. *)
Definition wp {A} (m : M A) (Q : result A -> world -> Prop) (w : world) : Prop :=
  forall faults, Q (fst (m (w, faults))) (fst (snd (m (w, faults)))).

(** What a request may leave in the store [d'], from the store [d] it
    started on: nothing, the student's answer, or the answer and the taken
    quiz of a student who had not taken the quiz. *)
Definition store_outcome (d : DB) (student pk : Z) (r : result HttpResponse) (d' : DB)
  : Prop :=
  match r with
  | Ok (RedirectTakeQuiz _) =>
      exists answer, d' = insert_student_answer {| sa_student := student; sa_answer := answer |} d
  | Ok RedirectQuizList =>
      exists answer score,
        d' = insert_taken_quiz
               {| tq_student := student; tq_quiz := pk; tq_score := score |}
               (insert_student_answer {| sa_student := student; sa_answer := answer |} d) /\
        student_quizzes_exists d student pk = false
  | _ => d' = d
  end.

(** The taken-quiz rows of a (student, quiz) pair. *)
Definition taken_rows (d : DB) (student pk : Z) : list TakenQuiz :=
  List.filter (fun t => (tq_student t =? student) && (tq_quiz t =? pk)) (taken_quizzes d).

(** A (student, quiz) pair has at most one taken-quiz row. *)
Definition at_most_one_taken (d : DB) : Prop :=
  forall student pk, (length (taken_rows d student pk) <= 1)%nat.

(** The request posts a valid answer to the current question of a quiz the
    student has not taken. *)
Definition valid_submission (request : HttpRequest) (pk : Z) (w : world) : Prop :=
  req_method request = "POST" /\
  student_quizzes_exists (db w) (req_student request) pk = false /\
  exists quiz question answer,
    Quiz_get (db w) pk = Some quiz /\
    head (get_unanswered_questions (db w) (req_student request) quiz) = Some question /\
    form_clean (db w) (bound_form question request) = Some answer.

(** An answer submission that the view processes: the student has not taken
    the quiz, [question] is the first unanswered question and [rest] the
    ones after it, the posted answer is [answer], one of the question's, and
    [correct] is the one answer of the question that is marked correct.  The
    store identifies rows by primary key and holds at most one answer of the
    student per question. *)
Record submission (request : HttpRequest) (pk : Z) (w : world) (quiz : Quiz)
    (question : Question) (rest : list Question) (answer correct : Answer) : Prop := {
  sub_quiz : Quiz_get (db w) pk = Some quiz;
  sub_not_taken : student_quizzes_exists (db w) (req_student request) pk = false;
  sub_current : get_unanswered_questions (db w) (req_student request) quiz = question :: rest;
  sub_post : req_method request = "POST";
  sub_valid : form_clean (db w) (bound_form question request) = Some answer;
  sub_correct : Answer_get_correct (db w) (question_id question) = Ok correct;
  sub_store : store_ok (db w);
  sub_once : answered_once (db w) (req_student request) quiz
}.

(** The session holds neither of the two values of the quiz: no answer of
    this attempt has been scored yet. *)
Definition fresh_session (s : gmap string Z) (quiz : Quiz) : Prop :=
  s !! temp_score_name quiz = None /\ s !! next_exponent_name quiz = None.

(** A response with its progress indicator blanked. *)
Definition forget_progress (r : result HttpResponse) : result HttpResponse :=
  match r with
  | Ok (TakeQuizFormPage quiz question form _) => Ok (TakeQuizFormPage quiz question form 0)
  | _ => r
  end.

(** ** The taken-quiz listing *)

(** [order_by]: the rows sorted by a key under the store's collation [le],
    rows of equal keys in the order the store holds them. *)
Fixpoint insert_by {A} (le : A -> A -> bool) (x : A) (l : list A) : list A :=
  match l with
  | [] => [x]
  | y :: l' => if le x y then x :: l else y :: insert_by le x l'
  end.

Definition order_by {A} (le : A -> A -> bool) (l : list A) : list A :=
  fold_right (insert_by le) [] l.

(** [student.taken_quizzes.select_related('quiz', 'quiz__subject')]: the
    student's taken-quiz rows, each joined with its quiz.  Modelled from the
    spec: the relation [student.taken_quizzes] is declared in models.py.  A
    quiz holds the id of its subject and the store has no table of subjects,
    so the second join adds nothing to a row. *)
Definition student_taken_quizzes (d : DB) (student : Z) : list (TakenQuiz * Quiz) :=
  flat_map
    (fun t =>
       if tq_student t =? student then
         match Quiz_get d (tq_quiz t) with
         | Some quiz => [(t, quiz)]
         | None => []
         end
       else [])
    (taken_quizzes d).

(** [TakenQuizListView.get_queryset]: these rows ordered by the name of
    their quiz.  The order of two names is the collation of the store, a
    parameter. *)
Definition TakenQuizListView_get_queryset (collation : string -> string -> bool)
    (d : DB) (student : Z) : list (TakenQuiz * Quiz) :=
  order_by (fun r1 r2 => collation (quiz_name (snd r1)) (quiz_name (snd r2)))
           (student_taken_quizzes d student).

(** The POST of a student that picks a given answer. *)
Definition post_answer (student : Z) (answer : Answer) : HttpRequest :=
  {| req_method := "POST"; req_POST := Some (answer_id answer); req_student := student |}.

(** The student's answer row for a picked answer. *)
Definition answer_row (student : Z) (answer : Answer) : StudentAnswer :=
  {| sa_student := student; sa_answer := answer_id answer |}.

(** [answer] can be submitted for [question]: it is one of the question's
    answers, and the question has one answer marked correct. *)
Definition answerable (d : DB) (question : Question) (answer : Answer) : Prop :=
  In answer (question_answers d question) /\
  is_Ok (Answer_get_correct d (question_id question)).

(** The running score and the streak exponent after the scoring of a list
    of answers, each correct or not. *)
Definition score_run (marks : list bool) (state : Z * Z) : Z * Z :=
  fold_left (fun state c => score_step c state) marks state.

(** The store with another table of interests. *)
Definition set_interests (i : list (Z * Z)) (d : DB) : DB :=
  {| quizzes := quizzes d; questions := questions d; answers := answers d;
     student_answers := student_answers d; taken_quizzes := taken_quizzes d;
     interests := i |}.

(** The world with another table of interests. *)
Definition with_interests (i : list (Z * Z)) (w : world) : world :=
  set_db (set_interests i (db w)) w.

(** A computation does not look at what [change] changes in the world: it
    runs on the changed world as on the world, and the change is still there
    at the end. *)
Definition unaware {A} (change : world -> world) (m : M A) : Prop :=
  forall w faults,
    m (change w, faults) =
    (fst (m (w, faults)), (change (fst (snd (m (w, faults)))), snd (snd (m (w, faults))))).

(** A float that is a zero or a finite number from 0 to the integer [N]:
    its mantissa [m] and exponent [e <= 0] satisfy [m <= N * 2 ^ (- e)], that
    is [m * 2 ^ e <= N]. *)
Definition float_from_0_to (N : Z) (x : float) : Prop :=
  match x with
  | S754_zero _ => True
  | S754_finite false m e => e <= 0 /\ Z.pos m <= N * 2 ^ (- e)
  | _ => False
  end.

(** The binary number [m * 2 ^ e], or when [inexact] a number strictly
    between it and [(m + 1) * 2 ^ e], is at most the integer [N]. *)
Definition below (N m e : Z) (inexact : bool) : Prop :=
  e <= 0 /\ (if inexact then m + 1 else m) <= N * 2 ^ (- e).

(** Whether a rounding location stands for a nonzero remainder. *)
Definition inexact_loc (l : location) : bool :=
  match l with loc_Exact => false | loc_Inexact _ => true end.

(** Whether the bits shifted out of a mantissa so far are not all zero. *)
Definition inexact_shr (r : shr_record) : bool := shr_r r || shr_s r.

(** A student who has answered every question of a quiz that has questions
    has taken the quiz. *)
Definition finished_is_taken (d : DB) : Prop :=
  forall student quiz,
    quiz_questions d quiz <> [] ->
    get_unanswered_questions d student quiz = [] ->
    student_quizzes_exists d student (quiz_id quiz) = true.


(** A computation that, run on a healthy store, finds the store healthy at
    its end and does not raise the store's error. *)
Definition sound_on_healthy {A} (m : M A) : Prop :=
  forall w, fst (m (w, None)) <> Raise DatabaseError /\ snd (snd (m (w, None))) = None.

(** ** The limits of the platform

    Two expressions of the view depend on the platform it runs on, and on
    nothing in its text.  [str] of an int raises [ValueError] when the int
    has more decimal digits than the interpreter converts (CPython from 3.11
    on, 4300 digits unless configured otherwise), and a query raises
    [OverflowError] when its key parameter is outside the integers the store
    takes (SQLite under Django before 4.2: the signed 64-bit integers).  The
    view of the sections above is the view on a platform without these
    limits; the definitions below are the same view with the limits as a
    parameter.  The memory of the interpreter is no limit here: an int is of
    any size. *)

Record platform := {
  (** [sys.get_int_max_str_digits()], [None] where [str] converts every int *)
  int_max_str_digits : option Z;
  (** the least and the greatest int that the store takes as the key
      parameter of a query, [None] where it takes every int *)
  key_range : option (Z * Z)
}.

Definition no_limits : platform :=
  {| int_max_str_digits := None; key_range := None |}.

(** The defaults of CPython from 3.11 on, with a store of signed 64-bit keys. *)
Definition default_limits : platform :=
  {| int_max_str_digits := Some 4300; key_range := Some (- 2 ^ 63, 2 ^ 63 - 1) |}.

(** [str(n)] of an int on the platform: an int of more than
    [int_max_str_digits] decimal digits, that is one from [10 ^ digits] on in
    absolute value, is not converted. *)
Definition str_on (p : platform) (n : Z) : result string :=
  match int_max_str_digits p with
  | Some digits => if 10 ^ digits <=? Z.abs n then Raise ValueError else Ok (str n)
  | None => Ok (str n)
  end.

(** [str(n)] returns. *)
Definition printable (p : platform) (n : Z) : Prop := str_on p n = Ok (str n).

(** The store takes [k] as the key parameter of a query. *)
Definition accepts_key (p : platform) (k : Z) : bool :=
  match key_range p with
  | Some (least, greatest) => (least <=? k) && (k <=? greatest)
  | None => true
  end.

(** [get_object_or_404(Quiz, pk=pk)] on the platform: a key that the store
    does not take is refused when the parameters of the query are bound, and
    the error is none of those that the helper turns into [Http404]. *)
Definition get_object_or_404_Quiz_on (p : platform) (pk : Z) : M Quiz :=
  if accepts_key p pk then get_object_or_404_Quiz pk else raise OverflowError.

(** The body of the [with transaction.atomic():] block on the platform: the
    text of the scoring message is built, with [str] of the new running
    score, before the message is queued.  The two [print] calls are left out
    as in [submit]: the int that the second converts is a count of rows.
    The names of the session values are built with [str] of the id of the
    quiz, a key of the store. *)
Definition submit_on (p : platform) (pk : Z) (quiz : Quiz) (student : Z)
    (total_questions : Z) (question : Question) (answer : Answer) : M HttpResponse :=
  let student_answer := {| sa_student := student; sa_answer := answer_id answer |} in
  execute (insert_student_answer student_answer) ;;
  correct_answer <- Answer_objects_get (question_id question) ;;
  temp_score <- session_get (temp_score_name quiz) 0 ;;
  session_setitem (temp_score_name quiz) temp_score ;;
  next_exponent <- session_get (next_exponent_name quiz) 1 ;;
  session_setitem (temp_score_name quiz) temp_score ;;
  (if sa_answer student_answer =? answer_id correct_answer then
     session_setitem (temp_score_name quiz) (temp_score + py_pow2 next_exponent) ;;
     session_setitem (next_exponent_name quiz) (next_exponent + 1) ;;
     shown <- session_getitem (temp_score_name quiz) ;;
     lift (str_on p shown) ;;
     messages_warning (CorrectScoreIs shown)
   else
     session_setitem (temp_score_name quiz) (temp_score - 2) ;;
     session_setitem (next_exponent_name quiz) 1 ;;
     shown <- session_getitem (temp_score_name quiz) ;;
     lift (str_on p shown) ;;
     messages_warning (WrongScoreIs shown)) ;;
  number_correct <- query (fun d => correct_answers_count d student quiz) ;;
  more <- query (fun d => match get_unanswered_questions d student quiz with
                          | [] => false
                          | _ :: _ => true
                          end) ;;
  if more : bool then ret (RedirectTakeQuiz pk)
  else
    correct_answers <- query (fun d => correct_answers_count d student quiz) ;;
    score <- lift (compute_score correct_answers total_questions) ;;
    execute (insert_taken_quiz
               {| tq_student := student; tq_quiz := quiz_id quiz; tq_score := score |}) ;;
    (if float_lt score (float_of_int 50) then
       messages_warning (BetterLuckNextTime (quiz_name quiz) score)
     else
       messages_success (Congratulations (quiz_name quiz) score)) ;;
    ret RedirectQuizList.

Definition respond_on (p : platform) (request : HttpRequest) (pk : Z) (quiz : Quiz)
    (student : Z) (total_questions progress : Z) (question : option Question)
  : M HttpResponse :=
  if String.eqb (req_method request) "POST" then
    form <- TakeQuizForm_init question (Some (req_POST request)) ;;
    cleaned <- query (fun d => form_clean d form) ;;
    match cleaned with
    | Some answer =>
        atomic (submit_on p pk quiz student total_questions (form_question form) answer)
    | None => ret (TakeQuizFormPage quiz (form_question form) form progress)
    end
  else
    form <- TakeQuizForm_init question None ;;
    ret (TakeQuizFormPage quiz (form_question form) form progress).

Definition take_quiz_on (p : platform) (request : HttpRequest) (pk : Z) : M HttpResponse :=
  quiz <- get_object_or_404_Quiz_on p pk ;;
  let student := req_student request in
  taken <- query (fun d => student_quizzes_exists d student pk) ;;
  if taken : bool then ret TakenQuizPage
  else
    total_questions <- query (fun d => Z.of_nat (length (quiz_questions d quiz))) ;;
    total_unanswered_questions <-
      query (fun d => Z.of_nat (length (get_unanswered_questions d student quiz))) ;;
    progress <- lift (compute_progress total_unanswered_questions total_questions) ;;
    question <- query (fun d => head (get_unanswered_questions d student quiz)) ;;
    respond_on p request pk quiz student total_questions progress question.

(** One request served on the platform. *)
Definition serve_on (p : platform) (faults : option nat) (request : HttpRequest) (pk : Z)
    (w : world) : result HttpResponse * world :=
  let '(r, (w', _)) := take_quiz_on p request pk (w, faults) in (r, w').

(** The requests served one after the other on a healthy store, and their
    responses. *)
Fixpoint play_on (p : platform) (pk : Z) (requests : list HttpRequest) (w : world) : world :=
  match requests with
  | [] => w
  | r :: rest => play_on p pk rest (snd (serve_on p None r pk w))
  end.

Fixpoint responses_on (p : platform) (pk : Z) (requests : list HttpRequest) (w : world)
  : list (result HttpResponse) :=
  match requests with
  | [] => []
  | r :: rest =>
      fst (serve_on p None r pk w) :: responses_on p pk rest (snd (serve_on p None r pk w))
  end.

(** The running scores that the scoring of a list of answers passes
    through, one per answer. *)
Fixpoint scores_along (marks : list bool) (state : Z * Z) : list Z :=
  match marks with
  | [] => []
  | c :: rest => fst (score_step c state) :: scores_along rest (score_step c state)
  end.

(** The world that a submission whose message cannot be built leaves: the
    store as it was, the session scored, no message. *)
Definition scored_unsaved (w : world) (quiz : Quiz) (is_correct : bool) : world :=
  {| db := db w; session := scored_session (session w) quiz is_correct;
     messages := messages w |}.

(** The count of the final score in the words of the specification: the
    student's submitted answers that reference an answer marked correct of a
    question of the quiz. *)
Definition submitted_correct_answers (d : DB) (student : Z) (quiz : Quiz) : Z :=
  Z.of_nat
    (length
       (List.filter
          (fun sa =>
             (sa_student sa =? student) &&
             existsb
               (fun a =>
                  (answer_id a =? sa_answer sa) &&
                  (answer_is_correct a &&
                   existsb (fun q => (question_id q =? answer_question a) &&
                                     (question_quiz q =? quiz_id quiz))
                           (questions d)))
               (answers d))
          (student_answers d))).

(** What an exception of the view on a platform tells about the request and
    the world it was served on.  [OverflowError] is the error of a key that
    the store does not take: nothing is told of it. *)
Definition error_cause_on (p : platform) (request : HttpRequest) (pk : Z) (w : world)
    (e : exn) : Prop :=
  match e with
  | Http404 => accepts_key p pk = true /\ Quiz_get (db w) pk = None
  | ZeroDivisionError =>
      exists quiz, Quiz_get (db w) pk = Some quiz /\ quiz_questions (db w) quiz = []
  | AttributeError =>
      exists quiz,
        Quiz_get (db w) pk = Some quiz /\
        student_quizzes_exists (db w) (req_student request) pk = false /\
        get_unanswered_questions (db w) (req_student request) quiz = []
  | DoesNotExist | MultipleObjectsReturned =>
      exists quiz question,
        Quiz_get (db w) pk = Some quiz /\
        req_method request = "POST" /\
        head (get_unanswered_questions (db w) (req_student request) quiz) = Some question /\
        Answer_get_correct (db w) (question_id question) = Raise e
  | ValueError =>
      exists quiz question rest answer correct,
        submission request pk w quiz question rest answer correct /\
        ~ printable p (fst (score_step (answer_id answer =? answer_id correct)
                                       (session_state (session w) quiz)))
  | KeyError => False
  | OverflowError | DatabaseError => True
  end.

(** * Facts *)

(** ** Binary digits and the rounding of the float operations

    The float operations round through [binary_round_aux]; the lemmas below
    bound the weight of what it returns, so that the quotients and products
    the view computes are shown never to overflow. *)

Module PyFloatFacts.

Ltac fl := unfold fexp, emin, prec, emax in *; lia.

Lemma digits2_pos_size p : digits2_pos p = Pos.size p.
Proof. induction p; simpl; congruence. Qed.

Lemma Zdigits2_log2 m : 0 < m -> Zdigits2 m = Z.log2 m + 1.
Proof.
  destruct m as [|p|p]; try lia. intros _. simpl. rewrite digits2_pos_size.
  destruct p; simpl; lia.
Qed.

Lemma Zdigits2_nonneg m : 0 <= Zdigits2 m.
Proof. destruct m; simpl; lia. Qed.

(* m < 2^k characterises having at most k binary digits *)
Lemma Zdigits2_le m k : 0 <= m -> 0 <= k -> (Zdigits2 m <= k <-> m < 2 ^ k).
Proof.
  intros Hm Hk. destruct (Z.eq_dec m 0) as [->|Hne].
  - simpl. split; intros _; [apply Z.pow_pos_nonneg|]; lia.
  - rewrite Zdigits2_log2 by lia.
    rewrite (Z.log2_lt_pow2 m k) by lia. lia.
Qed.

Lemma Zdigits2_lt_pow2 m : 0 <= m -> m < 2 ^ Zdigits2 m.
Proof. intros. apply Zdigits2_le; auto using Zdigits2_nonneg. lia. Qed.

Lemma Zdigits2_ge_pow2 m : 0 < m -> 2 ^ (Zdigits2 m - 1) <= m.
Proof.
  intros. rewrite Zdigits2_log2 by lia. replace (Z.log2 m + 1 - 1) with (Z.log2 m) by lia.
  apply Z.log2_spec; lia.
Qed.

Lemma shr_m_of_loc m l : shr_m (shr_record_of_loc m l) = m.
Proof. destruct l as [|[]]; reflexivity. Qed.

Lemma shr_1_m r : 0 <= shr_m r -> shr_m (shr_1 r) = shr_m r / 2.
Proof.
  destruct r as [m r s]. simpl. intros Hm.
  destruct m as [|[p|p|]|p]; simpl; try reflexivity; try lia.
  - rewrite (Pos2Z.inj_xI p). symmetry. 
    replace (2 * Z.pos p + 1) with (1 + Z.pos p * 2) by lia.
    rewrite Z.div_add by lia. reflexivity.
  - rewrite (Pos2Z.inj_xO p). rewrite Z.mul_comm, Z.div_mul by lia. reflexivity.
Qed.

Lemma iter_shr_1_m p : forall r, 0 <= shr_m r ->
  shr_m (SpecFloat.iter_pos shr_1 p r) = shr_m r / 2 ^ Z.pos p.
Proof.
  induction p as [p IH|p IH|]; intros r Hr; simpl SpecFloat.iter_pos.
  - assert (H1 : 0 <= shr_m (shr_1 r)) by (rewrite shr_1_m by auto; apply Z.div_pos; lia).
    assert (H2 : 0 <= shr_m (SpecFloat.iter_pos shr_1 p (shr_1 r)))
      by (rewrite IH by auto; apply Z.div_pos; [auto|apply Z.pow_pos_nonneg; lia]).
    rewrite IH, IH, shr_1_m by auto.
    rewrite !Z.div_div by (try apply Z.pow_pos_nonneg; lia).
    f_equal. rewrite (Pos2Z.inj_xI p).
    replace (2 * Z.pos p + 1) with (1 + Z.pos p + Z.pos p) by lia.
    rewrite !Z.pow_add_r by lia. lia.
  - assert (H2 : 0 <= shr_m (SpecFloat.iter_pos shr_1 p r))
      by (rewrite IH by auto; apply Z.div_pos; [auto|apply Z.pow_pos_nonneg; lia]).
    rewrite IH, IH by auto.
    rewrite !Z.div_div by (try apply Z.pow_pos_nonneg; lia).
    f_equal. rewrite (Pos2Z.inj_xO p).
    replace (2 * Z.pos p) with (Z.pos p + Z.pos p) by lia.
    rewrite !Z.pow_add_r by lia. lia.
  - rewrite shr_1_m by auto. reflexivity.
Qed.

(* a right shift drops digits, and keeps the weight digits + exponent *)
Lemma shr_fexp_bound m e l B :
  0 <= m -> Zdigits2 m + e <= B -> emin prec emax <= B ->
  let '(r, e') := shr_fexp prec emax m e l in
  0 <= shr_m r /\ Zdigits2 (shr_m r) + e' <= B /\
  (e' = e \/ e' = fexp prec emax (Zdigits2 m + e)).
Proof.
  intros Hm HB Hmin. unfold shr_fexp, shr.
  destruct (fexp prec emax (Zdigits2 m + e) - e) as [|n|n] eqn:En;
    try (rewrite shr_m_of_loc; auto).
  rewrite iter_shr_1_m by (rewrite shr_m_of_loc; auto).
  rewrite shr_m_of_loc.
  assert (Hpow : 0 < 2 ^ Z.pos n) by (apply Z.pow_pos_nonneg; lia).
  assert (Hq : 0 <= m / 2 ^ Z.pos n) by (apply Z.div_pos; lia).
  split; [auto|]. split; [|right; lia].
  assert (Hfe : fexp prec emax (Zdigits2 m + e) <= B) by fl.
  destruct (Z_lt_le_dec (Zdigits2 m) (Z.pos n)) as [Hlt|Hge].
  - (* everything is shifted out *)
    assert (m / 2 ^ Z.pos n = 0) as ->.
    { apply Z.div_small. split; auto.
      apply Z.lt_le_trans with (2 ^ Zdigits2 m); [apply Zdigits2_lt_pow2; auto|].
      apply Z.pow_le_mono_r; lia. }
    simpl. lia.
  - assert (Zdigits2 (m / 2 ^ Z.pos n) <= Zdigits2 m - Z.pos n); [|lia].
    apply Zdigits2_le; [auto|lia|].
    apply Z.div_lt_upper_bound; [auto|].
    rewrite <- Z.pow_add_r by lia.
    replace (Z.pos n + (Zdigits2 m - Z.pos n)) with (Zdigits2 m) by lia.
    apply Zdigits2_lt_pow2; auto.
Qed.

Lemma round_nearest_even_bound m l :
  0 <= m -> 0 <= round_nearest_even m l /\
            Zdigits2 (round_nearest_even m l) <= Zdigits2 m + 1.
Proof.
  intros Hm.
  assert (Hs : Zdigits2 (m + 1) <= Zdigits2 m + 1).
  { apply Zdigits2_le; [lia|pose proof (Zdigits2_nonneg m); lia|].
    rewrite Z.pow_add_r by (pose proof (Zdigits2_nonneg m); lia).
    pose proof (Zdigits2_lt_pow2 m Hm). lia. }
  unfold round_nearest_even.
  destruct l as [|[]]; try destruct (Z.even m); split; try lia.
Qed.

Lemma binary_round_aux_bounded s m e l B :
  0 <= m -> Zdigits2 m + e <= B -> e <= emax - prec ->
  emin prec emax <= B -> B < emax ->
  sf_bounded (B + 1) (binary_round_aux prec emax s m e l).
Proof.
  intros Hm HB He Hmin Hmax. unfold binary_round_aux.
  pose proof (shr_fexp_bound m e l B Hm HB Hmin) as H1.
  destruct (shr_fexp prec emax m e l) as [r1 e1].
  destruct H1 as (Hr1 & Hd1 & He1).
  pose proof (round_nearest_even_bound (shr_m r1) (loc_of_shr_record r1) Hr1) as [Hn Hdn].
  set (m2 := round_nearest_even (shr_m r1) (loc_of_shr_record r1)) in *.
  assert (Hd2 : Zdigits2 m2 + e1 <= B + 1) by lia.
  pose proof (shr_fexp_bound m2 e1 loc_Exact (B + 1) Hn Hd2 ltac:(lia)) as H2.
  destruct (shr_fexp prec emax m2 e1 loc_Exact) as [r2 e2].
  destruct H2 as (Hr2 & Hd3 & He2).
  assert (He1' : e1 <= emax - prec) by fl.
  assert (He2' : e2 <= emax - prec) by fl.
  destruct (shr_m r2) as [|p|p] eqn:Ep; [exact I| |lia].
  destruct (Z.leb_spec e2 (emax - prec)); [|lia].
  split; [exact Hd3|assumption].
Qed.

Lemma Zdigits2_mul a b : 0 <= a -> 0 <= b -> Zdigits2 (a * b) <= Zdigits2 a + Zdigits2 b.
Proof.
  intros Ha Hb. pose proof (Zdigits2_nonneg a). pose proof (Zdigits2_nonneg b).
  apply Zdigits2_le; [nia|lia|].
  rewrite Z.pow_add_r by lia.
  pose proof (Zdigits2_lt_pow2 a Ha). pose proof (Zdigits2_lt_pow2 b Hb). nia.
Qed.

Lemma Zdigits2_div a b : 0 <= a -> 0 < b ->
  Zdigits2 (a / b) <= Z.max 0 (Zdigits2 a - Zdigits2 b + 1).
Proof.
  intros Ha Hb. pose proof (Zdigits2_nonneg a). pose proof (Zdigits2_nonneg b).
  pose proof (Zdigits2_lt_pow2 a Ha) as Hua. pose proof (Zdigits2_ge_pow2 b Hb) as Hlb.
  assert (Hdb : 1 <= Zdigits2 b) by (rewrite Zdigits2_log2 by lia; pose proof (Z.log2_nonneg b); lia).
  destruct (Z_lt_le_dec (Zdigits2 a - Zdigits2 b + 1) 0) as [Hneg|Hpos].
  - assert (a / b = 0) as ->; [|simpl; lia].
    apply Z.div_small. split; auto.
    apply Z.lt_le_trans with (2 ^ Zdigits2 a); auto.
    apply Z.le_trans with (2 ^ (Zdigits2 b - 1)); auto.
    apply Z.pow_le_mono_r; lia.
  - rewrite Z.max_r by lia.
    apply Zdigits2_le; [apply Z.div_pos; lia|lia|].
    apply Z.div_lt_upper_bound; auto.
    apply Z.lt_le_trans with (2 ^ Zdigits2 a); auto.
    replace (Zdigits2 a) with ((Zdigits2 b - 1) + (Zdigits2 a - Zdigits2 b + 1)) at 1 by lia.
    rewrite Z.pow_add_r by lia.
    apply Z.mul_le_mono_nonneg_r; auto. apply Z.pow_nonneg; lia.
Qed.

Lemma Zdigits2_mono a b : 0 <= a <= b -> Zdigits2 a <= Zdigits2 b.
Proof.
  intros [Ha Hab]. apply Zdigits2_le; auto using Zdigits2_nonneg.
  apply Z.le_lt_trans with b; auto. apply Zdigits2_lt_pow2; lia.
Qed.

Lemma Zdigits2_shiftl m s : 0 <= m -> 0 <= s -> Zdigits2 (Z.shiftl m s) <= Zdigits2 m + s.
Proof.
  intros Hm Hs. pose proof (Zdigits2_nonneg m).
  rewrite Z.shiftl_mul_pow2 by auto.
  apply Zdigits2_le; [apply Z.mul_nonneg_nonneg; auto; apply Z.pow_nonneg; lia|lia|].
  rewrite Z.pow_add_r by lia.
  apply Z.mul_lt_mono_pos_r; [apply Z.pow_pos_nonneg; lia|apply Zdigits2_lt_pow2; auto].
Qed.

Lemma SFdiv_bounded sx mx ex sy my ey B :
  Z.pos (digits2_pos mx) + ex - (Z.pos (digits2_pos my) + ey) + 1 <= B ->
  emin prec emax <= B -> B < emax ->
  sf_bounded (B + 1) (SFdiv prec emax (S754_finite sx mx ex) (S754_finite sy my ey)).
Proof.
  intros HB Hmin Hmax. unfold SFdiv, SFdiv_core_binary.
  change (Zdigits2 (Z.pos mx)) with (Z.pos (digits2_pos mx)).
  change (Zdigits2 (Z.pos my)) with (Z.pos (digits2_pos my)).
  set (d1 := Z.pos (digits2_pos mx)) in *. set (d2 := Z.pos (digits2_pos my)) in *.
  set (e' := Z.min (fexp prec emax (d1 + ex - (d2 + ey))) (ex - ey)).
  set (s := ex - ey - e').
  set (m' := match s with Z.pos _ => Z.shiftl (Z.pos mx) s | 0 => Z.pos mx | Z.neg _ => 0 end).
  assert (Hs : 0 <= s) by (unfold s, e'; lia).
  assert (Hm' : 0 <= m' /\ Zdigits2 m' <= d1 + s).
  { unfold m'. destruct s as [|n|n] eqn:Es; [simpl; fold d1; lia | | lia].
    split; [apply Z.shiftl_nonneg; lia|].
    apply (Zdigits2_shiftl (Z.pos mx) (Z.pos n)); lia. }
  destruct Hm' as [Hm0 Hmd].
  pose proof (Z_div_mod m' (Z.pos my) ltac:(lia)) as Hdm.
  destruct (Z.div_eucl m' (Z.pos my)) as [q r] eqn:Eqr.
  assert (Hq : q = m' / Z.pos my) by (unfold Z.div; rewrite Eqr; reflexivity).
  apply binary_round_aux_bounded; auto.
  - subst q. apply Z.div_pos; lia.
  - subst q. pose proof (Zdigits2_div m' (Z.pos my) Hm0 ltac:(lia)) as Hd.
    change (Zdigits2 (Z.pos my)) with d2 in Hd.
    assert (e' <= B) by (unfold e'; fl). lia.
  - unfold e'. fl.
Qed.

Lemma SFmul_bounded sx mx ex sy my ey B :
  Z.pos (digits2_pos mx) + ex + (Z.pos (digits2_pos my) + ey) <= B ->
  ex + ey <= emax - prec -> emin prec emax <= B -> B < emax ->
  sf_bounded (B + 1) (SFmul prec emax (S754_finite sx mx ex) (S754_finite sy my ey)).
Proof.
  intros HB He Hmin Hmax. unfold SFmul.
  apply binary_round_aux_bounded; auto; [lia|].
  rewrite Pos2Z.inj_mul.
  pose proof (Zdigits2_mul (Z.pos mx) (Z.pos my) ltac:(lia) ltac:(lia)) as Hd.
  simpl Zdigits2 in Hd at 2 3. lia.
Qed.


Lemma int_true_div_bounded a b :
  0 <= a <= b -> 0 < b -> exists q, int_true_div a b = Ok q /\ sf_bounded 2 q.
Proof.
  intros [Ha Hab] Hb. unfold int_true_div.
  destruct (Z.eqb_spec b 0) as [|_]; [lia|].
  assert (Hq : sf_bounded 2 (SFdiv prec emax (Z2SF a) (Z2SF b))).
  { destruct b as [|pb|pb]; try lia. destruct a as [|pa|pa]; try lia; [exact I|].
    apply (SFdiv_bounded false pa 0 false pb 0 1); try fl.
    pose proof (Zdigits2_mono (Z.pos pa) (Z.pos pb) ltac:(lia)) as Hd. simpl in Hd. lia. }
  destruct (SFdiv prec emax (Z2SF a) (Z2SF b)) as [s|s| |s m e] eqn:E;
    try contradiction; eauto.
Qed.

Lemma float_mul_100_bounded x B :
  sf_bounded B x -> emin prec emax <= B -> B + 7 < emax ->
  sf_bounded (B + 8) (float_mul x (float_of_int 100)).
Proof.
  intros Hx Hmin Hmax.
  change (float_of_int 100) with (S754_finite false 7036874417766400 (-46)).
  destruct x as [s|s| |s m e]; try contradiction; [exact I|].
  destruct Hx as [Hd He].
  replace (B + 8) with (B + 7 + 1) by lia.
  apply SFmul_bounded; try fl.
  change (Z.pos (digits2_pos 7036874417766400)) with 53. lia.
Qed.

Lemma py_round_total B x : sf_bounded B x -> exists k, py_round x = Ok k.
Proof. destruct x; simpl; try contradiction; eauto. Qed.

Lemma compute_progress_total u t :
  1 <= u <= t -> exists p, compute_progress u t = Ok p.
Proof.
  intros Hu. unfold compute_progress.
  destruct (int_true_div_bounded (u - 1) t) as (q & -> & Hq); try lia.
  pose proof (float_mul_100_bounded q 2 Hq ltac:(fl) ltac:(fl)) as Hm.
  destruct (py_round_total _ _ Hm) as [k ->]. eauto.
Qed.

Lemma round_half_even_cases num den :
  round_half_even num den = num / den \/ round_half_even num den = num / den + 1.
Proof.
  unfold round_half_even.
  destruct (2 * (num mod den) ?= den); auto. destruct (Z.even (num / den)); auto.
Qed.

Lemma Zdigits2_succ m : 0 <= m -> Zdigits2 (m + 1) <= Zdigits2 m + 1.
Proof.
  intros Hm. pose proof (Zdigits2_nonneg m).
  apply Zdigits2_le; [lia|lia|].
  rewrite Z.pow_add_r by lia. pose proof (Zdigits2_lt_pow2 m Hm). lia.
Qed.

Lemma Zdigits2_pow2 n : 0 <= n -> Zdigits2 (2 ^ n) = n + 1.
Proof.
  intros Hn. rewrite Zdigits2_log2 by (apply Z.pow_pos_nonneg; lia).
  rewrite Z.log2_pow2 by lia. reflexivity.
Qed.

Lemma py_round_2_bounded x B :
  sf_bounded B x -> emin prec emax <= B -> B + 9 < emax ->
  exists r, py_round_ndigits x 2 = Ok r /\ sf_bounded (Z.max 0 (B + 7) - 4) r.
Proof.
  intros Hx Hmin Hmax.
  destruct x as [s|s| |s m e]; try contradiction; [simpl; eauto|].
  destruct Hx as [Hd He]. unfold py_round_ndigits.
  change (323 <? 2)%N with false. cbv iota. change (10 ^ Z.of_N 2) with 100.
  set (k := if 0 <=? e then Z.pos m * 2 ^ e * 100
            else round_half_even (Z.pos m * 100) (2 ^ (- e))).
  assert (Hk : 0 <= k /\ Zdigits2 k <= Z.max 0 (B + 7) + 1).
  { unfold k. destruct (Z.leb_spec 0 e) as [He0|He0].
    - assert (0 < 2 ^ e) by (apply Z.pow_pos_nonneg; lia).
      split; [nia|].
      pose proof (Zdigits2_mul (Z.pos m * 2 ^ e) 100 ltac:(nia) ltac:(lia)) as H1.
      pose proof (Zdigits2_mul (Z.pos m) (2 ^ e) ltac:(lia) ltac:(lia)) as H2.
      rewrite Zdigits2_pow2 in H2 by lia.
      change (Zdigits2 100) with 7 in H1. simpl Zdigits2 in H2 at 2.
      (* m * 2^e has exactly digits m + e digits *)
      assert (H3 : Zdigits2 (Z.pos m * 2 ^ e) <= Z.pos (digits2_pos m) + e).
      { rewrite <- Z.shiftl_mul_pow2 by lia.
        apply (Zdigits2_shiftl (Z.pos m) e); lia. }
      lia.
    - assert (Hden : 0 < 2 ^ (- e)) by (apply Z.pow_pos_nonneg; lia).
      assert (Hq0 : 0 <= Z.pos m * 100 / 2 ^ (- e)) by (apply Z.div_pos; lia).
      pose proof (Zdigits2_div (Z.pos m * 100) (2 ^ (- e)) ltac:(lia) Hden) as H1.
      rewrite Zdigits2_pow2 in H1 by lia.
      pose proof (Zdigits2_mul (Z.pos m) 100 ltac:(lia) ltac:(lia)) as H2.
      change (Zdigits2 100) with 7 in H2. simpl Zdigits2 in H2 at 2.
      pose proof (Zdigits2_succ _ Hq0) as H3.
      destruct (round_half_even_cases (Z.pos m * 100) (2 ^ (- e))) as [-> | ->];
        split; lia. }
  destruct Hk as [Hk0 Hkd]. clearbody k.
  destruct k as [|p|p]; [eexists; split; [reflexivity|exact I]| |lia].
  assert (Hq : sf_bounded (Z.max 0 (B + 7) - 4)
                 (SFdiv prec emax (S754_finite s p 0) (Z2SF 100))).
  { replace (Z.max 0 (B + 7) - 4) with (Z.max 0 (B + 7) - 5 + 1) by lia.
    apply SFdiv_bounded; try fl.
    change (Z.pos (digits2_pos 100)) with 7. simpl Zdigits2 in Hkd. lia. }
  destruct (SFdiv prec emax (S754_finite s p 0) (Z2SF 100)) as [s'|s'| |s' m' e'];
    try contradiction; eauto.
Qed.

Lemma compute_score_total c t :
  0 <= c <= t -> 0 < t -> exists r, compute_score c t = Ok r /\ sf_bounded 13 r.
Proof.
  intros Hc Ht. unfold compute_score.
  destruct (int_true_div_bounded c t Hc Ht) as (q & -> & Hq).
  pose proof (float_mul_100_bounded q 2 Hq ltac:(fl) ltac:(fl)) as Hm.
  destruct (py_round_2_bounded _ _ Hm ltac:(fl) ltac:(fl)) as (r & -> & Hr).
  eauto.
Qed.

Lemma SFcompare_antisym x y c :
  SFcompare x y = Some c -> SFcompare y x = Some (CompOpp c).
Proof.
  destruct x as [sx|sx| |sx mx ex], y as [sy|sy| |sy my ey]; simpl;
    try discriminate; intros [= <-];
    try (destruct sx; try destruct sy; reflexivity).
  f_equal. rewrite (Z.compare_antisym ex ey).
  change (Pos.compare_cont Eq my mx) with (Pos.compare_cont (CompOpp Eq) my mx).
  rewrite <- (Pos.compare_cont_antisym mx my Eq).
  destruct sx, sy; simpl; try reflexivity;
    destruct (ex ?= ey); simpl; try reflexivity.
Qed.

Lemma SFcompare_Some x y : is_nan x = false -> is_nan y = false ->
  exists c, SFcompare x y = Some c.
Proof.
  destruct x as [sx|sx| |sx mx ex], y as [sy|sy| |sy my ey]; simpl;
    try discriminate; eauto.
Qed.

Lemma SFltb_false_SFleb x y : is_nan x = false -> is_nan y = false ->
  SFltb x y = false <-> SFleb y x = true.
Proof.
  intros Hx Hy. destruct (SFcompare_Some x y Hx Hy) as [c Hc].
  pose proof (SFcompare_antisym x y c Hc) as Hc'.
  unfold SFltb, SFleb. rewrite Hc, Hc'. destruct c; simpl; split; congruence.
Qed.

End PyFloatFacts.
Import PyFloatFacts.

(** ** The store *)

Section Store.

Lemma find_unique {A} (key : A -> Z) (l : list A) (x : A) :
  List.NoDup (map key l) -> In x l -> find (fun y => key y =? key x) l = Some x.
Proof.
  induction l as [|y l IH]; simpl; intros Hnd Hin; [contradiction|].
  apply List.NoDup_cons_iff in Hnd as [Hy Hnd].
  destruct Hin as [->|Hin]; [rewrite Z.eqb_refl; reflexivity|].
  destruct (Z.eqb_spec (key y) (key x)) as [Heq|_]; [|auto].
  exfalso. apply Hy. rewrite Heq. apply in_map. exact Hin.
Qed.

Lemma NoDup_map_filter {A} (key : A -> Z) (p : A -> bool) (l : list A) :
  List.NoDup (map key l) -> List.NoDup (map key (List.filter p l)).
Proof.
  induction l as [|y l IH]; simpl; intros Hnd; [constructor|].
  apply List.NoDup_cons_iff in Hnd as [Hy Hnd].
  destruct (p y); simpl; auto.
  constructor; auto.
  intros Hin. apply Hy. apply in_map_iff in Hin as (z & Hz & Hin).
  apply filter_In in Hin as [Hin _]. rewrite <- Hz. apply in_map. exact Hin.
Qed.

Variable d : DB.
Variable student : Z.
Variable quiz : Quiz.

Lemma quiz_questions_insert_sa sa :
  quiz_questions (insert_student_answer sa d) quiz = quiz_questions d quiz.
Proof. reflexivity. Qed.

Lemma Answer_get_correct_insert_sa sa qid :
  Answer_get_correct (insert_student_answer sa d) qid = Answer_get_correct d qid.
Proof. reflexivity. Qed.

(** Every joined row of the student's answers is on a question of the quiz. *)
Lemma student_quiz_answers_in a q :
  In (a, q) (student_quiz_answers d student quiz) -> In q (quiz_questions d quiz).
Proof.
  unfold student_quiz_answers. intros Hin.
  apply in_flat_map in Hin as (sa & _ & Hin).
  destruct (sa_student sa =? student); [|contradiction].
  destruct (find_answer d (sa_answer sa)) as [a'|]; [|contradiction].
  destruct (find_question d (answer_question a')) as [q'|] eqn:Eq; [|contradiction].
  destruct (question_quiz q' =? quiz_id quiz) eqn:Equiz; [|contradiction].
  destruct Hin as [[= <- <-]|[]].
  apply find_some in Eq as [Hin _].
  apply filter_In. auto.
Qed.

(** With at most one answer per question the student has no more correct
    answers than the quiz has questions. *)
Lemma correct_answers_count_le :
  answered_once d student quiz ->
  0 <= correct_answers_count d student quiz <= Z.of_nat (length (quiz_questions d quiz)).
Proof.
  unfold answered_once, correct_answers_count. intros Hnd%NoDup_ListNoDup.
  split; [lia|]. apply Nat2Z.inj_le.
  etransitivity; [apply filter_length_le|].
  rewrite <- (length_map (fun aq => question_id (snd aq))).
  rewrite <- (length_map question_id (quiz_questions d quiz)).
  apply NoDup_incl_length; [exact Hnd|].
  intros i Hi. apply in_map_iff in Hi as ([a q] & <- & Hin).
  apply in_map. simpl. eapply student_quiz_answers_in; eauto.
Qed.

Lemma unanswered_le_total :
  (length (get_unanswered_questions d student quiz) <= length (quiz_questions d quiz))%nat.
Proof. apply filter_length_le. Qed.

(** The answer a valid form holds is an answer of the current question. *)
Lemma form_clean_Some form answer :
  form_clean d form = Some answer ->
  In answer (answers d) /\ answer_question answer = question_id (form_question form) /\
  form_data form = Some (Some (answer_id answer)).
Proof.
  unfold form_clean. destruct (form_data form) as [[pk|]|]; try discriminate.
  intros [Hin Hid]%find_some. apply filter_In in Hin as [Hin Hq].
  apply Z.eqb_eq in Hid, Hq. subst pk. auto.
Qed.

Variable question : Question.
Variable rest : list Question.
Variable answer : Answer.
Hypothesis Hok : store_ok d.
Hypothesis Hcur : get_unanswered_questions d student quiz = question :: rest.
Hypothesis Hans : In answer (answers d).
Hypothesis Hansq : answer_question answer = question_id question.

Let sa := {| sa_student := student; sa_answer := answer_id answer |}.

Lemma current_question_in : In question (questions d) /\ question_quiz question = quiz_id quiz.
Proof.
  assert (Hin : In question (get_unanswered_questions d student quiz))
    by (rewrite Hcur; left; reflexivity).
  apply filter_In in Hin as [Hin _]. apply filter_In in Hin as [Hin Hq].
  apply Z.eqb_eq in Hq. auto.
Qed.

Lemma current_question_unanswered :
  ~ In (question_id question) (answered_question_ids d student quiz).
Proof.
  assert (Hin : In question (get_unanswered_questions d student quiz))
    by (rewrite Hcur; left; reflexivity).
  apply filter_In in Hin as [_ Hneg]. apply negb_true_iff in Hneg.
  intros Hin. apply not_true_iff_false in Hneg. apply Hneg.
  apply existsb_exists. exists (question_id question). split; [exact Hin|apply Z.eqb_refl].
Qed.

(** Saving the answer adds one joined row: the answer with the current
    question. *)
Lemma student_quiz_answers_insert :
  student_quiz_answers (insert_student_answer sa d) student quiz =
  student_quiz_answers d student quiz ++ [(answer, question)].
Proof.
  destruct Hok as [Hq%NoDup_ListNoDup Ha%NoDup_ListNoDup].
  destruct current_question_in as [Hin Hquiz].
  unfold student_quiz_answers at 1. simpl student_answers.
  rewrite flat_map_app. f_equal. simpl.
  rewrite Z.eqb_refl.
  unfold find_answer, find_question. simpl answers. simpl questions.
  rewrite (find_unique answer_id (answers d) answer Ha Hans).
  rewrite Hansq.
  rewrite (find_unique question_id (questions d) question Hq Hin).
  rewrite Hquiz, Z.eqb_refl. reflexivity.
Qed.

Lemma answered_question_ids_insert :
  answered_question_ids (insert_student_answer sa d) student quiz =
  answered_question_ids d student quiz ++ [question_id question].
Proof.
  unfold answered_question_ids. rewrite student_quiz_answers_insert, map_app. reflexivity.
Qed.

(** The next unanswered questions are the ones that followed the current
    one. *)
Lemma get_unanswered_questions_insert :
  get_unanswered_questions (insert_student_answer sa d) student quiz = rest.
Proof.
  destruct Hok as [Hq%NoDup_ListNoDup _].
  assert (Hnd : List.NoDup (map question_id (question :: rest))).
  { rewrite <- Hcur. unfold get_unanswered_questions, quiz_questions.
    do 2 apply NoDup_map_filter. exact Hq. }
  unfold get_unanswered_questions at 1.
  rewrite answered_question_ids_insert, quiz_questions_insert_sa.
  transitivity (List.filter (fun q => negb (question_id q =? question_id question))
                  (get_unanswered_questions d student quiz)).
  - unfold get_unanswered_questions.
    induction (quiz_questions d quiz) as [|q l IH]; simpl; [reflexivity|].
    rewrite existsb_app. simpl. rewrite orb_false_r.
    destruct (existsb (Z.eqb (question_id q)) (answered_question_ids d student quiz));
      simpl; [exact IH|].
    destruct (question_id q =? question_id question); simpl; rewrite IH; reflexivity.
  - rewrite Hcur. simpl. rewrite Z.eqb_refl. simpl.
    simpl in Hnd. apply List.NoDup_cons_iff in Hnd as [Hnotin _].
    clear Hcur. induction rest as [|q l IH]; simpl; [reflexivity|].
    destruct (Z.eqb_spec (question_id q) (question_id question)) as [Heq|_]; simpl.
    + exfalso. apply Hnotin. left. exact Heq.
    + f_equal. apply IH. intros Hin. apply Hnotin. right. exact Hin.
Qed.

Lemma answered_once_insert :
  answered_once d student quiz ->
  answered_once (insert_student_answer sa d) student quiz.
Proof.
  unfold answered_once. rewrite answered_question_ids_insert.
  intros Hnd%NoDup_ListNoDup. apply NoDup_ListNoDup.
  apply List.NoDup_app; [exact Hnd|repeat constructor; simpl; tauto|].
  intros i Hi [<-|[]]. exact (current_question_unanswered Hi).
Qed.

End Store.

(** ** Computations on a healthy store *)

Section Healthy.

Context {A B : Type}.
Variable w : world.

Lemma bind_ret (a : A) (k : A -> M B) s : (x <- ret a ;; k x) s = k a s.
Proof. reflexivity. Qed.

Lemma bind_lift_Ok (a : A) (k : A -> M B) s : (x <- lift (Ok a) ;; k x) s = k a s.
Proof. reflexivity. Qed.

Lemma bind_lift_Raise e (k : A -> M B) s : (x <- lift (Raise e) ;; k x) s = (Raise e, s).
Proof. reflexivity. Qed.

Lemma bind_query (f : DB -> A) (k : A -> M B) :
  (x <- query f ;; k x) (w, None) = k (f (db w)) (w, None).
Proof. reflexivity. Qed.

Lemma bind_execute (f : DB -> DB) (k : unit -> M B) :
  (x <- execute f ;; k x) (w, None) = k tt (set_db (f (db w)) w, None).
Proof. reflexivity. Qed.

Lemma bind_session_get key default (k : Z -> M B) f :
  (x <- session_get key default ;; k x) (w, f) =
  k (match session w !! key with Some v => v | None => default end) (w, f).
Proof. reflexivity. Qed.

Lemma bind_session_setitem key value (k : unit -> M B) f :
  (x <- session_setitem key value ;; k x) (w, f) =
  k tt (set_session (<[key := value]> (session w)) w, f).
Proof. reflexivity. Qed.

Lemma bind_session_getitem key value (k : Z -> M B) f :
  session w !! key = Some value ->
  (x <- session_getitem key ;; k x) (w, f) = k value (w, f).
Proof. intros H. unfold bind, session_getitem. simpl. rewrite H. reflexivity. Qed.

Lemma bind_messages_warning text (k : unit -> M B) f :
  (x <- messages_warning text ;; k x) (w, f) =
  k tt (add_message {| msg_level := Warning; msg_text := text |} w, f).
Proof. reflexivity. Qed.

Lemma bind_messages_success text (k : unit -> M B) f :
  (x <- messages_success text ;; k x) (w, f) =
  k tt (add_message {| msg_level := Success; msg_text := text |} w, f).
Proof. reflexivity. Qed.

Lemma bind_assoc {C} (m : M A) (k : A -> M B) (h : B -> M C) s :
  (y <- (x <- m ;; k x) ;; h y) s = (x <- m ;; y <- k x ;; h y) s.
Proof. unfold bind. destruct (m s) as [[a|e] s']; reflexivity. Qed.

End Healthy.

Lemma atomic_healthy_Ok {A} (body : M A) s a w' :
  body s = (Ok a, (w', None)) -> atomic body s = (Ok a, (w', None)).
Proof. intros H. unfold atomic, bind. rewrite H. reflexivity. Qed.

Lemma atomic_Raise {A} (body : M A) s e s' :
  body s = (Raise e, s') -> atomic body s = (Raise e, (set_db (db (fst s)) (fst s'), snd s')).
Proof. intros H. unfold atomic, bind. rewrite H. reflexivity. Qed.

Lemma session_names_differ quiz : temp_score_name quiz <> next_exponent_name quiz.
Proof. unfold temp_score_name, next_exponent_name. discriminate. Qed.


(** What the atomic block computes on a healthy store. *)
Ltac wsimpl :=
  unfold set_db, set_session, add_message;
  cbn [db session messages fst snd sa_answer sa_student].

Lemma submit_healthy pk quiz student total question answer correct w :
  Answer_get_correct (db w) (question_id question) = Ok correct ->
  let is_correct := answer_id answer =? answer_id correct in
  let d1 := insert_student_answer
              {| sa_student := student; sa_answer := answer_id answer |} (db w) in
  let s1 := scored_session (session w) quiz is_correct in
  let m1 := scoring_message is_correct
              (fst (score_update is_correct (fst (session_state (session w) quiz))
                                            (snd (session_state (session w) quiz)))) in
  let w1 := {| db := d1; session := s1; messages := messages w ++ [m1] |} in
  submit pk quiz student total question answer (w, None) =
  match get_unanswered_questions d1 student quiz with
  | _ :: _ => (Ok (RedirectTakeQuiz pk), (w1, None))
  | [] =>
      match compute_score (correct_answers_count d1 student quiz) total with
      | Ok score =>
          (Ok RedirectQuizList,
           ({| db := insert_taken_quiz
                       {| tq_student := student; tq_quiz := quiz_id quiz; tq_score := score |} d1;
               session := s1;
               messages := messages w ++ [m1; closing_message quiz score] |}, None))
      | Raise e => (Raise e, (w1, None))
      end
  end.
Proof.
  intros Hcorrect. cbv zeta.
  pose proof (session_names_differ quiz) as Hne.
  assert (Hne' : next_exponent_name quiz <> temp_score_name quiz) by (intros E; auto).
  unfold submit.
  unfold Answer_objects_get. rewrite bind_execute, bind_assoc, bind_query.
  wsimpl. rewrite Answer_get_correct_insert_sa, Hcorrect, bind_lift_Ok.
  rewrite bind_session_get, bind_session_setitem, bind_session_get, bind_session_setitem.
  wsimpl.
  rewrite lookup_insert_ne by exact Hne.
  rewrite insert_insert_eq.
  destruct (answer_id answer =? answer_id correct).
  all: rewrite bind_assoc, bind_session_setitem, bind_assoc, bind_session_setitem, bind_assoc.
  all: wsimpl.
  all: rewrite insert_insert_eq.
  all: erewrite bind_session_getitem;
    [|wsimpl; rewrite lookup_insert_ne by exact Hne'; apply lookup_insert_eq].
  all: rewrite bind_messages_warning, bind_query, bind_query.
  all: wsimpl.
  all: destruct (get_unanswered_questions _ student quiz) as [|q l]; [|reflexivity].
  all: rewrite bind_query; wsimpl.
  all: destruct (compute_score _ total) as [score|e]; [|reflexivity].
  all: rewrite bind_lift_Ok, bind_execute; unfold closing_message.
  all: destruct (float_lt score (float_of_int 50));
    [rewrite bind_messages_warning|rewrite bind_messages_success].
  all: cbn [bind ret]; wsimpl.
  all: rewrite <- app_assoc; reflexivity.
Qed.

(** The view up to the computation of the progress, on a healthy store. *)
Lemma take_quiz_healthy request pk w quiz :
  Quiz_get (db w) pk = Some quiz ->
  student_quizzes_exists (db w) (req_student request) pk = false ->
  take_quiz request pk (w, None) =
  match compute_progress
          (Z.of_nat (length (get_unanswered_questions (db w) (req_student request) quiz)))
          (Z.of_nat (length (quiz_questions (db w) quiz))) with
  | Ok progress =>
      respond request pk quiz (req_student request)
        (Z.of_nat (length (quiz_questions (db w) quiz))) progress
        (head (get_unanswered_questions (db w) (req_student request) quiz)) (w, None)
  | Raise e => (Raise e, (w, None))
  end.
Proof.
  intros Hquiz Htaken. unfold take_quiz, get_object_or_404_Quiz.
  rewrite bind_assoc, bind_query, Hquiz, bind_ret, bind_query, Htaken.
  rewrite bind_query, bind_query.
  destruct (compute_progress _ _) as [p|e]; [|reflexivity].
  rewrite bind_lift_Ok, bind_query. reflexivity.
Qed.

Lemma take_quiz_healthy_taken request pk w quiz :
  Quiz_get (db w) pk = Some quiz ->
  student_quizzes_exists (db w) (req_student request) pk = true ->
  take_quiz request pk (w, None) = (Ok TakenQuizPage, (w, None)).
Proof.
  intros Hquiz Htaken. unfold take_quiz, get_object_or_404_Quiz.
  rewrite bind_assoc, bind_query, Hquiz, bind_ret, bind_query, Htaken. reflexivity.
Qed.

(** With a current question the progress is computed without an error. *)
Lemma compute_progress_current d student quiz question rest :
  get_unanswered_questions d student quiz = question :: rest ->
  exists progress,
    compute_progress (Z.of_nat (length (get_unanswered_questions d student quiz)))
                     (Z.of_nat (length (quiz_questions d quiz))) = Ok progress.
Proof.
  intros Hcur. apply compute_progress_total.
  pose proof (unanswered_le_total d student quiz) as Hle.
  rewrite Hcur in *. simpl length in *. lia.
Qed.

(** A valid answer to the current question, served on a healthy store. *)
Lemma serve_valid_post request pk w quiz question rest answer correct :
  Quiz_get (db w) pk = Some quiz ->
  student_quizzes_exists (db w) (req_student request) pk = false ->
  get_unanswered_questions (db w) (req_student request) quiz = question :: rest ->
  req_method request = "POST" ->
  form_clean (db w) (bound_form question request) = Some answer ->
  Answer_get_correct (db w) (question_id question) = Ok correct ->
  store_ok (db w) ->
  answered_once (db w) (req_student request) quiz ->
  let student := req_student request in
  let is_correct := answer_id answer =? answer_id correct in
  let d1 := insert_student_answer
              {| sa_student := student; sa_answer := answer_id answer |} (db w) in
  let s1 := scored_session (session w) quiz is_correct in
  let m1 := scoring_message is_correct
              (fst (score_update is_correct (fst (session_state (session w) quiz))
                                            (snd (session_state (session w) quiz)))) in
  get_unanswered_questions d1 student quiz = rest /\
  match rest with
  | _ :: _ =>
      serve None request pk w =
      (Ok (RedirectTakeQuiz pk),
       {| db := d1; session := s1; messages := messages w ++ [m1] |})
  | [] =>
      exists score,
        compute_score (correct_answers_count d1 student quiz)
                      (Z.of_nat (length (quiz_questions (db w) quiz))) = Ok score /\
        sf_bounded 13 score /\
        serve None request pk w =
        (Ok RedirectQuizList,
         {| db := insert_taken_quiz
                    {| tq_student := student; tq_quiz := quiz_id quiz; tq_score := score |} d1;
            session := s1;
            messages := messages w ++ [m1; closing_message quiz score] |})
  end.
Proof.
  intros Hquiz Htaken Hcur Hpost Hclean Hcorrect Hok Honce. cbv zeta.
  destruct (form_clean_Some _ _ _ Hclean) as (Hin & Hq & _). simpl in Hq.
  pose proof (get_unanswered_questions_insert _ _ _ _ _ _ Hok Hcur Hin Hq) as Hrest.
  split; [exact Hrest|].
  destruct (compute_progress_current _ _ _ _ _ Hcur) as [progress Hprogress].
  assert (Hrun : take_quiz request pk (w, None) =
                 atomic (submit pk quiz (req_student request)
                           (Z.of_nat (length (quiz_questions (db w) quiz))) question answer)
                   (w, None)).
  { rewrite (take_quiz_healthy _ _ _ _ Hquiz Htaken), Hprogress, Hcur.
    unfold respond. rewrite Hpost, String.eqb_refl.
    cbn [TakeQuizForm_init head]. rewrite bind_ret, bind_query.
    fold (bound_form question request). rewrite Hclean. reflexivity. }
  pose proof (submit_healthy pk quiz (req_student request)
                (Z.of_nat (length (quiz_questions (db w) quiz))) question answer correct w
                Hcorrect) as Hsubmit.
  cbv zeta in Hsubmit. rewrite Hrest in Hsubmit.
  destruct rest as [|q l].
  - pose proof (answered_once_insert _ _ _ _ _ _ Hok Hcur Hin Hq Honce) as Honce1.
    pose proof (correct_answers_count_le _ _ _ Honce1) as Hle.
    rewrite quiz_questions_insert_sa in Hle.
    assert (Ht : 0 < Z.of_nat (length (quiz_questions (db w) quiz))).
    { pose proof (unanswered_le_total (db w) (req_student request) quiz) as Hu.
      rewrite Hcur in Hu. simpl in Hu. lia. }
    destruct (compute_score_total _ _ Hle Ht) as (score & Hscore & Hb).
    exists score. split; [exact Hscore|]. split; [exact Hb|].
    rewrite Hscore in Hsubmit.
    unfold serve. rewrite Hrun, (atomic_healthy_Ok _ _ _ _ Hsubmit). reflexivity.
  - unfold serve. rewrite Hrun, (atomic_healthy_Ok _ _ _ _ Hsubmit). reflexivity.
Qed.

(** ** Computations under every fault plan *)

Section Wp.

Context {A B : Type}.
Variable Q : result B -> world -> Prop.
Variable w : world.

Lemma wp_ret (b : B) : Q (Ok b) w -> wp (ret b) Q w.
Proof. intros H faults. exact H. Qed.

Lemma wp_raise e : Q (Raise e) w -> wp (raise e) Q w.
Proof. intros H faults. exact H. Qed.


Lemma wp_bind (m : M A) (k : A -> M B) :
  wp m (fun r w1 => match r with
                    | Ok a => wp (k a) Q w1
                    | Raise e => Q (Raise e) w1
                    end) w ->
  wp (x <- m ;; k x) Q w.
Proof.
  intros H faults. specialize (H faults). unfold bind.
  destruct (m (w, faults)) as [[a|e] [w1 f1]]; simpl in *; [apply H|exact H].
Qed.

Lemma wp_bind_query (f : DB -> A) (k : A -> M B) :
  wp (k (f (db w))) Q w -> Q (Raise DatabaseError) w ->
  wp (x <- query f ;; k x) Q w.
Proof.
  intros Hk Hr faults. unfold bind, query, storage_step.
  destruct faults as [[|n]|]; simpl; [exact Hr|apply Hk|apply Hk].
Qed.

Lemma wp_bind_execute (f : DB -> DB) (k : unit -> M B) :
  wp (k tt) Q (set_db (f (db w)) w) -> Q (Raise DatabaseError) w ->
  wp (x <- execute f ;; k x) Q w.
Proof.
  intros Hk Hr faults. unfold bind, execute, storage_step.
  destruct faults as [[|n]|]; simpl; [exact Hr|apply Hk|apply Hk].
Qed.

Lemma wp_bind_lift (r : result A) (k : A -> M B) :
  match r with Ok a => wp (k a) Q w | Raise e => Q (Raise e) w end ->
  wp (x <- lift r ;; k x) Q w.
Proof. intros H faults. unfold bind, lift. destruct r; simpl; [apply H|exact H]. Qed.

Lemma wp_bind_session_get key default (k : Z -> M B) :
  wp (k (match session w !! key with Some v => v | None => default end)) Q w ->
  wp (x <- session_get key default ;; k x) Q w.
Proof. intros H faults. apply H. Qed.

Lemma wp_bind_session_setitem key value (k : unit -> M B) :
  wp (k tt) Q (set_session (<[key := value]> (session w)) w) ->
  wp (x <- session_setitem key value ;; k x) Q w.
Proof. intros H faults. apply H. Qed.

Lemma wp_bind_session_getitem key (k : Z -> M B) :
  match session w !! key with
  | Some v => wp (k v) Q w
  | None => Q (Raise KeyError) w
  end ->
  wp (x <- session_getitem key ;; k x) Q w.
Proof.
  intros H faults. unfold bind, session_getitem. simpl.
  destruct (session w !! key); [apply H|exact H].
Qed.

Lemma wp_bind_messages_warning text (k : unit -> M B) :
  wp (k tt) Q (add_message {| msg_level := Warning; msg_text := text |} w) ->
  wp (x <- messages_warning text ;; k x) Q w.
Proof. intros H faults. apply H. Qed.

Lemma wp_bind_messages_success text (k : unit -> M B) :
  wp (k tt) Q (add_message {| msg_level := Success; msg_text := text |} w) ->
  wp (x <- messages_success text ;; k x) Q w.
Proof. intros H faults. apply H. Qed.

(** The block either commits what its body did, or leaves the store as it
    found it. *)
Lemma wp_atomic (body : M B) :
  wp body (fun r w1 => match r with
                       | Ok b => Q (Ok b) w1 /\ Q (Raise DatabaseError) (set_db (db w) w1)
                       | Raise e => Q (Raise e) (set_db (db w) w1)
                       end) w ->
  wp (atomic body) Q w.
Proof.
  intros H faults. specialize (H faults). unfold atomic, bind.
  destruct (body (w, faults)) as [[b|e] [w1 f1]]; simpl in *; [|exact H].
  unfold storage_step. destruct f1 as [[|n]|]; simpl; tauto.
Qed.

End Wp.

Lemma wp_serve (Q : result HttpResponse -> world -> Prop) faults request pk w :
  wp (take_quiz request pk) Q w ->
  Q (fst (serve faults request pk w)) (snd (serve faults request pk w)).
Proof.
  intros H. specialize (H faults). unfold serve.
  destruct (take_quiz request pk (w, faults)) as [r [w' f']]. exact H.
Qed.

Lemma Quiz_get_id d pk quiz : Quiz_get d pk = Some quiz -> quiz_id quiz = pk.
Proof. intros [_ H]%find_some. apply Z.eqb_eq. exact H. Qed.

(** ** What a request can do, whatever the store's faults *)

Ltac wp_step :=
  first
    [ apply wp_bind_query; [|try solve [simpl; auto]]
    | apply wp_bind_execute; [|try solve [simpl; auto]]
    | apply wp_bind_session_get
    | apply wp_bind_session_setitem
    | apply wp_bind_messages_warning
    | apply wp_bind_messages_success
    | apply wp_ret
    | apply wp_raise ].

(** The scoring and closing part of the atomic block, after the answer is
    saved and the correct answer found: the store only gains the taken quiz,
    and only when the block is left through the quiz list. *)
Lemma wp_submit_tail (Q : result HttpResponse -> world -> Prop) pk quiz student total
    (scoring : M unit) w0 :
  (forall w1, db w1 = db w0 -> wp (scoring ;; ret tt) (fun r w2 => db w2 = db w0) w1) ->
  (forall e w1, db w1 = db w0 -> Q (Raise e) w1) ->
  (forall w1, db w1 = db w0 ->
              get_unanswered_questions (db w0) student quiz <> [] ->
              Q (Ok (RedirectTakeQuiz pk)) w1) ->
  (forall score w1,
      get_unanswered_questions (db w0) student quiz = [] ->
      db w1 = insert_taken_quiz
                {| tq_student := student; tq_quiz := quiz_id quiz; tq_score := score |} (db w0) ->
      Q (Ok RedirectQuizList) w1) ->
  wp (scoring ;;
      number_correct <- query (fun d => correct_answers_count d student quiz) ;;
      more <- query (fun d => match get_unanswered_questions d student quiz with
                              | [] => false
                              | _ :: _ => true
                              end) ;;
      if more : bool then ret (RedirectTakeQuiz pk)
      else
        correct_answers <- query (fun d => correct_answers_count d student quiz) ;;
        score <- lift (compute_score correct_answers total) ;;
        execute (insert_taken_quiz
                   {| tq_student := student; tq_quiz := quiz_id quiz; tq_score := score |}) ;;
        (if float_lt score (float_of_int 50) then
           messages_warning (BetterLuckNextTime (quiz_name quiz) score)
         else
           messages_success (Congratulations (quiz_name quiz) score)) ;;
        ret RedirectQuizList) Q w0.
Proof.
  intros Hscoring Hraise Hcontinue Hcomplete.
  apply wp_bind. intros faults. specialize (Hscoring w0 eq_refl faults).
  unfold bind in Hscoring. unfold ret in Hscoring.
  destruct (scoring (w0, faults)) as [[[]|e] [w1 f1]]; cbn [fst snd] in *; [|auto].
  clear faults f1.
  apply wp_bind_query; [|auto]. apply wp_bind_query; [|auto].
  rewrite Hscoring.
  destruct (get_unanswered_questions (db w0) student quiz) eqn:Hmore;
    [|apply wp_ret; apply Hcontinue; [exact Hscoring|discriminate]].
  apply wp_bind_query; [|auto]. apply wp_bind_lift.
  destruct (compute_score _ total) as [score|e]; [|auto].
  apply wp_bind_execute; [|auto].
  assert (Hdb : db (set_db (insert_taken_quiz
                    {| tq_student := student; tq_quiz := quiz_id quiz; tq_score := score |}
                    (db w1)) w1) =
                insert_taken_quiz
                    {| tq_student := student; tq_quiz := quiz_id quiz; tq_score := score |}
                    (db w0)) by (simpl; rewrite Hscoring; reflexivity).
  destruct (float_lt score (float_of_int 50));
    [apply wp_bind_messages_warning|apply wp_bind_messages_success];
    apply wp_ret; apply (Hcomplete score); auto.
Qed.

Lemma wp_lift {A} (Q : result A -> world -> Prop) (r : result A) w :
  Q r w -> wp (lift r) Q w.
Proof. intros H faults. exact H. Qed.

Lemma wp_messages_warning (Q : result unit -> world -> Prop) text w :
  Q (Ok tt) (add_message {| msg_level := Warning; msg_text := text |} w) ->
  wp (messages_warning text) Q w.
Proof. intros H faults. exact H. Qed.

(** The scoring branch writes to the session and the messages only. *)
Lemma wp_scoring (c : bool) quiz temp_score next_exponent d w :
  db w = d ->
  wp ((if c then
         session_setitem (temp_score_name quiz) (temp_score + py_pow2 next_exponent) ;;
         session_setitem (next_exponent_name quiz) (next_exponent + 1) ;;
         shown <- session_getitem (temp_score_name quiz) ;;
         messages_warning (CorrectScoreIs shown)
       else
         session_setitem (temp_score_name quiz) (temp_score - 2) ;;
         session_setitem (next_exponent_name quiz) 1 ;;
         shown <- session_getitem (temp_score_name quiz) ;;
         messages_warning (WrongScoreIs shown)) ;;
      ret tt) (fun r w' => db w' = d) w.
Proof.
  intros Hd. pose proof (session_names_differ quiz) as Hne.
  assert (Hne' : next_exponent_name quiz <> temp_score_name quiz) by (intros E; auto).
  apply wp_bind.
  destruct c; apply wp_bind_session_setitem, wp_bind_session_setitem, wp_bind_session_getitem.
  all: wsimpl; rewrite lookup_insert_ne by exact Hne'; rewrite lookup_insert_eq.
  all: apply wp_messages_warning, wp_ret; exact Hd.
Qed.

(** Every request either leaves the world as it was, or is a valid
    submission; and the store changes by whole submissions only. *)
Lemma take_quiz_outcome request pk w :
  wp (take_quiz request pk)
     (fun r w' => store_outcome (db w) (req_student request) pk r (db w') /\
                  (w' = w \/ valid_submission request pk w)) w.
Proof.
  unfold take_quiz, get_object_or_404_Quiz.
  apply wp_bind. apply wp_bind_query; [|simpl; auto].
  destruct (Quiz_get (db w) pk) as [quiz|] eqn:Hquiz;
    [apply wp_ret|apply wp_raise; simpl; auto].
  apply wp_bind_query; [|simpl; auto].
  destruct (student_quizzes_exists (db w) (req_student request) pk) eqn:Htaken;
    [apply wp_ret; simpl; auto|].
  apply wp_bind_query; [|simpl; auto]. apply wp_bind_query; [|simpl; auto].
  apply wp_bind_lift. destruct (compute_progress _ _) as [progress|e]; [|simpl; auto].
  apply wp_bind_query; [|simpl; auto].
  unfold respond.
  destruct (String.eqb (req_method request) "POST") eqn:Hmethod.
  2:{ destruct (head _) as [question|]; cbn [TakeQuizForm_init];
        [apply wp_bind|]; wp_step; simpl; auto. apply wp_ret. simpl. auto. }
  apply String.eqb_eq in Hmethod.
  destruct (head (get_unanswered_questions (db w) (req_student request) quiz))
    as [question|] eqn:Hhead; cbn [TakeQuizForm_init].
  2:{ apply wp_bind. apply wp_raise. simpl. auto. }
  apply wp_bind. apply wp_ret. apply wp_bind_query; [|simpl; auto].
  fold (bound_form question request).
  destruct (form_clean (db w) (bound_form question request)) as [answer|] eqn:Hclean;
    [|apply wp_ret; simpl; auto].
  assert (Hvalid : valid_submission request pk w).
  { split; [exact Hmethod|]. split; [exact Htaken|]. exists quiz, question, answer. auto. }
  pose proof (Quiz_get_id _ _ _ Hquiz) as Hid.
  apply wp_atomic. unfold submit, Answer_objects_get.
  apply wp_bind_execute; [|simpl; auto].
  apply wp_bind. apply wp_bind_query; [|simpl; auto].
  apply wp_lift. wsimpl.
  destruct (Answer_get_correct _ _) as [correct|e]; [|simpl; auto].
  apply wp_bind_session_get, wp_bind_session_setitem.
  apply wp_bind_session_get, wp_bind_session_setitem.
  apply wp_submit_tail.
  - intros w1 Hw1. apply wp_scoring. exact Hw1.
  - intros e w1 Hw1. simpl. auto.
  - intros w1 Hw1 _. simpl in *. split; [|auto].
    split; [|auto]. exists (answer_id answer). exact Hw1.
  - intros score w1 _ Hw1. simpl in *. split; [|auto].
    split; [|auto]. exists (answer_id answer), score. rewrite <- Hid.
    rewrite Hid at 2. auto.
Qed.

(** ** Submissions *)

Lemma session_state_scored s quiz is_correct :
  session_state (scored_session s quiz is_correct) quiz =
  score_update is_correct (fst (session_state s quiz)) (snd (session_state s quiz)).
Proof.
  pose proof (session_names_differ quiz) as Hne.
  unfold scored_session. destruct (session_state s quiz) as [ts ne]. cbn [fst snd].
  destruct (score_update is_correct ts ne) as [ts' ne'].
  unfold session_state.
  rewrite lookup_insert_ne by (intros E; apply Hne; symmetry; exact E).
  rewrite !lookup_insert_eq. reflexivity.
Qed.

(** What a processed submission leaves behind. *)
Lemma serve_submission request pk w quiz question rest answer correct :
  submission request pk w quiz question rest answer correct ->
  let is_correct := answer_id answer =? answer_id correct in
  let w' := snd (serve None request pk w) in
  (exists response, fst (serve None request pk w) = Ok response) /\
  session w' = scored_session (session w) quiz is_correct /\
  student_answers (db w') =
    student_answers (db w) ++
      [{| sa_student := req_student request; sa_answer := answer_id answer |}] /\
  get_unanswered_questions (db w') (req_student request) quiz = rest.
Proof.
  intros [Hquiz Htaken Hcur Hpost Hvalid Hcorrect Hstore Honce]. cbv zeta.
  destruct (serve_valid_post _ _ _ _ _ _ _ _ Hquiz Htaken Hcur Hpost Hvalid Hcorrect
              Hstore Honce) as [Hrest Hserve].
  cbv zeta in Hserve, Hrest. destruct rest as [|q l].
  - destruct Hserve as (score & _ & _ & ->). cbn [fst snd db session student_answers].
    split; [eauto|]. split; [reflexivity|]. split; [reflexivity|exact Hrest].
  - rewrite Hserve. cbn [fst snd db session student_answers].
    split; [eauto|]. split; [reflexivity|]. split; [reflexivity|exact Hrest].
Qed.

Lemma Answer_get_correct_Ok d qid a :
  Answer_get_correct d qid = Ok a ->
  In a (answers d) /\ answer_question a = qid /\ answer_is_correct a = true.
Proof.
  unfold Answer_get_correct. intros H.
  assert (Hin : In a (List.filter (fun a => (answer_question a =? qid) && answer_is_correct a)
                        (answers d))).
  { destruct (List.filter _ (answers d)) as [|b [|c l]]; try discriminate.
    injection H as ->. left. reflexivity. }
  apply filter_In in Hin as [Hin Hb]. apply andb_true_iff in Hb as [Hq Hc].
  apply Z.eqb_eq in Hq. auto.
Qed.

Lemma session_state_fresh s quiz : fresh_session s quiz -> session_state s quiz = (0, 1).
Proof. intros [H1 H2]. unfold session_state. rewrite H1, H2. reflexivity. Qed.

Ltac decide_by_computation :=
  match goal with |- ?P => apply (@bool_decide_unpack P _) end; vm_compute; exact I.

Lemma submission_set_session s request pk w quiz question rest answer correct :
  submission request pk w quiz question rest answer correct ->
  submission request pk (set_session s w) quiz question rest answer correct.
Proof. intros []. constructor; assumption. Qed.

(** The last submission of a quiz, on a healthy store. *)
Lemma serve_last_submission request pk w quiz question answer correct :
  submission request pk w quiz question [] answer correct ->
  let student := req_student request in
  let d1 := insert_student_answer
              {| sa_student := student; sa_answer := answer_id answer |} (db w) in
  let total := Z.of_nat (length (quiz_questions (db w) quiz)) in
  exists score scoring,
    compute_score (correct_answers_count d1 student quiz) total = Ok score /\
    is_nan score = false /\
    0 < total /\
    serve None request pk w =
    (Ok RedirectQuizList,
     {| db := insert_taken_quiz
                {| tq_student := student; tq_quiz := quiz_id quiz; tq_score := score |} d1;
        session := scored_session (session w) quiz (answer_id answer =? answer_id correct);
        messages := messages w ++ [scoring; closing_message quiz score] |}).
Proof.
  intros [Hquiz Htaken Hcur Hpost Hvalid Hcorrect Hstore Honce]. cbv zeta.
  destruct (serve_valid_post _ _ _ _ _ _ _ _ Hquiz Htaken Hcur Hpost Hvalid Hcorrect
              Hstore Honce) as [_ (score & Hscore & Hb & Hserve)].
  eexists score, _. split; [exact Hscore|]. split; [|split; [|exact Hserve]].
  - destruct score; try contradiction; reflexivity.
  - pose proof (unanswered_le_total (db w) (req_student request) quiz) as Hu.
    rewrite Hcur in Hu. simpl in Hu. lia.
Qed.

Lemma float_lt_50 score :
  is_nan score = false ->
  float_lt score (float_of_int 50) = negb (float_le (float_of_int 50) score).
Proof.
  intros Hnan. unfold float_lt, float_le.
  pose proof (SFltb_false_SFleb score (float_of_int 50) Hnan eq_refl) as H.
  destruct (SFltb score (float_of_int 50)), (SFleb (float_of_int 50) score);
    try reflexivity.
  - destruct H as [_ H]. discriminate (H eq_refl).
  - destruct H as [H _]. discriminate (H eq_refl).
Qed.

(** ** Requests under every fault plan *)

Lemma serve_outcome faults request pk w :
  store_outcome (db w) (req_student request) pk (fst (serve faults request pk w))
                (db (snd (serve faults request pk w))) /\
  (snd (serve faults request pk w) = w \/ valid_submission request pk w).
Proof. apply (wp_serve _ faults request pk w (take_quiz_outcome request pk w)). Qed.

(** A processed submission either fails and leaves the store as it was, or
    writes the student's answer, together with the taken quiz when it was
    the last question. *)
Lemma take_quiz_submission request pk w quiz question rest answer correct :
  submission request pk w quiz question rest answer correct ->
  let d1 := insert_student_answer
              {| sa_student := req_student request; sa_answer := answer_id answer |} (db w) in
  wp (take_quiz request pk)
     (fun r w' =>
        match r with
        | Raise _ => db w' = db w
        | Ok response =>
            match rest with
            | [] => response = RedirectQuizList /\
                    exists score,
                      db w' = insert_taken_quiz
                                {| tq_student := req_student request; tq_quiz := pk;
                                   tq_score := score |} d1
            | _ :: _ => response = RedirectTakeQuiz pk /\ db w' = d1
            end
        end) w.
Proof.
  intros [Hquiz Htaken Hcur Hpost Hvalid Hcorrect Hstore Honce]. cbv zeta.
  destruct (form_clean_Some _ _ _ Hvalid) as (Hin & Hq & _). cbn [form_question bound_form] in Hq.
  pose proof (get_unanswered_questions_insert _ _ _ _ _ _ Hstore Hcur Hin Hq) as Hrest.
  pose proof (Quiz_get_id _ _ _ Hquiz) as Hid.
  unfold take_quiz, get_object_or_404_Quiz.
  apply wp_bind. apply wp_bind_query; [|reflexivity]. rewrite Hquiz. apply wp_ret.
  apply wp_bind_query; [|reflexivity]. rewrite Htaken.
  apply wp_bind_query; [|reflexivity]. apply wp_bind_query; [|reflexivity].
  apply wp_bind_lift. destruct (compute_progress _ _) as [progress|e]; [|reflexivity].
  apply wp_bind_query; [|reflexivity]. rewrite Hcur.
  unfold respond. rewrite Hpost, String.eqb_refl. cbn [head TakeQuizForm_init].
  apply wp_bind. apply wp_ret. apply wp_bind_query; [|reflexivity].
  fold (bound_form question request). rewrite Hvalid.
  unfold bound_form. cbn [form_question].
  apply wp_atomic. unfold submit, Answer_objects_get.
  apply wp_bind_execute; [|reflexivity].
  apply wp_bind. apply wp_bind_query; [|reflexivity].
  apply wp_lift. wsimpl. rewrite Answer_get_correct_insert_sa, Hcorrect.
  apply wp_bind_session_get, wp_bind_session_setitem.
  apply wp_bind_session_get, wp_bind_session_setitem.
  apply wp_submit_tail; wsimpl.
  - intros w1 Hw1. apply wp_scoring. exact Hw1.
  - intros e w1 Hw1. reflexivity.
  - intros w1 Hw1 Hmore.
    destruct rest as [|q l]; [exfalso; apply Hmore; exact Hrest|]. simpl. auto.
  - intros score w1 Hnone Hw1. destruct rest as [|q l]; [|congruence].
    simpl. split; [|reflexivity]. split; [reflexivity|].
    exists score. rewrite <- Hid. exact Hw1.
Qed.

Lemma taken_rows_nil d student pk :
  student_quizzes_exists d student pk = false -> taken_rows d student pk = [].
Proof.
  unfold student_quizzes_exists, taken_rows.
  induction (taken_quizzes d) as [|t l IH]; [reflexivity|].
  cbn [existsb List.filter]. intros [-> Hl]%orb_false_iff. auto.
Qed.

Lemma form_clean_None d question request :
  (forall a, In a (question_answers d question) -> req_POST request <> Some (answer_id a)) ->
  form_clean d (bound_form question request) = None.
Proof.
  intros Hforeign. unfold form_clean, bound_form. cbn [form_data form_question].
  destruct (req_POST request) as [posted|] eqn:Hposted; [|reflexivity].
  destruct (find _ _) as [a|] eqn:Hfind; [|reflexivity].
  apply find_some in Hfind as [Hin Hid%Z.eqb_eq].
  exfalso. apply (Hforeign a Hin). rewrite Hid. reflexivity.
Qed.

(** The form page of a request that submits nothing valid, on a healthy
    store. *)
Lemma serve_form_page request pk w quiz question rest :
  Quiz_get (db w) pk = Some quiz ->
  student_quizzes_exists (db w) (req_student request) pk = false ->
  get_unanswered_questions (db w) (req_student request) quiz = question :: rest ->
  req_method request <> "POST" \/ form_clean (db w) (bound_form question request) = None ->
  exists progress,
    compute_progress
      (Z.of_nat (length (get_unanswered_questions (db w) (req_student request) quiz)))
      (Z.of_nat (length (quiz_questions (db w) quiz))) = Ok progress /\
    serve None request pk w =
    (Ok (TakeQuizFormPage quiz question
           (if String.eqb (req_method request) "POST" then bound_form question request
            else unbound_form question) progress), w).
Proof.
  intros Hquiz Htaken Hcur Hshow.
  destruct (compute_progress_current _ _ _ _ _ Hcur) as [progress Hprogress].
  exists progress. split; [exact Hprogress|].
  unfold serve. rewrite (take_quiz_healthy _ _ _ _ Hquiz Htaken), Hprogress, Hcur.
  unfold respond. cbn [head TakeQuizForm_init].
  destruct (String.eqb_spec (req_method request) "POST") as [Hpost|Hget].
  - destruct Hshow as [Hne|Hinvalid]; [contradiction|].
    rewrite bind_ret, bind_query. fold (bound_form question request).
    rewrite Hinvalid. reflexivity.
  - reflexivity.
Qed.

(** A fault after the student's answer is saved undoes the saving; a fault
    at the creation of the taken quiz undoes both writes. *)
Example fault_after_save :
  serve (Some 7%nat) (Scenario.post 11) 1 (Scenario.fresh 1) =
  (Raise DatabaseError, Scenario.fresh 1).
Proof. vm_compute. reflexivity. Qed.

Example fault_at_taken_quiz :
  fst (serve (Some 11%nat) (Scenario.post 11) 1 (Scenario.fresh 1)) = Raise DatabaseError /\
  db (snd (serve (Some 11%nat) (Scenario.post 11) 1 (Scenario.fresh 1))) =
  db (Scenario.fresh 1).
Proof. vm_compute. split; reflexivity. Qed.

(** A question without an answer marked correct makes the lookup fail after
    the student's answer is saved: the saving is undone. *)
Example missing_correct_answer :
  let w := {| db := {| quizzes := [Scenario.quiz1];
                       questions := [{| question_id := 1; question_quiz := 1 |}];
                       answers := [{| answer_id := 12; answer_question := 1;
                                      answer_is_correct := false |}];
                       student_answers := []; taken_quizzes := []; interests := [] |};
              session := ∅; messages := [] |} in
  serve None (Scenario.post 12) 1 w = (Raise DoesNotExist, w).
Proof. vm_compute. reflexivity. Qed.

Lemma respond_ignores_progress request pk quiz student total question progress progress' state :
  snd (respond request pk quiz student total progress question state) =
  snd (respond request pk quiz student total progress' question state) /\
  forget_progress (fst (respond request pk quiz student total progress question state)) =
  forget_progress (fst (respond request pk quiz student total progress' question state)).
Proof.
  unfold respond.
  destruct (String.eqb (req_method request) "POST"), question as [q|];
    cbn [TakeQuizForm_init]; try (split; reflexivity).
  rewrite !bind_ret. unfold bind, query, storage_step, bind.
  destruct state as [w [[|n]|]]; cbn [fst snd]; try (split; reflexivity).
  all: destruct (form_clean (db w) _); split; reflexivity.
Qed.

(** After one of three questions is answered the indicator shows 67. *)
Example progress_one_of_three :
  exists quiz question form,
    fst (serve None Scenario.get 1 (play 1 [Scenario.post 11] (Scenario.fresh 3))) =
    Ok (TakeQuizFormPage quiz question form 67).
Proof. do 3 eexists. vm_compute. reflexivity. Qed.

(** ** A quiz without questions *)

Lemma int_true_div_nonzero a b e :
  b <> 0 -> int_true_div a b = Raise e -> e <> ZeroDivisionError.
Proof.
  intros Hb. unfold int_true_div. destruct (Z.eqb_spec b 0); [contradiction|].
  destruct (SFdiv prec emax (Z2SF a) (Z2SF b)); intros [= <-]; discriminate.
Qed.

Lemma compute_progress_nonzero u t e :
  t <> 0 -> compute_progress u t = Raise e -> e <> ZeroDivisionError.
Proof.
  intros Ht. unfold compute_progress.
  destruct (int_true_div (u - 1) t) as [x|e'] eqn:Hdiv.
  - unfold py_round. destruct (float_mul x (float_of_int 100)); intros [= <-]; discriminate.
  - intros [= <-]. exact (int_true_div_nonzero _ _ _ Ht Hdiv).
Qed.

Lemma compute_score_nonzero c t e :
  t <> 0 -> compute_score c t = Raise e -> e <> ZeroDivisionError.
Proof.
  intros Ht. unfold compute_score.
  destruct (int_true_div c t) as [x|e'] eqn:Hdiv.
  - unfold py_round_ndigits. destruct (float_mul x (float_of_int 100)); try discriminate.
    destruct (323 <? 2)%N; [discriminate|].
    match goal with |- context [match ?k with Z0 => _ | Zpos _ => _ | Zneg _ => _ end] =>
      destruct k end; try discriminate.
    destruct (SFdiv _ _ _ _); intros [= <-]; discriminate.
  - intros [= <-]. exact (int_true_div_nonzero _ _ _ Ht Hdiv).
Qed.

Lemma Answer_get_correct_nonzero d qid e :
  Answer_get_correct d qid = Raise e -> e <> ZeroDivisionError.
Proof.
  unfold Answer_get_correct.
  destruct (List.filter _ (answers d)) as [|a [|b l]]; intros [= <-]; discriminate.
Qed.

(** With at least one question no request divides by zero, under any fault
    plan of the store. *)
Lemma take_quiz_no_zero_division request pk w :
  (forall quiz, Quiz_get (db w) pk = Some quiz -> quiz_questions (db w) quiz <> []) ->
  wp (take_quiz request pk) (fun r _ => r <> Raise ZeroDivisionError) w.
Proof.
  intros Hquestions.
  unfold take_quiz, get_object_or_404_Quiz.
  apply wp_bind. apply wp_bind_query; [|discriminate].
  destruct (Quiz_get (db w) pk) as [quiz|] eqn:Hquiz;
    [apply wp_ret|apply wp_raise; discriminate].
  specialize (Hquestions quiz eq_refl).
  assert (Htotal : Z.of_nat (length (quiz_questions (db w) quiz)) <> 0)
    by (destruct (quiz_questions (db w) quiz); [contradiction|simpl; lia]).
  apply wp_bind_query; [|discriminate].
  destruct (student_quizzes_exists (db w) (req_student request) pk);
    [apply wp_ret; discriminate|].
  apply wp_bind_query; [|discriminate]. apply wp_bind_query; [|discriminate].
  apply wp_bind_lift.
  destruct (compute_progress _ _) as [progress|e] eqn:Hprogress;
    [|intros [= ->]; exact (compute_progress_nonzero _ _ _ Htotal Hprogress eq_refl)].
  apply wp_bind_query; [|discriminate].
  unfold respond.
  destruct (String.eqb (req_method request) "POST"),
           (head (get_unanswered_questions (db w) (req_student request) quiz))
    as [question|]; cbn [TakeQuizForm_init].
  2,4: apply wp_bind, wp_raise; discriminate.
  2: apply wp_bind, wp_ret, wp_ret; discriminate.
  apply wp_bind, wp_ret. apply wp_bind_query; [|discriminate].
  destruct (form_clean (db w) _) as [answer|]; [|apply wp_ret; discriminate].
  apply wp_atomic. unfold submit, Answer_objects_get. cbn [form_question].
  apply wp_bind_execute; [|discriminate].
  apply wp_bind. apply wp_bind_query; [|discriminate]. apply wp_lift.
  destruct (Answer_get_correct _ _) as [correct|e] eqn:Hcorrect;
    [|intros [= ->]; exact (Answer_get_correct_nonzero _ _ _ Hcorrect eq_refl)].
  apply wp_bind_session_get, wp_bind_session_setitem.
  apply wp_bind_session_get, wp_bind_session_setitem.
  apply wp_bind.
  assert (Htail : forall w1 : world,
    wp (number_correct <- query (fun d => correct_answers_count d (req_student request) quiz) ;;
        more <- query (fun d => match get_unanswered_questions d (req_student request) quiz with
                                | [] => false
                                | _ :: _ => true
                                end) ;;
        if more : bool then ret (RedirectTakeQuiz pk)
        else
          correct_answers <-
            query (fun d => correct_answers_count d (req_student request) quiz) ;;
          score <- lift (compute_score correct_answers
                           (Z.of_nat (length (quiz_questions (db w) quiz)))) ;;
          execute (insert_taken_quiz
                     {| tq_student := req_student request; tq_quiz := quiz_id quiz;
                        tq_score := score |}) ;;
          (if float_lt score (float_of_int 50) then
             messages_warning (BetterLuckNextTime (quiz_name quiz) score)
           else
             messages_success (Congratulations (quiz_name quiz) score)) ;;
          ret RedirectQuizList)
       (fun r w2 =>
          match r with
          | Ok b => Ok b <> Raise ZeroDivisionError /\
                    @Raise HttpResponse DatabaseError <> Raise ZeroDivisionError
          | Raise e => @Raise HttpResponse e <> Raise ZeroDivisionError
          end) w1).
  { intros w1. apply wp_bind_query; [|discriminate]. apply wp_bind_query; [|discriminate].
    destruct (get_unanswered_questions (db w1) (req_student request) quiz);
      [|apply wp_ret; split; discriminate].
    apply wp_bind_query; [|discriminate]. apply wp_bind_lift.
    destruct (compute_score _ _) as [score|e] eqn:Hscore;
      [|intros [= ->]; exact (compute_score_nonzero _ _ _ Htotal Hscore eq_refl)].
    apply wp_bind_execute; [|discriminate].
    destruct (float_lt score (float_of_int 50));
      [apply wp_bind_messages_warning|apply wp_bind_messages_success];
      apply wp_ret; split; discriminate. }
  destruct (_ =? answer_id correct);
    apply wp_bind_session_setitem, wp_bind_session_setitem, wp_bind_session_getitem.
  all: match goal with |- match ?x with Some _ => _ | None => _ end => destruct x end;
    [apply wp_messages_warning, Htail|discriminate].
Qed.

(** ** The scoring alone *)

(** The session is scored as soon as the posted answer is valid and the
    question has its one answer marked correct: the invariants of the store
    that a processed submission assumes are not needed for it, and a failure
    later in the block does not undo it. *)
Lemma scoring_needs_no_invariant request pk w quiz question rest answer correct :
  Quiz_get (db w) pk = Some quiz ->
  student_quizzes_exists (db w) (req_student request) pk = false ->
  get_unanswered_questions (db w) (req_student request) quiz = question :: rest ->
  req_method request = "POST" ->
  form_clean (db w) (bound_form question request) = Some answer ->
  Answer_get_correct (db w) (question_id question) = Ok correct ->
  session (snd (serve None request pk w)) =
  scored_session (session w) quiz (answer_id answer =? answer_id correct).
Proof.
  intros Hquiz Htaken Hcur Hpost Hclean Hcorrect.
  destruct (compute_progress_current _ _ _ _ _ Hcur) as [progress Hprogress].
  unfold serve.
  rewrite (take_quiz_healthy _ _ _ _ Hquiz Htaken), Hprogress, Hcur.
  unfold respond. rewrite Hpost, String.eqb_refl.
  cbn [TakeQuizForm_init head]. rewrite bind_ret, bind_query.
  fold (bound_form question request). rewrite Hclean.
  pose proof (submit_healthy pk quiz (req_student request)
                (Z.of_nat (length (quiz_questions (db w) quiz))) question answer correct w
                Hcorrect) as Hsubmit.
  cbv zeta in Hsubmit. cbn [form_question bound_form].
  destruct (get_unanswered_questions (insert_student_answer _ _) _ quiz) as [|q l];
    [destruct (compute_score _ _) as [score|e]|].
  - rewrite (atomic_healthy_Ok _ _ _ _ Hsubmit). reflexivity.
  - rewrite (atomic_Raise _ _ _ _ Hsubmit). reflexivity.
  - rewrite (atomic_healthy_Ok _ _ _ _ Hsubmit). reflexivity.
Qed.

(** ** The streak exponent stays in the integers' range of [2 ** e] *)

(** The exponent the view reads is at least 1 when the session is fresh, and
    stays so after every processed submission: [2 ** next_exponent] is always
    taken at a positive exponent. *)
Lemma next_exponent_positive request pk w quiz question rest answer correct :
  submission request pk w quiz question rest answer correct ->
  1 <= snd (session_state (session w) quiz) ->
  1 <= snd (session_state (session (snd (serve None request pk w))) quiz).
Proof.
  intros Hsub Hpos.
  destruct (serve_submission _ _ _ _ _ _ _ _ Hsub) as (_ & Hs & _).
  cbv zeta in Hs. rewrite Hs, session_state_scored.
  unfold score_update. destruct (answer_id answer =? answer_id correct); cbn [snd]; lia.
Qed.

Lemma next_exponent_fresh s quiz : fresh_session s quiz -> snd (session_state s quiz) = 1.
Proof. intros H. rewrite (session_state_fresh _ _ H). reflexivity. Qed.

(** ** The scenarios of the specification *)

(** Two questions, both answered correctly: running scores 2 and 6, final
    score 100.0. *)
Example scenario_A :
  map (fun requests => Scenario.running_score (play 1 requests (Scenario.fresh 2)))
      [[Scenario.post 11]; [Scenario.post 11; Scenario.post 21]] = [Some 2; Some 6] /\
  Scenario.final_scores (play 1 [Scenario.post 11; Scenario.post 21] (Scenario.fresh 2)) =
  [float_of_int 100].
Proof. vm_compute. split; reflexivity. Qed.

(** Two questions, the first answered correctly and the second not: running
    scores 2 and 0, final score 50.0, closed by the success message. *)
Example scenario_B :
  map (fun requests => Scenario.running_score (play 1 requests (Scenario.fresh 2)))
      [[Scenario.post 11]; [Scenario.post 11; Scenario.post 22]] = [Some 2; Some 0] /\
  Scenario.final_scores (play 1 [Scenario.post 11; Scenario.post 22] (Scenario.fresh 2)) =
  [float_of_int 50] /\
  map msg_level (messages (play 1 [Scenario.post 11; Scenario.post 22] (Scenario.fresh 2))) =
  [Warning; Warning; Success].
Proof. vm_compute. repeat split; reflexivity. Qed.

(** Four questions answered correct, incorrect, correct, correct: running
    scores 2, 0, 2, 6 and final score 75.0. *)
Example scenario_C :
  map (fun requests => Scenario.running_score (play 1 requests (Scenario.fresh 4)))
      [[Scenario.post 11];
       [Scenario.post 11; Scenario.post 22];
       [Scenario.post 11; Scenario.post 22; Scenario.post 31];
       [Scenario.post 11; Scenario.post 22; Scenario.post 31; Scenario.post 41]] =
  [Some 2; Some 0; Some 2; Some 6] /\
  Scenario.final_scores
    (play 1 [Scenario.post 11; Scenario.post 22; Scenario.post 31; Scenario.post 41]
       (Scenario.fresh 4)) = [float_of_int 75].
Proof. vm_compute. split; reflexivity. Qed.

(** An answer of another question is rejected and nothing changes. *)
Example scenario_D :
  snd (serve None (Scenario.post 21) 1 (Scenario.fresh 2)) = Scenario.fresh 2.
Proof. vm_compute. reflexivity. Qed.

(** One correct answer in three is scored 33.33: the float nearest to it. *)
Example one_of_three :
  compute_score 1 3 = Ok (S754_finite false 4690780486883082 (-47)) /\
  int_true_div 3333 100 = Ok (S754_finite false 4690780486883082 (-47)).
Proof. vm_compute. split; reflexivity. Qed.

(** ** Attempts: answers posted one after the other *)

Lemma key_inj {A} (key : A -> Z) (l : list A) x y :
  List.NoDup (map key l) -> In x l -> In y l -> key x = key y -> x = y.
Proof.
  intros Hnd Hx Hy E.
  pose proof (find_unique key l x Hnd Hx) as Fx.
  pose proof (find_unique key l y Hnd Hy) as Fy.
  rewrite E in Fx. congruence.
Qed.

(** The view finds a posted answer correct by comparing its id with the
    id of the answer marked correct: this is the mark of the posted answer. *)
Lemma marked_correct d question answer correct :
  store_ok d ->
  In answer (question_answers d question) ->
  Answer_get_correct d (question_id question) = Ok correct ->
  (answer_id answer =? answer_id correct) = answer_is_correct answer.
Proof.
  intros [_ Ha%NoDup_ListNoDup] Hin Hget.
  apply filter_In in Hin as [Hin Hq].
  destruct (Answer_get_correct_Ok _ _ _ Hget) as (Hc & Hcq & Hmark).
  destruct (answer_is_correct answer) eqn:Hmine.
  - apply Z.eqb_eq. f_equal. unfold Answer_get_correct in Hget.
    assert (Hf : In answer (List.filter
                   (fun a => (answer_question a =? question_id question) && answer_is_correct a)
                   (answers d)))
      by (apply filter_In; split; [exact Hin|rewrite Hq, Hmine; reflexivity]).
    destruct (List.filter _ (answers d)) as [|b [|b' l]]; try discriminate.
    injection Hget as <-. destruct Hf as [<-|[]]. reflexivity.
  - apply Z.eqb_neq. intros E.
    pose proof (key_inj answer_id (answers d) answer correct Ha Hin Hc E) as ->.
    congruence.
Qed.

Lemma post_answer_valid d student question answer :
  store_ok d ->
  In answer (question_answers d question) ->
  form_clean d (bound_form question (post_answer student answer)) = Some answer.
Proof.
  intros [_ Ha%NoDup_ListNoDup] Hin.
  unfold form_clean, bound_form, post_answer. cbn [form_data form_question req_POST].
  unfold question_answers in *.
  apply (find_unique answer_id); [apply NoDup_map_filter; exact Ha|exact Hin].
Qed.

Lemma correct_answers_count_insert d student quiz question rest answer :
  store_ok d ->
  get_unanswered_questions d student quiz = question :: rest ->
  In answer (answers d) ->
  answer_question answer = question_id question ->
  correct_answers_count (insert_student_answer (answer_row student answer) d) student quiz =
  correct_answers_count d student quiz + (if answer_is_correct answer then 1 else 0).
Proof.
  intros Hok Hcur Hans Hansq. unfold correct_answers_count, answer_row.
  rewrite (student_quiz_answers_insert d student quiz question rest answer Hok Hcur Hans Hansq).
  rewrite List.filter_app, length_app. simpl.
  destruct (answer_is_correct answer); simpl; lia.
Qed.

Lemma score_run_cons c marks state :
  score_run (c :: marks) state = score_run marks (score_step c state).
Proof. reflexivity. Qed.

(** The first unanswered questions answered one request after the other,
    each with one of its answers. *)
Lemma play_posts pk quiz student :
  forall picked current later w,
    Quiz_get (db w) pk = Some quiz ->
    student_quizzes_exists (db w) student pk = false ->
    store_ok (db w) ->
    answered_once (db w) student quiz ->
    get_unanswered_questions (db w) student quiz = current ++ later ->
    Forall2 (answerable (db w)) current picked ->
    let requests := map (post_answer student) picked in
    let w' := play pk requests w in
    Forall is_Ok (responses pk requests w) /\
    session_state (session w') quiz =
      score_run (map answer_is_correct picked) (session_state (session w) quiz) /\
    student_answers (db w') = student_answers (db w) ++ map (answer_row student) picked /\
    get_unanswered_questions (db w') student quiz = later /\
    correct_answers_count (db w') student quiz =
      correct_answers_count (db w) student quiz +
      Z.of_nat (length (List.filter answer_is_correct picked)) /\
    (later = [] -> picked <> [] ->
     exists score,
       compute_score (correct_answers_count (db w') student quiz)
                     (Z.of_nat (length (quiz_questions (db w) quiz))) = Ok score /\
       taken_quizzes (db w') =
       taken_quizzes (db w) ++
       [{| tq_student := student; tq_quiz := quiz_id quiz; tq_score := score |}]) /\
    (later <> [] \/ picked = [] -> taken_quizzes (db w') = taken_quizzes (db w)).
Proof.
  induction picked as [|a ps IH];
    intros current later w Hquiz Htaken Hstore Honce Hcur Hpicked; cbv zeta.
  { inversion Hpicked; subst. cbn [map play responses List.filter length].
    rewrite app_nil_r, Z.add_0_r. repeat split; auto. congruence. }
  destruct current as [|q cs]; [inversion Hpicked|]. cbn [app] in Hcur.
  apply Forall2_cons_1 in Hpicked as [[Hin Hok] Hrest2].
  destruct (Answer_get_correct (db w) (question_id q)) as [c|e] eqn:Hc; [clear Hok|contradiction].
  pose proof (post_answer_valid _ student _ _ Hstore Hin) as Hvalid.
  pose proof (serve_valid_post (post_answer student a) pk w quiz q (cs ++ later) a c
                Hquiz Htaken Hcur eq_refl Hvalid Hc Hstore Honce) as [Hrest Hserve].
  cbv zeta in Hrest, Hserve.
  change (req_student (post_answer student a)) with student in *.
  rewrite (marked_correct _ _ _ _ Hstore Hin Hc) in Hserve.
  destruct (form_clean_Some _ _ _ Hvalid) as (Hans & Hq & _). cbn [form_question bound_form] in Hq.
  pose proof (correct_answers_count_insert _ _ _ _ _ _ Hstore Hcur Hans Hq) as Hcount.
  fold (answer_row student a) in Hrest, Hserve.
  cbn [map play responses]. rewrite score_run_cons.
  destruct (cs ++ later) as [|r l] eqn:Hmore.
  - apply app_eq_nil in Hmore as [-> ->]. apply Forall2_nil_inv_l in Hrest2 as ->.
    destruct Hserve as (score & Hscore & _ & ->).
    cbn [map play responses fst snd session db student_answers taken_quizzes insert_taken_quiz].
    split; [repeat constructor|]. split; [rewrite session_state_scored; reflexivity|].
    split; [reflexivity|]. split; [exact Hrest|].
    split; [|split].
    + change (correct_answers_count (insert_taken_quiz _ ?d) student quiz)
        with (correct_answers_count d student quiz).
      rewrite Hcount. cbn [List.filter]. destruct (answer_is_correct a); simpl; lia.

    + intros _ _. exists score. split; [exact Hscore|reflexivity].
    + intros [H|H]; [contradiction|discriminate].
  - rewrite Hserve. cbn [fst snd].
    set (w1 := {| db := _; session := _; messages := _ |}).
    destruct (IH cs later w1) as (IHr & IHs & IHa & IHu & IHc & IHt & IHn); auto.
    + apply (answered_once_insert (db w) student quiz q (r :: l) a); auto.
    + rewrite Hmore. exact Hrest.
    + cbv zeta in *. split; [constructor; [exact I|exact IHr]|].
      split; [rewrite IHs; cbn [session w1]; rewrite session_state_scored; reflexivity|].
      split; [rewrite IHa; cbn [db w1 student_answers insert_student_answer map];
              rewrite <- app_assoc; reflexivity|].
      split; [exact IHu|].
      split; [|split].
      * rewrite IHc. cbn [db w1]. rewrite Hcount. cbn [List.filter].
        destruct (answer_is_correct a); cbn [length]; lia.
      * intros Hl _. destruct ps as [|p ps'].
        { apply Forall2_nil_inv_r in Hrest2. rewrite Hrest2, Hl in Hmore. discriminate Hmore. }
        destruct (IHt Hl) as (score & Hscore & Hrows); [discriminate|].
        exists score. split; [exact Hscore|exact Hrows].
      * intros [Hl|Hl]; [|discriminate]. apply IHn. left. exact Hl.
Qed.

Lemma score_run_app marks1 marks2 state :
  score_run (marks1 ++ marks2) state = score_run marks2 (score_run marks1 state).
Proof. apply fold_left_app. Qed.

Lemma score_run_wrong marks :
  forall state,
    Forall (fun c => c = false) marks -> marks <> [] ->
    score_run marks state = (fst state - 2 * Z.of_nat (length marks), 1).
Proof.
  induction marks as [|c marks IH]; intros state Hall Hne; [contradiction|].
  apply Forall_cons_1 in Hall as [-> Hall]. rewrite score_run_cons.
  destruct marks as [|c' marks'].
  - unfold score_run, score_step, score_update. simpl. f_equal; lia.
  - rewrite IH by (auto; discriminate).
    unfold score_step, score_update. cbn [fst snd]. f_equal.
    cbn [length]. lia.
Qed.

Lemma score_run_correct marks :
  forall temp_score next_exponent,
    0 <= next_exponent ->
    Forall (fun c => c = true) marks ->
    score_run marks (temp_score, next_exponent) =
    (temp_score + 2 ^ (next_exponent + Z.of_nat (length marks)) - 2 ^ next_exponent,
     next_exponent + Z.of_nat (length marks)).
Proof.
  induction marks as [|c marks IH]; intros temp_score next_exponent He Hall.
  - unfold score_run. simpl. rewrite Z.add_0_r. f_equal. lia.
  - apply Forall_cons_1 in Hall as [-> Hall]. rewrite score_run_cons.
    unfold score_step, score_update, py_pow2. cbn [fst snd].
    rewrite IH by (auto; lia). cbn [length]. rewrite Nat2Z.inj_succ.
    replace (next_exponent + 1 + Z.of_nat (length marks))
      with (next_exponent + Z.succ (Z.of_nat (length marks))) by lia.
    f_equal. rewrite (Z.pow_add_r 2 next_exponent 1) by lia. lia.
Qed.

(** ** The view on a platform *)

Lemma take_quiz_on_no_limits request pk :
  take_quiz_on no_limits request pk = take_quiz request pk.
Proof. reflexivity. Qed.

Lemma serve_on_no_limits faults request pk w :
  serve_on no_limits faults request pk w = serve faults request pk w.
Proof. reflexivity. Qed.

Lemma str_on_cases p n : printable p n \/ str_on p n = Raise ValueError.
Proof.
  unfold printable, str_on. destruct (int_max_str_digits p) as [digits|]; [|auto].
  destruct (10 ^ digits <=? Z.abs n); auto.
Qed.

Lemma not_printable p n : ~ printable p n -> str_on p n = Raise ValueError.
Proof. destruct (str_on_cases p n); tauto. Qed.

(** An int of no more digits than a printable one is printable. *)
Lemma printable_le p m n : Z.abs m <= Z.abs n -> printable p n -> printable p m.
Proof.
  unfold printable, str_on. destruct (int_max_str_digits p) as [digits|]; [|reflexivity].
  intros Hle. destruct (Z.leb_spec (10 ^ digits) (Z.abs n)); [discriminate|].
  intros _. destruct (Z.leb_spec (10 ^ digits) (Z.abs m)); [lia|reflexivity].
Qed.

Lemma printable_no_limits n : printable no_limits n.
Proof. reflexivity. Qed.

Lemma take_quiz_valid_post request pk w quiz question rest answer :
  Quiz_get (db w) pk = Some quiz ->
  student_quizzes_exists (db w) (req_student request) pk = false ->
  get_unanswered_questions (db w) (req_student request) quiz = question :: rest ->
  req_method request = "POST" ->
  form_clean (db w) (bound_form question request) = Some answer ->
  take_quiz request pk (w, None) =
  atomic (submit pk quiz (req_student request)
            (Z.of_nat (length (quiz_questions (db w) quiz))) question answer) (w, None).
Proof.
  intros Hquiz Htaken Hcur Hpost Hclean.
  destruct (compute_progress_current _ _ _ _ _ Hcur) as [progress Hprogress].
  rewrite (take_quiz_healthy _ _ _ _ Hquiz Htaken), Hprogress, Hcur.
  unfold respond. rewrite Hpost, String.eqb_refl.
  cbn [TakeQuizForm_init head]. rewrite bind_ret, bind_query.
  fold (bound_form question request). rewrite Hclean. reflexivity.
Qed.

Lemma take_quiz_on_healthy p request pk w quiz :
  accepts_key p pk = true ->
  Quiz_get (db w) pk = Some quiz ->
  student_quizzes_exists (db w) (req_student request) pk = false ->
  take_quiz_on p request pk (w, None) =
  match compute_progress
          (Z.of_nat (length (get_unanswered_questions (db w) (req_student request) quiz)))
          (Z.of_nat (length (quiz_questions (db w) quiz))) with
  | Ok progress =>
      respond_on p request pk quiz (req_student request)
        (Z.of_nat (length (quiz_questions (db w) quiz))) progress
        (head (get_unanswered_questions (db w) (req_student request) quiz)) (w, None)
  | Raise e => (Raise e, (w, None))
  end.
Proof.
  intros Hkey Hquiz Htaken.
  unfold take_quiz_on, get_object_or_404_Quiz_on, get_object_or_404_Quiz. rewrite Hkey.
  rewrite bind_assoc, bind_query, Hquiz, bind_ret, bind_query, Htaken.
  rewrite bind_query, bind_query.
  destruct (compute_progress _ _) as [progress|e]; [|reflexivity].
  rewrite bind_lift_Ok, bind_query. reflexivity.
Qed.

Lemma take_quiz_on_valid_post p request pk w quiz question rest answer :
  accepts_key p pk = true ->
  Quiz_get (db w) pk = Some quiz ->
  student_quizzes_exists (db w) (req_student request) pk = false ->
  get_unanswered_questions (db w) (req_student request) quiz = question :: rest ->
  req_method request = "POST" ->
  form_clean (db w) (bound_form question request) = Some answer ->
  take_quiz_on p request pk (w, None) =
  atomic (submit_on p pk quiz (req_student request)
            (Z.of_nat (length (quiz_questions (db w) quiz))) question answer) (w, None).
Proof.
  intros Hkey Hquiz Htaken Hcur Hpost Hclean.
  destruct (compute_progress_current _ _ _ _ _ Hcur) as [progress Hprogress].
  rewrite (take_quiz_on_healthy _ _ _ _ _ Hkey Hquiz Htaken), Hprogress, Hcur.
  unfold respond_on. rewrite Hpost, String.eqb_refl.
  cbn [TakeQuizForm_init head]. rewrite bind_ret, bind_query.
  fold (bound_form question request). rewrite Hclean. reflexivity.
Qed.

(** The atomic block on a platform, on a healthy store: it is the block
    without limits when the new running score is printable, and ends in the
    error of [str], with the answer saved and the session scored, when not. *)
Lemma submit_on_healthy p pk quiz student total question answer correct w :
  Answer_get_correct (db w) (question_id question) = Ok correct ->
  let is_correct := answer_id answer =? answer_id correct in
  let d1 := insert_student_answer
              {| sa_student := student; sa_answer := answer_id answer |} (db w) in
  let s1 := scored_session (session w) quiz is_correct in
  submit_on p pk quiz student total question answer (w, None) =
  match str_on p (fst (score_step is_correct (session_state (session w) quiz))) with
  | Ok _ => submit pk quiz student total question answer (w, None)
  | Raise e => (Raise e, ({| db := d1; session := s1; messages := messages w |}, None))
  end.
Proof.
  intros Hcorrect. cbv zeta.
  pose proof (session_names_differ quiz) as Hne.
  assert (Hne' : next_exponent_name quiz <> temp_score_name quiz) by (intros E; auto).
  unfold submit_on, submit.
  unfold Answer_objects_get. rewrite !bind_execute, !bind_assoc, !bind_query.
  wsimpl. rewrite Answer_get_correct_insert_sa, Hcorrect, !bind_lift_Ok.
  rewrite !bind_session_get, !bind_session_setitem, !bind_session_get, !bind_session_setitem.
  wsimpl.
  rewrite lookup_insert_ne by exact Hne.
  rewrite insert_insert_eq.
  cbn [fst snd].
  destruct (answer_id answer =? answer_id correct).
  all: rewrite !bind_assoc, !bind_session_setitem, !bind_assoc, !bind_session_setitem,
         !bind_assoc.
  all: wsimpl.
  all: rewrite insert_insert_eq.
  all: erewrite !bind_session_getitem;
    [|wsimpl; rewrite lookup_insert_ne by exact Hne'; apply lookup_insert_eq ..].
  all: rewrite bind_assoc.
  all: match goal with
       | |- context [lift (str_on ?q ?n)] =>
           change (fst (score_step _ (session_state (session w) quiz))) with n;
           destruct (str_on q n) as [text|e]
       end.
  all: reflexivity.
Qed.

(** On the default platform an int is printable when it is below
    [10 ^ 4300] in absolute value. *)
Lemma printable_default n : printable default_limits n <-> Z.abs n < 10 ^ 4300.
Proof.
  unfold printable, str_on. cbn [int_max_str_digits default_limits].
  generalize (10 ^ 4300). intros limit.
  destruct (Z.leb_spec limit (Z.abs n)); split; try lia; try discriminate; reflexivity.
Qed.

(** A fresh streak of [n] correct answers has a printable score on the
    default platform up to [n = 14283]: [2 ^ 14284 < 10 ^ 4300 < 2 ^ 14285]. *)
Lemma streak_printable_default n :
  printable default_limits (2 ^ (Z.of_nat n + 1) - 2) <-> Z.of_nat n <= 14283.
Proof.
  rewrite printable_default.
  assert (Hone : 2 ^ 1 <= 2 ^ (Z.of_nat n + 1)) by (apply Z.pow_le_mono_r; lia).
  change (2 ^ 1) with 2 in Hone.
  assert (Hup : 14285 <= Z.of_nat n + 1 -> 2 ^ 14285 <= 2 ^ (Z.of_nat n + 1))
    by (intros H; apply Z.pow_le_mono_r; [reflexivity|exact H]).
  assert (Hdown : Z.of_nat n + 1 <= 14284 -> 2 ^ (Z.of_nat n + 1) <= 2 ^ 14284)
    by (intros H; apply Z.pow_le_mono_r; [reflexivity|exact H]).
  assert (Hlow : 2 ^ 14284 < 10 ^ 4300) by (vm_compute; reflexivity).
  assert (Hhigh : 10 ^ 4300 + 2 <= 2 ^ 14285) by (vm_compute; discriminate).
  revert Hlow Hhigh Hone Hup Hdown.
  generalize (2 ^ 14284) (2 ^ 14285) (10 ^ 4300) (2 ^ (Z.of_nat n + 1)).
  intros a b limit x Hlow Hhigh Hone Hup Hdown.
  rewrite Z.abs_eq by lia. split; intros H.
  - destruct (Z.le_gt_cases (Z.of_nat n) 14283) as [Hle|Hgt]; [exact Hle|].
    specialize (Hup ltac:(lia)). lia.
  - specialize (Hdown ltac:(lia)). lia.
Qed.

(** A submission on a platform, on a healthy store: it is served as on a
    platform without limits when the new running score is printable, and
    ends in [ValueError] with the store rolled back when it is not. *)
Lemma serve_on_submission p request pk w quiz question rest answer correct :
  submission request pk w quiz question rest answer correct ->
  accepts_key p pk = true ->
  let is_correct := answer_id answer =? answer_id correct in
  let new := fst (score_step is_correct (session_state (session w) quiz)) in
  (printable p new -> serve_on p None request pk w = serve None request pk w) /\
  (~ printable p new ->
   serve_on p None request pk w = (Raise ValueError, scored_unsaved w quiz is_correct)).
Proof.
  intros [Hquiz Htaken Hcur Hpost Hvalid Hcorrect Hstore Honce] Hkey. cbv zeta.
  pose proof (submit_on_healthy p pk quiz (req_student request)
                (Z.of_nat (length (quiz_questions (db w) quiz))) question answer correct w
                Hcorrect) as Hsubmit.
  cbv zeta in Hsubmit. unfold serve_on, serve.
  rewrite (take_quiz_on_valid_post p _ _ _ _ _ _ _ Hkey Hquiz Htaken Hcur Hpost Hvalid).
  rewrite (take_quiz_valid_post _ _ _ _ _ _ _ Hquiz Htaken Hcur Hpost Hvalid).
  split.
  - intros Hp. rewrite Hp in Hsubmit. unfold atomic, bind. rewrite Hsubmit. reflexivity.
  - intros Hnp. rewrite (not_printable _ _ Hnp) in Hsubmit.
    rewrite (atomic_Raise _ _ _ _ Hsubmit). reflexivity.
Qed.

Lemma scores_along_cons c marks state :
  scores_along (c :: marks) state =
  fst (score_step c state) :: scores_along marks (score_step c state).
Proof. reflexivity. Qed.

(** The first unanswered questions answered one request after the other on
    a platform: the requests are served as on a platform without limits when
    every running score on the way is printable, and only then are they all
    processed. *)
Lemma play_on_posts p pk quiz student :
  forall picked current later w,
    Quiz_get (db w) pk = Some quiz ->
    student_quizzes_exists (db w) student pk = false ->
    store_ok (db w) ->
    answered_once (db w) student quiz ->
    get_unanswered_questions (db w) student quiz = current ++ later ->
    Forall2 (answerable (db w)) current picked ->
    accepts_key p pk = true ->
    let requests := map (post_answer student) picked in
    let scores := scores_along (map answer_is_correct picked) (session_state (session w) quiz) in
    (Forall (printable p) scores ->
     play_on p pk requests w = play pk requests w /\
     responses_on p pk requests w = responses pk requests w) /\
    (Forall is_Ok (responses_on p pk requests w) -> Forall (printable p) scores).
Proof.
  induction picked as [|a ps IH];
    intros current later w Hquiz Htaken Hstore Honce Hcur Hpicked Hkey; cbv zeta.
  { cbn [map play play_on responses responses_on scores_along]. split; [auto|constructor]. }
  destruct current as [|q cs]; [inversion Hpicked|]. cbn [app] in Hcur.
  apply Forall2_cons_1 in Hpicked as [[Hin Hok] Hrest2].
  destruct (Answer_get_correct (db w) (question_id q)) as [c|e] eqn:Hc; [clear Hok|contradiction].
  pose proof (post_answer_valid _ student _ _ Hstore Hin) as Hvalid.
  assert (Hsub : submission (post_answer student a) pk w quiz q (cs ++ later) a c)
    by (constructor; auto).
  destruct (serve_on_submission p _ _ _ _ _ _ _ _ Hsub Hkey) as [Hsame Hraise].
  cbv zeta in Hsame, Hraise.
  pose proof (serve_valid_post (post_answer student a) pk w quiz q (cs ++ later) a c
                Hquiz Htaken Hcur eq_refl Hvalid Hc Hstore Honce) as [Hrest Hserve].
  cbv zeta in Hrest, Hserve.
  change (req_student (post_answer student a)) with student in *.
  rewrite (marked_correct _ _ _ _ Hstore Hin Hc) in Hserve, Hsame, Hraise.
  destruct (form_clean_Some _ _ _ Hvalid) as (Hans & Hq & _). cbn [form_question bound_form] in Hq.
  cbn [map play play_on responses responses_on]. rewrite scores_along_cons.
  destruct (str_on_cases p (fst (score_step (answer_is_correct a)
                                   (session_state (session w) quiz)))) as [Hp|Hnp].
  2:{ split.
      - intros Hall. apply Forall_cons_1 in Hall as [Hp _]. unfold printable in Hp. congruence.
      - intros Hall. apply Forall_cons_1 in Hall as [Hr _].
        rewrite Hraise in Hr; [contradiction|]. unfold printable. congruence. }
  rewrite (Hsame Hp).
  destruct (cs ++ later) as [|r l] eqn:Hmore.
  - apply app_eq_nil in Hmore as [-> ->]. apply Forall2_nil_inv_l in Hrest2 as ->.
    cbn [map play play_on responses responses_on scores_along].
    split; [auto|]. intros _. constructor; [exact Hp|constructor].
  - rewrite Hserve. cbn [fst snd].
    set (w1 := {| db := _; session := _; messages := _ |}).
    destruct (IH cs later w1) as [IHsame IHOk]; auto.
    + apply (answered_once_insert (db w) student quiz q (r :: l) a); auto.
    + rewrite Hmore. exact Hrest.
    + cbv zeta in IHsame, IHOk. cbn [session w1] in IHsame, IHOk.
      rewrite session_state_scored in IHsame, IHOk.
      fold (score_step (answer_is_correct a) (session_state (session w) quiz)) in IHsame, IHOk.
      split.
      * intros Hall. apply Forall_cons_1 in Hall as [_ Hall].
        destruct (IHsame Hall) as [-> ->]. auto.
      * intros Hall. apply Forall_cons_1 in Hall as [_ Hall].
        constructor; [exact Hp|exact (IHOk Hall)].
Qed.

(** The posts of the answers marked correct are posts of picked answers. *)
Lemma correct_posts_picked d student current :
  (forall q, In q current -> is_Ok (Answer_get_correct d (question_id q))) ->
  exists picked,
    map (correct_post d student) current = map (post_answer student) picked /\
    Forall2 (answerable d) current picked /\
    Forall (fun c => c = true) (map answer_is_correct picked) /\
    length picked = length current.
Proof.
  induction current as [|q qs IH]; intros Hcorrect.
  { exists []. repeat split; constructor. }
  destruct IH as (picked & Hposts & Hpicked & Hmarks & Hlen);
    [intros q' Hq'; apply Hcorrect; right; exact Hq'|].
  pose proof (Hcorrect q (or_introl eq_refl)) as Hq.
  destruct (Answer_get_correct d (question_id q)) as [a|e] eqn:Ha; [|contradiction].
  destruct (Answer_get_correct_Ok _ _ _ Ha) as (Hin & Hqa & Hmark).
  exists (a :: picked). cbn [map length]. split; [|split; [|split]].
  - f_equal; [|exact Hposts]. unfold correct_post, post_answer. rewrite Ha. reflexivity.
  - constructor; [|exact Hpicked]. split; [|rewrite Ha; exact I].
    apply filter_In. split; [exact Hin|]. apply Z.eqb_eq. exact Hqa.
  - constructor; [exact Hmark|exact Hmarks].
  - rewrite Hlen. reflexivity.
Qed.

Lemma scores_along_last marks :
  forall state, marks <> [] -> In (fst (score_run marks state)) (scores_along marks state).
Proof.
  induction marks as [|c marks IH]; intros state Hne; [contradiction|].
  rewrite score_run_cons, scores_along_cons. destruct marks as [|c' marks'].
  - left. reflexivity.
  - right. apply IH. discriminate.
Qed.

(** On a streak of correct answers the running score grows. *)
Lemma scores_along_correct marks :
  forall temp_score next_exponent,
    0 <= temp_score -> 0 <= next_exponent ->
    Forall (fun c => c = true) marks ->
    Forall (fun s => 0 <= s <= fst (score_run marks (temp_score, next_exponent)))
           (scores_along marks (temp_score, next_exponent)).
Proof.
  induction marks as [|c marks IH]; intros temp_score next_exponent Ht He Hall;
    [constructor|].
  apply Forall_cons_1 in Hall as [-> Hall].
  rewrite score_run_cons, scores_along_cons.
  unfold score_step, score_update, py_pow2. cbn [fst snd].
  pose proof (Z.pow_pos_nonneg 2 next_exponent ltac:(lia) He) as Hpow.
  constructor.
  - rewrite score_run_correct by (auto; lia). cbn [fst].
    assert (2 ^ (next_exponent + 1) <= 2 ^ (next_exponent + 1 + Z.of_nat (length marks)))
      by (apply Z.pow_le_mono_r; lia).
    lia.
  - apply IH; [lia|lia|exact Hall].
Qed.

(** The running score of a streak that started fresh. *)
Lemma score_run_streak marks :
  Forall (fun c => c = true) marks ->
  score_run marks (0, 1) =
  (2 ^ (Z.of_nat (length marks) + 1) - 2, Z.of_nat (length marks) + 1).
Proof.
  intros Hall. rewrite score_run_correct by (auto; lia).
  rewrite (Z.add_comm 1). change (2 ^ 1) with 2. f_equal; lia.
Qed.

(** A fresh attempt of correct answers on a platform. *)
Lemma play_on_correct_posts p pk quiz student n w :
  Quiz_get (db w) pk = Some quiz ->
  student_quizzes_exists (db w) student pk = false ->
  store_ok (db w) ->
  answered_once (db w) student quiz ->
  fresh_session (session w) quiz ->
  accepts_key p pk = true ->
  let current := firstn n (get_unanswered_questions (db w) student quiz) in
  length current = n ->
  (forall q, In q current -> is_Ok (Answer_get_correct (db w) (question_id q))) ->
  let requests := map (correct_post (db w) student) current in
  (printable p (2 ^ (Z.of_nat n + 1) - 2) -> Forall is_Ok (responses_on p pk requests w)) /\
  (Forall is_Ok (responses_on p pk requests w) ->
   fst (session_state (session (play_on p pk requests w)) quiz) = 2 ^ (Z.of_nat n + 1) - 2 /\
   (n <> 0%nat -> printable p (2 ^ (Z.of_nat n + 1) - 2))).
Proof.
  intros Hquiz Htaken Hstore Honce Hfresh Hkey current Hlen Hcorrect requests.
  destruct (correct_posts_picked (db w) student current Hcorrect)
    as (picked & Hposts & Hpicked & Hmarks & Hlen').
  assert (Hcur : get_unanswered_questions (db w) student quiz =
                 current ++ skipn n (get_unanswered_questions (db w) student quiz))
    by (symmetry; apply firstn_skipn).
  destruct (play_on_posts p pk quiz student picked current _ w Hquiz Htaken Hstore Honce
              Hcur Hpicked Hkey) as [Hsame Hprintable].
  destruct (play_posts pk quiz student picked current _ w Hquiz Htaken Hstore Honce
              Hcur Hpicked) as (Hr & Hs & _).
  cbv zeta in Hsame, Hprintable, Hr, Hs. unfold requests. rewrite Hposts.
  rewrite (session_state_fresh _ _ Hfresh) in Hsame, Hprintable, Hs.
  pose proof (score_run_streak _ Hmarks) as Hfinal.
  rewrite length_map, Hlen', Hlen in Hfinal.
  pose proof (scores_along_correct _ 0 1 ltac:(lia) ltac:(lia) Hmarks) as Hgrow.
  rewrite Hfinal in Hgrow. cbn [fst] in Hgrow.
  split.
  - intros Hp.
    assert (Hall : Forall (printable p) (scores_along (map answer_is_correct picked) (0, 1))).
    { eapply Forall_impl; [exact Hgrow|]. cbv beta. intros s Hs'.
      apply (printable_le p s (2 ^ (Z.of_nat n + 1) - 2)); [lia|exact Hp]. }
    destruct (Hsame Hall) as [_ ->]. exact Hr.
  - intros HOk. specialize (Hprintable HOk). destruct (Hsame Hprintable) as [-> _].
    rewrite Hs, Hfinal. split; [reflexivity|]. intros Hn.
    rewrite List.Forall_forall in Hprintable.
    replace (2 ^ (Z.of_nat n + 1) - 2)
      with (fst (score_run (map answer_is_correct picked) (0, 1))) by (rewrite Hfinal; reflexivity).
    apply Hprintable, scores_along_last.
    destruct picked; [simpl in Hlen'; lia|discriminate].
Qed.

(** ** The count of the final score *)

Lemma existsb_key {A} (key : A -> Z) (P : A -> bool) (l : list A) k :
  List.NoDup (map key l) ->
  existsb (fun x => (key x =? k) && P x) l =
  match find (fun x => key x =? k) l with
  | Some a => P a
  | None => false
  end.
Proof.
  induction l as [|a l IH]; intros Hnd; [reflexivity|].
  cbn [map] in Hnd. apply List.NoDup_cons_iff in Hnd as [Hnotin Hnd].
  cbn [existsb find]. destruct (Z.eqb_spec (key a) k) as [Hk|Hk]; cbn [andb orb].
  - assert (Hnone : existsb (fun x => (key x =? k) && P x) l = false).
    { apply not_true_is_false. intros H. apply existsb_exists in H as (x & Hin & Hx).
      apply andb_true_iff in Hx as [Hx _]. apply Z.eqb_eq in Hx.
      apply Hnotin. rewrite Hk, <- Hx. apply in_map. exact Hin. }
    rewrite Hnone. apply orb_false_r.
  - apply IH. exact Hnd.
Qed.

(** On a store whose primary keys identify the questions and the answers,
    the count of the view's query is the count of the specification. *)
Lemma submitted_correct_answers_count d student quiz :
  store_ok d ->
  submitted_correct_answers d student quiz = correct_answers_count d student quiz.
Proof.
  intros [Hq%NoDup_ListNoDup Ha%NoDup_ListNoDup].
  unfold submitted_correct_answers, correct_answers_count, student_quiz_answers.
  f_equal. induction (student_answers d) as [|sa l IH]; [reflexivity|].
  cbn [flat_map List.filter]. rewrite List.filter_app, length_app, <- IH. clear IH.
  rewrite (existsb_key answer_id _ (answers d) (sa_answer sa) Ha).
  unfold find_answer, find_question.
  destruct (sa_student sa =? student); cbn [andb]; [|reflexivity].
  destruct (find (fun a => answer_id a =? sa_answer sa) (answers d)) as [a|]; [|reflexivity].
  rewrite (existsb_key question_id _ (questions d) (answer_question a) Hq).
  destruct (find (fun q => question_id q =? answer_question a) (questions d)) as [q|];
    [|rewrite andb_false_r; reflexivity].
  destruct (question_quiz q =? quiz_id quiz); [|rewrite andb_false_r; reflexivity].
  rewrite andb_true_r. cbn [List.filter fst].
  destruct (answer_is_correct a); reflexivity.
Qed.

(** * The claims *)

(** C1.  A submission of the answer marked correct, with a streak exponent
    that is not negative, is processed exactly when the new running score
    [temp_score + 2 ^ next_exponent] is within the digits that [str]
    converts, and when processed it leaves that score and the exponent
    incremented in the session; and a fresh attempt in which the first [n]
    questions are answered correctly, one request after the other, ends,
    when all [n] are processed, with the running score [2 ^ (n + 1) - 2],
    which they are when that score is within the digits, and only then. *)
Theorem C1_correct_answer_streak p :
  (forall request pk w quiz question rest answer correct,
      submission request pk w quiz question rest answer correct ->
      answer_id answer = answer_id correct ->
      accepts_key p pk = true ->
      0 <= snd (session_state (session w) quiz) ->
      let temp_score := fst (session_state (session w) quiz) in
      let next_exponent := snd (session_state (session w) quiz) in
      (is_Ok (fst (serve_on p None request pk w)) <->
       printable p (temp_score + 2 ^ next_exponent)) /\
      (is_Ok (fst (serve_on p None request pk w)) ->
       session_state (session (snd (serve_on p None request pk w))) quiz =
       (temp_score + 2 ^ next_exponent, next_exponent + 1))) /\
  (forall n pk w quiz student,
      Quiz_get (db w) pk = Some quiz ->
      student_quizzes_exists (db w) student pk = false ->
      store_ok (db w) ->
      answered_once (db w) student quiz ->
      fresh_session (session w) quiz ->
      accepts_key p pk = true ->
      let current := firstn n (get_unanswered_questions (db w) student quiz) in
      length current = n ->
      (forall q, In q current -> is_Ok (Answer_get_correct (db w) (question_id q))) ->
      let requests := map (correct_post (db w) student) current in
      (printable p (2 ^ (Z.of_nat n + 1) - 2) ->
       Forall is_Ok (responses_on p pk requests w)) /\
      (Forall is_Ok (responses_on p pk requests w) ->
       fst (session_state (session (play_on p pk requests w)) quiz) =
         2 ^ (Z.of_nat n + 1) - 2 /\
       (n <> 0%nat -> printable p (2 ^ (Z.of_nat n + 1) - 2)))).
Proof.
  split.
  - intros request pk w quiz question rest answer correct Hsub Hcorrect Hkey _. cbv zeta.
    destruct (serve_on_submission p _ _ _ _ _ _ _ _ Hsub Hkey) as [Hsame Hraise].
    destruct (serve_submission _ _ _ _ _ _ _ _ Hsub) as ([response Hr] & Hs & _).
    cbv zeta in Hsame, Hraise, Hs. apply Z.eqb_eq in Hcorrect.
    rewrite Hcorrect in Hsame, Hraise, Hs.
    change (fst (score_step true (session_state (session w) quiz)))
      with (fst (session_state (session w) quiz) + 2 ^ snd (session_state (session w) quiz))
      in Hsame, Hraise.
    destruct (str_on_cases p (fst (session_state (session w) quiz)
                              + 2 ^ snd (session_state (session w) quiz))) as [Hp|Hnp].
    + rewrite (Hsame Hp), Hr, Hs, session_state_scored.
      split; [split; [intros _; exact Hp|intros _; exact I]|reflexivity].
    + assert (Hno : ~ printable p (fst (session_state (session w) quiz)
                                   + 2 ^ snd (session_state (session w) quiz)))
        by (unfold printable; congruence).
      rewrite (Hraise Hno). cbn [fst is_Ok]. split; [split; [contradiction|exact Hno]|contradiction].
  - intros n pk w quiz student Hquiz Htaken Hstore Honce Hfresh Hkey current Hlen Hcorrect
      requests.
    exact (play_on_correct_posts p pk quiz student n w Hquiz Htaken Hstore Honce Hfresh Hkey
             Hlen Hcorrect).
Qed.

Lemma C1_correct_answer_streak_witness :
  let request := Scenario.post 11 in
  let w := Scenario.fresh 2 in
  let streak := set_session (<["next_exponent_1" := 20000]> ∅) w in
  let requests := [Scenario.post 11; Scenario.post 21] in
  (is_Ok (fst (serve_on default_limits None request 1 w)) /\
   session_state (session (snd (serve_on default_limits None request 1 w))) Scenario.quiz1 =
     (0 + 2 ^ 1, 1 + 1)) /\
  ~ is_Ok (fst (serve_on default_limits None request 1 streak)) /\
  (Forall is_Ok (responses_on default_limits 1 requests w) /\
   fst (session_state (session (play_on default_limits 1 requests w)) Scenario.quiz1) =
     2 ^ (2 + 1) - 2).
Proof.
  intros request w streak requests.
  destruct (C1_correct_answer_streak default_limits) as [Hstep Hrun].
  assert (Hsub : forall s, submission request 1 (set_session s w) Scenario.quiz1
                   {| question_id := 1; question_quiz := 1 |}
                   [{| question_id := 2; question_quiz := 1 |}]
                   {| answer_id := 11; answer_question := 1; answer_is_correct := true |}
                   {| answer_id := 11; answer_question := 1; answer_is_correct := true |}).
  { intros s. constructor; try (vm_compute; reflexivity); decide_by_computation. }
  split; [|split].
  - destruct (Hstep request 1 w _ _ _ _ _ (Hsub (session w)) eq_refl eq_refl)
      as [[_ Hprocessed] Hstate]; [vm_compute; discriminate|].
    assert (HOk : is_Ok (fst (serve_on default_limits None request 1 w)))
      by (apply Hprocessed; vm_compute; reflexivity).
    split; [exact HOk|exact (Hstate HOk)].
  - destruct (Hstep request 1 streak _ _ _ _ _ (Hsub _) eq_refl eq_refl)
      as [[Hprintable _] _]; [vm_compute; discriminate|].
    intros HOk. specialize (Hprintable HOk).
    match type of Hprintable with
    | printable ?q ?n =>
        assert (E : str_on q n = Raise ValueError) by (vm_compute; reflexivity)
    end.
    unfold printable in Hprintable. rewrite E in Hprintable. discriminate Hprintable.
  - destruct (Hrun 2%nat 1 w Scenario.quiz1 7) as [Hprocessed Hscore].
    + vm_compute; reflexivity.
    + vm_compute; reflexivity.
    + decide_by_computation.
    + decide_by_computation.
    + split; vm_compute; reflexivity.
    + reflexivity.
    + vm_compute; reflexivity.
    + intros q [<-|[<-|[]]]; vm_compute; exact I.
    + assert (HOk : Forall is_Ok (responses_on default_limits 1 requests w))
        by (apply Hprocessed; vm_compute; reflexivity).
      split; [exact HOk|]. destruct (Hscore HOk) as [Hfinal _]. exact Hfinal.
Defined.

(** C2.  The submission that answers the last unanswered question records a
    taken quiz whose score is [round(correct / total * 100, 2)], where
    [correct] is the number of the student's submitted answers, this one
    included, that reference an answer marked correct of a question of the
    quiz, and where [total], the number of questions, is positive.  The
    session decides only whether the submission is processed (it is exactly
    when the new running score is within the digits that [str] converts);
    the score recorded is the same whatever the session holds. *)
Theorem C2_final_score p request pk w quiz question answer correct :
  submission request pk w quiz question [] answer correct ->
  accepts_key p pk = true ->
  let student := req_student request in
  let total := Z.of_nat (length (quiz_questions (db w) quiz)) in
  let saved := insert_student_answer (answer_row student answer) (db w) in
  exists ratio score,
    0 < total /\
    int_true_div (submitted_correct_answers saved student quiz) total = Ok ratio /\
    py_round_ndigits (float_mul ratio (float_of_int 100)) 2 = Ok score /\
    forall s : gmap string Z,
      0 <= snd (session_state s quiz) ->
      let served := serve_on p None request pk (set_session s w) in
      (is_Ok (fst served) <->
       printable p (fst (score_step (answer_id answer =? answer_id correct)
                                    (session_state s quiz)))) /\
      (is_Ok (fst served) ->
       fst served = Ok RedirectQuizList /\
       db (snd served) =
         insert_taken_quiz {| tq_student := student; tq_quiz := pk; tq_score := score |} saved).
Proof.
  intros Hsub Hkey. cbv zeta.
  destruct (serve_last_submission _ _ _ _ _ _ _ Hsub) as (score & m & Hscore & _ & Ht & _).
  cbv zeta in Hscore. unfold compute_score in Hscore.
  fold (answer_row (req_student request) answer) in Hscore.
  rewrite <- submitted_correct_answers_count in Hscore by exact (sub_store _ _ _ _ _ _ _ _ Hsub).
  destruct (int_true_div _ _) as [ratio|e] eqn:Hratio; [|discriminate].
  exists ratio, score. split; [exact Ht|]. split; [reflexivity|]. split; [exact Hscore|].
  intros s _.
  pose proof (submission_set_session s _ _ _ _ _ _ _ _ Hsub) as Hsub'.
  destruct (serve_last_submission _ _ _ _ _ _ _ Hsub') as (score' & m' & Hscore' & _ & _ & Hserve).
  cbv zeta in Hscore', Hserve. cbn [db set_session] in Hscore', Hserve.
  unfold compute_score in Hscore'.
  fold (answer_row (req_student request) answer) in Hscore', Hserve.
  rewrite <- submitted_correct_answers_count in Hscore'
    by exact (sub_store _ _ _ _ _ _ _ _ Hsub).
  rewrite Hratio in Hscore'.
  assert (score' = score) as -> by congruence.
  destruct (serve_on_submission p _ _ _ _ _ _ _ _ Hsub' Hkey) as [Hsame Hraise].
  cbv zeta in Hsame, Hraise. cbn [session set_session] in Hsame, Hraise.
  destruct (str_on_cases p (fst (score_step (answer_id answer =? answer_id correct)
                                   (session_state s quiz)))) as [Hp|Hnp].
  - rewrite (Hsame Hp), Hserve. cbn [fst snd db].
    rewrite (Quiz_get_id _ _ _ (sub_quiz _ _ _ _ _ _ _ _ Hsub)).
    split; [split; [intros _; exact Hp|intros _; exact I]|]. intros _. split; reflexivity.
  - assert (Hno : ~ printable p (fst (score_step (answer_id answer =? answer_id correct)
                                        (session_state s quiz))))
      by (unfold printable; congruence).
    rewrite (Hraise Hno). cbn [fst is_Ok].
    split; [split; [contradiction|exact Hno]|contradiction].
Qed.

Lemma C2_final_score_witness :
  let w := play 1 [Scenario.post 11] (Scenario.fresh 2) in
  let answer := {| answer_id := 22; answer_question := 2; answer_is_correct := false |} in
  let saved := insert_student_answer (answer_row 7 answer) (db w) in
  exists ratio score,
    0 < Z.of_nat (length (quiz_questions (db w) Scenario.quiz1)) /\
    int_true_div (submitted_correct_answers saved 7 Scenario.quiz1)
      (Z.of_nat (length (quiz_questions (db w) Scenario.quiz1))) = Ok ratio /\
    py_round_ndigits (float_mul ratio (float_of_int 100)) 2 = Ok score /\
    forall s : gmap string Z,
      0 <= snd (session_state s Scenario.quiz1) ->
      let served := serve_on default_limits None (Scenario.post 22) 1 (set_session s w) in
      (is_Ok (fst served) <->
       printable default_limits (fst (score_step (22 =? 21) (session_state s Scenario.quiz1)))) /\
      (is_Ok (fst served) ->
       fst served = Ok RedirectQuizList /\
       db (snd served) =
         insert_taken_quiz {| tq_student := 7; tq_quiz := 1; tq_score := score |} saved).
Proof.
  intros w answer saved.
  apply (C2_final_score default_limits (Scenario.post 22) 1 w Scenario.quiz1
           {| question_id := 2; question_quiz := 1 |} answer
           {| answer_id := 21; answer_question := 2; answer_is_correct := true |}).
  - constructor; try (vm_compute; reflexivity); decide_by_computation.
  - reflexivity.
Defined.



(** C4.  When the student already has a taken quiz for the quiz id, the view
    answers with the page of the taken quiz and changes nothing: not the
    store, not the session, not the messages, under any fault of the store.
    Hence no request adds a second taken quiz to a (student, quiz) pair, and
    a taken quiz stays taken. *)
Theorem C4_taken_quiz_is_final :
  (forall faults request pk w,
      student_quizzes_exists (db w) (req_student request) pk = true ->
      snd (serve faults request pk w) = w /\
      (forall quiz, Quiz_get (db w) pk = Some quiz ->
                    serve None request pk w = (Ok TakenQuizPage, w))) /\
  (forall faults request pk w,
      at_most_one_taken (db w) ->
      at_most_one_taken (db (snd (serve faults request pk w)))) /\
  (forall faults request pk w student quiz_pk,
      student_quizzes_exists (db w) student quiz_pk = true ->
      student_quizzes_exists (db (snd (serve faults request pk w))) student quiz_pk = true).
Proof.
  split; [|split].
  - intros faults request pk w Htaken. split.
    + destruct (serve_outcome faults request pk w) as [_ [Hsame|Hvalid]]; [exact Hsame|].
      destruct Hvalid as (_ & Hnot & _). congruence.
    + intros quiz Hquiz. unfold serve.
      rewrite (take_quiz_healthy_taken _ _ _ _ Hquiz Htaken). reflexivity.
  - intros faults request pk w Hone.
    destruct (serve_outcome faults request pk w) as [Hstore _].
    destruct (fst (serve faults request pk w)) as [[]|e]; cbn [store_outcome] in Hstore.
    + rewrite Hstore. exact Hone.
    + rewrite Hstore. exact Hone.
    + destruct Hstore as [answer ->]. exact Hone.
    + destruct Hstore as (answer & score & -> & Hnot).
      intros student quiz_pk. specialize (Hone student quiz_pk).
      unfold taken_rows in *. cbn [taken_quizzes insert_taken_quiz insert_student_answer].
      rewrite List.filter_app, length_app. cbn [List.filter tq_student tq_quiz].
      destruct (Z.eqb_spec (req_student request) student) as [<-|_]; cbn [andb length];
        [|lia].
      destruct (Z.eqb_spec pk quiz_pk) as [<-|_]; cbn [length]; [|lia].
      pose proof (taken_rows_nil _ _ _ Hnot) as Hnil. unfold taken_rows in Hnil.
      rewrite Hnil. simpl. lia.
    + rewrite Hstore. exact Hone.
  - intros faults request pk w student quiz_pk Htaken.
    destruct (serve_outcome faults request pk w) as [Hstore _].
    destruct (fst (serve faults request pk w)) as [[]|e]; cbn [store_outcome] in Hstore.
    + rewrite Hstore. exact Htaken.
    + rewrite Hstore. exact Htaken.
    + destruct Hstore as [answer ->]. exact Htaken.
    + destruct Hstore as (answer & score & -> & _).
      unfold student_quizzes_exists in *.
      cbn [taken_quizzes insert_taken_quiz insert_student_answer].
      rewrite existsb_app, Htaken. reflexivity.
    + rewrite Hstore. exact Htaken.
Qed.

Lemma C4_taken_quiz_is_final_witness :
  let w := play 1 [Scenario.post 11; Scenario.post 21] (Scenario.fresh 2) in
  snd (serve (Some 1%nat) (Scenario.post 11) 1 w) = w /\
  serve None (Scenario.post 11) 1 w = (Ok TakenQuizPage, w).
Proof.
  destruct C4_taken_quiz_is_final as [Hrefused _].
  destruct (Hrefused (Some 1%nat) (Scenario.post 11) 1
              (play 1 [Scenario.post 11; Scenario.post 21] (Scenario.fresh 2)))
    as [Hsame Hpage].
  - vm_compute. reflexivity.
  - split; [exact Hsame|]. apply (Hpage Scenario.quiz1). vm_compute. reflexivity.
Defined.

(** C5.  The view has no guard for a quiz without questions and no signal
    of an invalid quiz.  A request of a student for such a quiz that the
    student has not taken, whatever its method and its data, ends in
    [ZeroDivisionError], raised by the division of the progress indicator,
    and changes nothing.  The listing has the guard that the view misses:
    it does not offer the quiz. *)
Theorem C5_empty_quiz_divides_by_zero p request pk w quiz :
  accepts_key p pk = true ->
  Quiz_get (db w) pk = Some quiz ->
  quiz_questions (db w) quiz = [] ->
  student_quizzes_exists (db w) (req_student request) pk = false ->
  serve_on p None request pk w = (Raise ZeroDivisionError, w) /\
  ~ In quiz (QuizListView_get_queryset (db w) (req_student request)).
Proof.
  intros Hkey Hquiz Hempty Htaken. split.
  - unfold serve_on. rewrite (take_quiz_on_healthy _ _ _ _ _ Hkey Hquiz Htaken).
    unfold get_unanswered_questions. rewrite Hempty. reflexivity.
  - unfold QuizListView_get_queryset. intros Hin.
    apply filter_In in Hin as [_ Hcount]. rewrite Hempty in Hcount. discriminate Hcount.
Qed.

Lemma C5_empty_quiz_divides_by_zero_witness :
  let w := Scenario.fresh 0 in
  (serve_on default_limits None Scenario.get 1 w = (Raise ZeroDivisionError, w) /\
   ~ In Scenario.quiz1 (QuizListView_get_queryset (db w) 7)) /\
  (serve_on default_limits None (Scenario.post 11) 1 w = (Raise ZeroDivisionError, w) /\
   ~ In Scenario.quiz1 (QuizListView_get_queryset (db w) 7)).
Proof.
  intros w. split.
  - apply (C5_empty_quiz_divides_by_zero default_limits Scenario.get 1 w Scenario.quiz1);
      vm_compute; reflexivity.
  - apply (C5_empty_quiz_divides_by_zero default_limits (Scenario.post 11) 1 w Scenario.quiz1);
      vm_compute; reflexivity.
Defined.

(** C6.  A POST whose answer id is not one of the current question's
    answers is rejected: the form page is rendered again with the bound
    form, and nothing is written, under any fault of the store: no student
    answer, no taken quiz, no session value, no message. *)
Theorem C6_invalid_answer_rejected faults request pk w quiz question rest :
  Quiz_get (db w) pk = Some quiz ->
  student_quizzes_exists (db w) (req_student request) pk = false ->
  get_unanswered_questions (db w) (req_student request) quiz = question :: rest ->
  req_method request = "POST" ->
  (forall a, In a (question_answers (db w) question) ->
             req_POST request <> Some (answer_id a)) ->
  snd (serve faults request pk w) = w /\
  exists progress,
    serve None request pk w =
    (Ok (TakeQuizFormPage quiz question (bound_form question request) progress), w).
Proof.
  intros Hquiz Htaken Hcur Hpost Hforeign.
  pose proof (form_clean_None _ _ _ Hforeign) as Hinvalid. split.
  - destruct (serve_outcome faults request pk w) as [_ [Hsame|Hvalid]]; [exact Hsame|].
    destruct Hvalid as (_ & _ & quiz' & question' & answer & Hquiz' & Hhead & Hclean).
    rewrite Hquiz in Hquiz'. injection Hquiz' as <-.
    rewrite Hcur in Hhead. injection Hhead as <-. congruence.
  - destruct (serve_form_page request pk w quiz question rest Hquiz Htaken Hcur
                (or_intror Hinvalid)) as (progress & _ & Hserve).
    exists progress. rewrite Hserve, Hpost. reflexivity.
Qed.

Lemma C6_invalid_answer_rejected_witness :
  snd (serve (Some 9%nat) (Scenario.post 21) 1 (Scenario.fresh 2)) = Scenario.fresh 2 /\
  exists progress,
    serve None (Scenario.post 21) 1 (Scenario.fresh 2) =
    (Ok (TakeQuizFormPage Scenario.quiz1 {| question_id := 1; question_quiz := 1 |}
           (bound_form {| question_id := 1; question_quiz := 1 |} (Scenario.post 21))
           progress), Scenario.fresh 2).
Proof.
  apply (C6_invalid_answer_rejected (Some 9%nat) (Scenario.post 21) 1 (Scenario.fresh 2)
           Scenario.quiz1 {| question_id := 1; question_quiz := 1 |}
           [{| question_id := 2; question_quiz := 1 |}]).
  - vm_compute. reflexivity.
  - vm_compute. reflexivity.
  - vm_compute. reflexivity.
  - reflexivity.
  - intros a [<-|[<-|[]]]; vm_compute; discriminate.
Defined.

(** C7.  The writes of a submission are all or nothing.  Under every fault
    plan of the store a request that ends in an error leaves the store as it
    found it, and a request that ends normally has written nothing, or the
    student's answer, or the student's answer together with the taken quiz;
    and a processed submission, when it does not fail, has written the
    student's answer, and the taken quiz with it exactly when it answered
    the last question. *)
Theorem C7_submission_is_atomic :
  (forall faults request pk w,
      let student := req_student request in
      let d' := db (snd (serve faults request pk w)) in
      match fst (serve faults request pk w) with
      | Raise _ => d' = db w
      | Ok (RedirectTakeQuiz _) =>
          exists answer,
            d' = insert_student_answer {| sa_student := student; sa_answer := answer |} (db w)
      | Ok RedirectQuizList =>
          exists answer score,
            d' = insert_taken_quiz
                   {| tq_student := student; tq_quiz := pk; tq_score := score |}
                   (insert_student_answer {| sa_student := student; sa_answer := answer |}
                                          (db w))
      | Ok _ => d' = db w
      end) /\
  (forall faults request pk w quiz question rest answer correct,
      submission request pk w quiz question rest answer correct ->
      let student := req_student request in
      let d' := db (snd (serve faults request pk w)) in
      let d1 := insert_student_answer
                  {| sa_student := student; sa_answer := answer_id answer |} (db w) in
      match fst (serve faults request pk w) with
      | Raise _ => d' = db w
      | Ok _ =>
          match rest with
          | _ :: _ => d' = d1
          | [] => exists score,
                    d' = insert_taken_quiz
                           {| tq_student := student; tq_quiz := pk; tq_score := score |} d1
          end
      end).
Proof.
  split.
  - intros faults request pk w. cbv zeta.
    destruct (serve_outcome faults request pk w) as [Hstore _].
    destruct (fst (serve faults request pk w)) as [[]|e]; cbn [store_outcome] in Hstore;
      try exact Hstore.
    destruct Hstore as (answer & score & Hd & _). eauto.
  - intros faults request pk w quiz question rest answer correct Hsub. cbv zeta.
    pose proof (wp_serve _ faults request pk w
                  (take_quiz_submission _ _ _ _ _ _ _ _ Hsub)) as H.
    cbv beta zeta in H.
    destruct (fst (serve faults request pk w)) as [response|e]; [|exact H].
    destruct rest as [|q l]; [destruct H as [_ H]; exact H|destruct H as [_ H]; exact H].
Qed.

Lemma C7_submission_is_atomic_witness :
  db (snd (serve (Some 8%nat) (Scenario.post 11) 1 (Scenario.fresh 2))) =
    db (Scenario.fresh 2) /\
  db (snd (serve (Some 20%nat) (Scenario.post 11) 1 (Scenario.fresh 2))) =
    insert_student_answer {| sa_student := 7; sa_answer := 11 |} (db (Scenario.fresh 2)).
Proof.
  destruct C7_submission_is_atomic as [_ Hatomic].
  assert (Hsub : submission (Scenario.post 11) 1 (Scenario.fresh 2) Scenario.quiz1
                   {| question_id := 1; question_quiz := 1 |}
                   [{| question_id := 2; question_quiz := 1 |}]
                   {| answer_id := 11; answer_question := 1; answer_is_correct := true |}
                   {| answer_id := 11; answer_question := 1; answer_is_correct := true |})
    by (constructor; try (vm_compute; reflexivity); decide_by_computation).
  split.
  - exact (Hatomic (Some 8%nat) _ _ _ _ _ _ _ _ Hsub).
  - exact (Hatomic (Some 20%nat) _ _ _ _ _ _ _ _ Hsub).
Defined.



(** C9.  When the form page is displayed, for a GET or for a POST that is
    rejected, on a quiz with a current question (hence with a positive number
    of questions), its progress indicator is
    [100 - round(((unanswered_count - 1) / total_questions) * 100)], with the
    two counts taken on the store as the request finds it; and the rest of
    the view does not depend on the indicator: whatever its value, the world
    the request leaves and the response, the indicator apart, are the same. *)
Theorem C9_progress_indicator :
  (forall request pk w quiz question rest,
      Quiz_get (db w) pk = Some quiz ->
      student_quizzes_exists (db w) (req_student request) pk = false ->
      get_unanswered_questions (db w) (req_student request) quiz = question :: rest ->
      req_method request <> "POST" \/
      (forall a, In a (question_answers (db w) question) ->
                 req_POST request <> Some (answer_id a)) ->
      let unanswered_count :=
        Z.of_nat (length (get_unanswered_questions (db w) (req_student request) quiz)) in
      let total_questions := Z.of_nat (length (quiz_questions (db w) quiz)) in
      exists ratio k form,
        0 < total_questions /\
        int_true_div (unanswered_count - 1) total_questions = Ok ratio /\
        py_round (float_mul ratio (float_of_int 100)) = Ok k /\
        serve None request pk w = (Ok (TakeQuizFormPage quiz question form (100 - k)), w)) /\
  (forall request pk quiz student total_questions question progress progress' state,
      snd (respond request pk quiz student total_questions progress question state) =
      snd (respond request pk quiz student total_questions progress' question state) /\
      forget_progress
        (fst (respond request pk quiz student total_questions progress question state)) =
      forget_progress
        (fst (respond request pk quiz student total_questions progress' question state))).
Proof.
  split.
  - intros request pk w quiz question rest Hquiz Htaken Hcur Hshow. cbv zeta.
    assert (Hshow' : req_method request <> "POST" \/
                     form_clean (db w) (bound_form question request) = None).
    { destruct Hshow as [Hget|Hforeign]; [left; exact Hget|].
      right. apply form_clean_None. exact Hforeign. }
    destruct (serve_form_page request pk w quiz question rest Hquiz Htaken Hcur Hshow')
      as (progress & Hprogress & Hserve).
    unfold compute_progress in Hprogress.
    destruct (int_true_div _ _) as [ratio|e] eqn:Hratio; [|discriminate].
    destruct (py_round _) as [k|e] eqn:Hk; [|discriminate].
    injection Hprogress as <-.
    exists ratio, k. eexists. split; [|split; [reflexivity|split; [exact Hk|exact Hserve]]].
    pose proof (unanswered_le_total (db w) (req_student request) quiz) as Hu.
    rewrite Hcur in Hu. simpl in Hu. lia.
  - intros. apply respond_ignores_progress.
Qed.

Lemma C9_progress_indicator_witness :
  let w := play 1 [Scenario.post 11] (Scenario.fresh 3) in
  exists ratio k form,
    0 < Z.of_nat (length (quiz_questions (db w) Scenario.quiz1)) /\
    int_true_div
      (Z.of_nat (length (get_unanswered_questions (db w) 7 Scenario.quiz1)) - 1)
      (Z.of_nat (length (quiz_questions (db w) Scenario.quiz1))) = Ok ratio /\
    py_round (float_mul ratio (float_of_int 100)) = Ok k /\
    serve None Scenario.get 1 w =
    (Ok (TakeQuizFormPage Scenario.quiz1 {| question_id := 2; question_quiz := 1 |}
           form (100 - k)), w).
Proof.
  destruct C9_progress_indicator as [Hshown _].
  apply (Hshown Scenario.get 1 (play 1 [Scenario.post 11] (Scenario.fresh 3)) Scenario.quiz1
           {| question_id := 2; question_quiz := 1 |}
           [{| question_id := 3; question_quiz := 1 |}]).
  - vm_compute. reflexivity.
  - vm_compute. reflexivity.
  - vm_compute. reflexivity.
  - left. vm_compute. discriminate.
Defined.

(** C10.  A GET request, as any request that is not a POST, changes nothing:
    not the store, not the session, not the messages, under any fault of the
    store; and for a quiz the student has not taken it renders the current
    unanswered question with an unbound form. *)
Theorem C10_get_is_read_only faults request pk w :
  req_method request <> "POST" ->
  snd (serve faults request pk w) = w /\
  (forall quiz question rest,
      Quiz_get (db w) pk = Some quiz ->
      student_quizzes_exists (db w) (req_student request) pk = false ->
      get_unanswered_questions (db w) (req_student request) quiz = question :: rest ->
      exists progress,
        serve None request pk w =
        (Ok (TakeQuizFormPage quiz question (unbound_form question) progress), w)).
Proof.
  intros Hget. split.
  - destruct (serve_outcome faults request pk w) as [_ [Hsame|Hvalid]]; [exact Hsame|].
    destruct Hvalid as (Hpost & _). contradiction.
  - intros quiz question rest Hquiz Htaken Hcur.
    destruct (serve_form_page request pk w quiz question rest Hquiz Htaken Hcur
                (or_introl Hget)) as (progress & _ & Hserve).
    exists progress. rewrite Hserve.
    destruct (String.eqb_spec (req_method request) "POST"); [contradiction|reflexivity].
Qed.

Lemma C10_get_is_read_only_witness :
  let w := play 1 [Scenario.post 11] (Scenario.fresh 3) in
  snd (serve (Some 3%nat) Scenario.get 1 w) = w /\
  exists progress,
    serve None Scenario.get 1 w =
    (Ok (TakeQuizFormPage Scenario.quiz1 {| question_id := 2; question_quiz := 1 |}
           (unbound_form {| question_id := 2; question_quiz := 1 |}) progress), w).
Proof.
  destruct (C10_get_is_read_only (Some 3%nat) Scenario.get 1
              (play 1 [Scenario.post 11] (Scenario.fresh 3))) as [Hsame Hpage].
  - vm_compute. discriminate.
  - split; [exact Hsame|].
    apply (Hpage Scenario.quiz1 {| question_id := 2; question_quiz := 1 |}
             [{| question_id := 3; question_quiz := 1 |}]); vm_compute; reflexivity.
Defined.

(** * Further properties of the views *)

(** ** What a request can touch

    A property of the world that holds before a request and is kept by each
    of the view's writes holds after the request, whatever the faults of the
    store: the writes are the answer row of a valid submission, the taken-quiz
    row, the two session values of the quiz, the messages, and the rollback
    to the store the request started on. *)

Section Footprint.

Variable request : HttpRequest.
Variable pk : Z.
Variable w : world.
Variable R : world -> Prop.

Hypothesis R_start : R w.
Hypothesis R_answer :
  forall quiz question answer,
    Quiz_get (db w) pk = Some quiz ->
    student_quizzes_exists (db w) (req_student request) pk = false ->
    head (get_unanswered_questions (db w) (req_student request) quiz) = Some question ->
    form_clean (db w) (bound_form question request) = Some answer ->
    R (set_db (insert_student_answer (answer_row (req_student request) answer) (db w)) w).
Hypothesis R_taken :
  forall w1 score,
    R w1 ->
    R (set_db (insert_taken_quiz {| tq_student := req_student request; tq_quiz := pk;
                                    tq_score := score |} (db w1)) w1).
Hypothesis R_session :
  forall w1 quiz key value,
    Quiz_get (db w) pk = Some quiz ->
    key = temp_score_name quiz \/ key = next_exponent_name quiz ->
    R w1 -> R (set_session (<[key := value]> (session w1)) w1).
Hypothesis R_message : forall w1 m, R w1 -> R (add_message m w1).
Hypothesis R_rollback : forall w1, R w1 -> R (set_db (db w) w1).

Lemma take_quiz_keeps : wp (take_quiz request pk) (fun _ w' => R w') w.
Proof.
  unfold take_quiz, get_object_or_404_Quiz.
  apply wp_bind. apply wp_bind_query; [|exact R_start].
  destruct (Quiz_get (db w) pk) as [quiz|] eqn:Hquiz;
    [apply wp_ret|apply wp_raise; exact R_start].
  apply wp_bind_query; [|exact R_start].
  destruct (student_quizzes_exists (db w) (req_student request) pk) eqn:Htaken;
    [apply wp_ret; exact R_start|].
  apply wp_bind_query; [|exact R_start]. apply wp_bind_query; [|exact R_start].
  apply wp_bind_lift. destruct (compute_progress _ _) as [progress|e]; [|exact R_start].
  apply wp_bind_query; [|exact R_start].
  unfold respond.
  destruct (String.eqb (req_method request) "POST") eqn:Hmethod.
  2:{ destruct (head _) as [question|]; cbn [TakeQuizForm_init];
        [apply wp_bind, wp_ret, wp_ret|apply wp_bind, wp_raise]; exact R_start. }
  destruct (head (get_unanswered_questions (db w) (req_student request) quiz))
    as [question|] eqn:Hhead; cbn [TakeQuizForm_init];
    [|apply wp_bind, wp_raise; exact R_start].
  apply wp_bind. apply wp_ret. apply wp_bind_query; [|exact R_start].
  fold (bound_form question request).
  destruct (form_clean (db w) (bound_form question request)) as [answer|] eqn:Hclean;
    [|apply wp_ret; exact R_start].
  pose proof (R_answer quiz question answer eq_refl eq_refl Hhead Hclean) as Hsaved.
  pose proof (Quiz_get_id _ _ _ Hquiz) as Hid.
  pose proof (fun w1 value => R_session w1 quiz _ value eq_refl (or_introl eq_refl)) as Hts.
  pose proof (fun w1 value => R_session w1 quiz _ value eq_refl (or_intror eq_refl)) as Hne.
  pose proof (session_names_differ quiz) as Hdiff.
  assert (Hdiff' : next_exponent_name quiz <> temp_score_name quiz) by (intros E; auto).
  apply wp_atomic. unfold submit, Answer_objects_get.
  assert (Hrb : forall (r : result HttpResponse) w1,
             R w1 -> match r with
                     | Ok b => R w1 /\ R (set_db (db w) w1)
                     | Raise _ => R (set_db (db w) w1)
                     end) by (intros [b|e] w1 H1; auto).
  apply wp_bind_execute; [|apply (Hrb (Raise DatabaseError)); exact R_start].
  fold (answer_row (req_student request) answer).
  set (w0 := set_db _ w) in *.
  apply wp_bind. apply wp_bind_query; [|apply (Hrb (Raise DatabaseError)); exact Hsaved].
  apply wp_lift.
  destruct (Answer_get_correct (db w0) (question_id (form_question (bound_form question request))))
    as [correct|e]; [|apply (Hrb (Raise e)); exact Hsaved].
  apply wp_bind_session_get, wp_bind_session_setitem.
  apply wp_bind_session_get, wp_bind_session_setitem.
  set (temp_score := match session w0 !! temp_score_name quiz with Some v => v | None => 0 end).
  set (w2 := set_session _ (set_session _ w0)).
  assert (H2 : R w2) by (apply Hts, Hts, Hsaved).
  clearbody w2. clear Hsaved.
  set (next_exponent := match session _ !! next_exponent_name quiz with
                        | Some v => v | None => 1 end).
  clearbody temp_score next_exponent.
  apply wp_bind.
  assert (Htail : forall w3, R w3 ->
            wp (number_correct <- query (fun d => correct_answers_count d (req_student request) quiz) ;;
                more <- query (fun d => match get_unanswered_questions d (req_student request) quiz with
                                        | [] => false
                                        | _ :: _ => true
                                        end) ;;
                if more : bool then ret (RedirectTakeQuiz pk)
                else
                  correct_answers <- query (fun d => correct_answers_count d (req_student request) quiz) ;;
                  score <- lift (compute_score correct_answers
                                   (Z.of_nat (length (quiz_questions (db w) quiz)))) ;;
                  execute (insert_taken_quiz
                             {| tq_student := req_student request; tq_quiz := quiz_id quiz;
                                tq_score := score |}) ;;
                  (if float_lt score (float_of_int 50) then
                     messages_warning (BetterLuckNextTime (quiz_name quiz) score)
                   else
                     messages_success (Congratulations (quiz_name quiz) score)) ;;
                  ret RedirectQuizList)
               (fun r w1 => match r with
                            | Ok b => R w1 /\ R (set_db (db w) w1)
                            | Raise _ => R (set_db (db w) w1)
                            end) w3).
  { intros w3 H3.
    apply wp_bind_query; [|apply (Hrb (Raise DatabaseError)); exact H3].
    apply wp_bind_query; [|apply (Hrb (Raise DatabaseError)); exact H3].
    destruct (get_unanswered_questions (db w3) (req_student request) quiz);
      [|apply wp_ret; apply (Hrb (Ok (RedirectTakeQuiz pk))); exact H3].
    apply wp_bind_query; [|apply (Hrb (Raise DatabaseError)); exact H3].
    apply wp_bind_lift.
    destruct (compute_score _ _) as [score|e]; [|apply (Hrb (Raise e)); exact H3].
    apply wp_bind_execute; [|apply (Hrb (Raise DatabaseError)); exact H3].
    rewrite Hid.
    destruct (float_lt score (float_of_int 50));
      [apply wp_bind_messages_warning|apply wp_bind_messages_success];
      apply wp_ret; apply (Hrb (Ok RedirectQuizList)); apply R_message, R_taken, H3. }
  match goal with |- context [if ?c then _ else _] => destruct c end.
  all: apply wp_bind_session_setitem, wp_bind_session_setitem, wp_bind_session_getitem.
  all: wsimpl; rewrite lookup_insert_ne by exact Hdiff'; rewrite lookup_insert_eq.
  all: apply wp_messages_warning; apply Htail; apply R_message.
  all: apply (Hne (set_session _ w2)), Hts, H2.
Qed.

End Footprint.

(** ** Requests that end in an error *)

Lemma world_eta w : {| db := db w; session := session w; messages := messages w |} = w.
Proof. destruct w. reflexivity. Qed.

(** A valid submission for a question whose correct answer cannot be
    fetched changes nothing, whatever the faults of the store. *)
Lemma blocked_question_unchanged faults request pk w quiz question rest answer e :
  Quiz_get (db w) pk = Some quiz ->
  student_quizzes_exists (db w) (req_student request) pk = false ->
  get_unanswered_questions (db w) (req_student request) quiz = question :: rest ->
  req_method request = "POST" ->
  form_clean (db w) (bound_form question request) = Some answer ->
  Answer_get_correct (db w) (question_id question) = Raise e ->
  snd (serve faults request pk w) = w /\
  (fst (serve faults request pk w) = Raise e \/
   fst (serve faults request pk w) = Raise DatabaseError).
Proof.
  intros Hquiz Htaken Hcur Hpost Hclean Hget.
  destruct (compute_progress_current _ _ _ _ _ Hcur) as [progress Hprogress].
  apply (wp_serve (fun r w' => w' = w /\ (r = Raise e \/ r = Raise DatabaseError))
           faults request pk w).
  unfold take_quiz, get_object_or_404_Quiz.
  apply wp_bind. apply wp_bind_query; [|auto]. rewrite Hquiz. apply wp_ret.
  apply wp_bind_query; [|auto]. rewrite Htaken.
  apply wp_bind_query; [|auto]. apply wp_bind_query; [|auto].
  apply wp_bind_lift. rewrite Hprogress.
  apply wp_bind_query; [|auto]. rewrite Hcur.
  unfold respond. rewrite Hpost, String.eqb_refl. cbn [head TakeQuizForm_init].
  apply wp_bind. apply wp_ret. apply wp_bind_query; [|auto].
  fold (bound_form question request). rewrite Hclean.
  unfold bound_form. cbn [form_question].
  apply wp_atomic. unfold submit, Answer_objects_get.
  apply wp_bind_execute; [|wsimpl; rewrite world_eta; auto].
  apply wp_bind. apply wp_bind_query; [|wsimpl; rewrite world_eta; auto].
  apply wp_lift. wsimpl. rewrite Answer_get_correct_insert_sa, Hget.
  wsimpl. rewrite world_eta. auto.
Qed.

(** X2.  A question that has no answer marked correct, or more than one,
    cannot be answered: every valid submission for it ends in the error of
    [Answer.objects.get] ([DoesNotExist] or [MultipleObjectsReturned]), or in
    the store's error when the store fails; the saved answer is rolled back
    and the session and the messages are untouched, so the question stays
    the current one. *)
Theorem question_without_one_correct_answer_blocks
    faults request pk w quiz question rest answer e :
  Quiz_get (db w) pk = Some quiz ->
  student_quizzes_exists (db w) (req_student request) pk = false ->
  get_unanswered_questions (db w) (req_student request) quiz = question :: rest ->
  req_method request = "POST" ->
  form_clean (db w) (bound_form question request) = Some answer ->
  Answer_get_correct (db w) (question_id question) = Raise e ->
  (e = DoesNotExist \/ e = MultipleObjectsReturned) /\
  serve None request pk w = (Raise e, w) /\
  snd (serve faults request pk w) = w /\
  (fst (serve faults request pk w) = Raise e \/
   fst (serve faults request pk w) = Raise DatabaseError).
Proof.
  intros Hquiz Htaken Hcur Hpost Hclean Hget.
  destruct (compute_progress_current _ _ _ _ _ Hcur) as [progress Hprogress].
  split; [|split].
  - unfold Answer_get_correct in Hget.
    destruct (List.filter _ (answers (db w))) as [|a [|b l]]; inversion Hget; auto.
  - unfold serve.
    rewrite (take_quiz_healthy _ _ _ _ Hquiz Htaken), Hprogress, Hcur.
    unfold respond. rewrite Hpost, String.eqb_refl.
    cbn [TakeQuizForm_init head]. rewrite bind_ret, bind_query.
    fold (bound_form question request). rewrite Hclean.
    erewrite atomic_Raise.
    2:{ unfold submit, Answer_objects_get. rewrite bind_execute, bind_assoc, bind_query.
        wsimpl. rewrite Answer_get_correct_insert_sa.
        unfold bound_form. cbn [form_question]. rewrite Hget. reflexivity. }
    wsimpl. rewrite world_eta. reflexivity.
  - exact (blocked_question_unchanged faults request pk w quiz question rest answer e
             Hquiz Htaken Hcur Hpost Hclean Hget).
Qed.

Lemma question_without_one_correct_answer_blocks_witness :
  let w := {| db := {| quizzes := [Scenario.quiz1];
                       questions := [{| question_id := 1; question_quiz := 1 |}];
                       answers := [{| answer_id := 11; answer_question := 1;
                                      answer_is_correct := true |};
                                   {| answer_id := 12; answer_question := 1;
                                      answer_is_correct := true |}];
                       student_answers := []; taken_quizzes := []; interests := [] |};
              session := ∅; messages := [] |} in
  (MultipleObjectsReturned = DoesNotExist \/
   MultipleObjectsReturned = MultipleObjectsReturned) /\
  serve None (Scenario.post 12) 1 w = (Raise MultipleObjectsReturned, w) /\
  snd (serve (Some 7%nat) (Scenario.post 12) 1 w) = w /\
  (fst (serve (Some 7%nat) (Scenario.post 12) 1 w) = Raise MultipleObjectsReturned \/
   fst (serve (Some 7%nat) (Scenario.post 12) 1 w) = Raise DatabaseError).
Proof.
  intros w.
  apply (question_without_one_correct_answer_blocks (Some 7%nat) (Scenario.post 12) 1 w
           Scenario.quiz1 {| question_id := 1; question_quiz := 1 |} []
           {| answer_id := 12; answer_question := 1; answer_is_correct := true |}
           MultipleObjectsReturned); vm_compute; reflexivity.
Defined.

(** ** The running score of an attempt *)

(** X3.  The running score of an attempt is the scoring rule folded over
    the answers in the order they are posted.  A student posts, one request
    after the other, an answer of each of the first unanswered questions, on
    a session whose streak exponent is not negative.  The requests are all
    processed exactly when every running score on the way is within the
    digits that [str] converts; then the session ends with the running score
    and the streak exponent obtained by applying the rule to the marks of
    the posted answers in turn, the answers are saved in that order, and the
    questions after them are the ones left unanswered. *)
Theorem running_score_follows_the_answers p pk quiz student picked current later w :
  Quiz_get (db w) pk = Some quiz ->
  student_quizzes_exists (db w) student pk = false ->
  store_ok (db w) ->
  answered_once (db w) student quiz ->
  get_unanswered_questions (db w) student quiz = current ++ later ->
  Forall2 (answerable (db w)) current picked ->
  accepts_key p pk = true ->
  0 <= snd (session_state (session w) quiz) ->
  let requests := map (post_answer student) picked in
  let marks := map answer_is_correct picked in
  (Forall is_Ok (responses_on p pk requests w) <->
   Forall (printable p) (scores_along marks (session_state (session w) quiz))) /\
  (Forall is_Ok (responses_on p pk requests w) ->
   session_state (session (play_on p pk requests w)) quiz =
     score_run marks (session_state (session w) quiz) /\
   student_answers (db (play_on p pk requests w)) =
     student_answers (db w) ++ map (answer_row student) picked /\
   get_unanswered_questions (db (play_on p pk requests w)) student quiz = later).
Proof.
  intros Hquiz Htaken Hstore Honce Hcur Hpicked Hkey _.
  destruct (play_on_posts p pk quiz student picked current later w Hquiz Htaken Hstore Honce
              Hcur Hpicked Hkey) as [Hsame Hprintable].
  destruct (play_posts pk quiz student picked current later w Hquiz Htaken Hstore Honce
              Hcur Hpicked) as (Hr & Hs & Ha & Hu & _).
  cbv zeta in *. split; [split|].
  - exact Hprintable.
  - intros Hall. destruct (Hsame Hall) as [_ ->]. exact Hr.
  - intros HOk. destruct (Hsame (Hprintable HOk)) as [-> _]. auto.
Qed.

Lemma running_score_follows_the_answers_witness :
  let picked := [{| answer_id := 11; answer_question := 1; answer_is_correct := true |};
                 {| answer_id := 22; answer_question := 2; answer_is_correct := false |};
                 {| answer_id := 31; answer_question := 3; answer_is_correct := true |}] in
  let requests := map (post_answer 7) picked in
  let w := Scenario.fresh 4 in
  Forall is_Ok (responses_on default_limits 1 requests w) /\
  session_state (session (play_on default_limits 1 requests w)) Scenario.quiz1 =
    score_run (map answer_is_correct picked) (session_state (session w) Scenario.quiz1) /\
  student_answers (db (play_on default_limits 1 requests w)) =
    student_answers (db w) ++ map (answer_row 7) picked /\
  get_unanswered_questions (db (play_on default_limits 1 requests w)) 7 Scenario.quiz1 =
    [{| question_id := 4; question_quiz := 1 |}].
Proof.
  intros picked requests w.
  destruct (running_score_follows_the_answers default_limits 1 Scenario.quiz1 7 picked
              [{| question_id := 1; question_quiz := 1 |};
               {| question_id := 2; question_quiz := 1 |};
               {| question_id := 3; question_quiz := 1 |}]
              [{| question_id := 4; question_quiz := 1 |}] w) as [[_ Hprocessed] Hrun].
  - vm_compute. reflexivity.
  - vm_compute. reflexivity.
  - decide_by_computation.
  - decide_by_computation.
  - vm_compute. reflexivity.
  - repeat (constructor; [split; [vm_compute; tauto|vm_compute; exact I]|]). constructor.
  - reflexivity.
  - vm_compute. discriminate.
  - assert (HOk : Forall is_Ok (responses_on default_limits 1 requests w)).
    { apply Hprocessed. repeat (constructor; [vm_compute; reflexivity|]). constructor. }
    split; [exact HOk|exact (Hrun HOk)].
Defined.



Lemma unanswered_all d student quiz :
  student_quiz_answers d student quiz = [] ->
  get_unanswered_questions d student quiz = quiz_questions d quiz /\
  correct_answers_count d student quiz = 0 /\
  answered_once d student quiz.
Proof.
  intros Hnone. unfold get_unanswered_questions, correct_answers_count, answered_once,
    answered_question_ids. rewrite Hnone. simpl. split; [|split; [reflexivity|constructor]].
  induction (quiz_questions d quiz) as [|q l IH]; simpl; [reflexivity|].
  rewrite IH. reflexivity.
Qed.



(** ** The names of the session values *)

Lemma temp_score_name_inj q1 q2 :
  temp_score_name q1 = temp_score_name q2 -> quiz_id q1 = quiz_id q2.
Proof.
  unfold temp_score_name, str. intros H. simpl in H.
  injection H as H. exact (inj pretty _ _ H).
Qed.

Lemma next_exponent_name_inj q1 q2 :
  next_exponent_name q1 = next_exponent_name q2 -> quiz_id q1 = quiz_id q2.
Proof.
  unfold next_exponent_name, str. intros H. simpl in H.
  injection H as H. exact (inj pretty _ _ H).
Qed.

Lemma session_names_apart q1 q2 : temp_score_name q1 <> next_exponent_name q2.
Proof. unfold temp_score_name, next_exponent_name. discriminate. Qed.

(** X6.  A request for a quiz writes no session value but the running score
    and the streak exponent of that quiz, under every fault plan: no key of
    the session is removed, every other key keeps its value, and so the
    running score and the streak of every other quiz are as they were. *)
Theorem session_of_other_quizzes_is_kept faults request pk w :
  let w' := snd (serve faults request pk w) in
  (forall key, is_Some (session w !! key) -> is_Some (session w' !! key)) /\
  (forall key,
      (forall quiz, Quiz_get (db w) pk = Some quiz ->
                    key <> temp_score_name quiz /\ key <> next_exponent_name quiz) ->
      session w' !! key = session w !! key) /\
  (forall other, quiz_id other <> pk ->
                 session_state (session w') other = session_state (session w) other).
Proof.
  cbv zeta.
  set (R := fun w1 : world =>
              (forall key, is_Some (session w !! key) -> is_Some (session w1 !! key)) /\
              (forall key,
                  (forall quiz, Quiz_get (db w) pk = Some quiz ->
                                key <> temp_score_name quiz /\ key <> next_exponent_name quiz) ->
                  session w1 !! key = session w !! key)).
  assert (HR : R (snd (serve faults request pk w))).
  { apply (wp_serve (fun _ w' => R w') faults request pk w).
    apply take_quiz_keeps; unfold R; try (intros; assumption); try tauto.
    intros w1 quiz key value Hquiz Hkey [Hkeep Hframe]. wsimpl. split.
    - intros k Hk. destruct (decide (key = k)) as [->|Hne].
      + rewrite lookup_insert_eq. eauto.
      + rewrite lookup_insert_ne by exact Hne. auto.
    - intros k Hk. destruct (Hk quiz Hquiz) as [Hk1 Hk2].
      rewrite lookup_insert_ne by (destruct Hkey; congruence). auto. }
  destruct HR as [Hkeep Hframe]. split; [exact Hkeep|]. split; [exact Hframe|].
  intros other Hother. unfold session_state.
  rewrite !Hframe; [reflexivity| |]; intros quiz Hquiz; apply Quiz_get_id in Hquiz; subst pk.
  - split; [|intros E%next_exponent_name_inj; auto].
    intros E. symmetry in E. exact (session_names_apart _ _ E).
  - split; [intros E%temp_score_name_inj; auto|apply session_names_apart].
Qed.

(** ** What the view does not read *)

Section Unaware.

Variable i : list (Z * Z).

Lemma unaware_ret {A} (a : A) : unaware (with_interests i) (ret a).
Proof. intros w faults. reflexivity. Qed.

Lemma unaware_raise {A} e : unaware (with_interests i) (@raise A e).
Proof. intros w faults. reflexivity. Qed.

Lemma unaware_lift {A} (r : result A) : unaware (with_interests i) (lift r).
Proof. intros w faults. reflexivity. Qed.

Lemma unaware_bind {A B} (m : M A) (k : A -> M B) :
  unaware (with_interests i) m -> (forall a, unaware (with_interests i) (k a)) ->
  unaware (with_interests i) (x <- m ;; k x).
Proof.
  intros Hm Hk w faults. unfold bind. rewrite Hm.
  destruct (m (w, faults)) as [[a|e] [w1 f1]]; cbn [fst snd]; [apply Hk|reflexivity].
Qed.

Lemma unaware_storage_step : unaware (with_interests i) storage_step.
Proof. intros w [[|n]|]; reflexivity. Qed.

Lemma unaware_query {A} (f : DB -> A) :
  (forall d, f (set_interests i d) = f d) -> unaware (with_interests i) (query f).
Proof.
  intros Hf. unfold query. apply unaware_bind; [apply unaware_storage_step|].
  intros _ w faults. unfold with_interests; cbn [fst snd set_db db]. rewrite Hf. reflexivity.
Qed.

Lemma unaware_execute (f : DB -> DB) :
  (forall d, f (set_interests i d) = set_interests i (f d)) ->
  unaware (with_interests i) (execute f).
Proof.
  intros Hf. unfold execute. apply unaware_bind; [apply unaware_storage_step|].
  intros _ w faults. unfold with_interests; cbn [fst snd set_db db session messages].
  rewrite Hf. reflexivity.
Qed.

Lemma unaware_atomic {A} (body : M A) :
  unaware (with_interests i) body -> unaware (with_interests i) (atomic body).
Proof.
  intros Hbody w faults. unfold atomic.
  assert (H : unaware (with_interests i) (a <- body ;; storage_step ;; ret a)).
  { apply unaware_bind; [exact Hbody|]. intros a.
    apply unaware_bind; [apply unaware_storage_step|]. intros _. apply unaware_ret. }
  rewrite H.
  destruct ((a <- body ;; storage_step ;; ret a) (w, faults)) as [[a|e] [w1 f1]];
    reflexivity.
Qed.

Lemma unaware_session_get key default : unaware (with_interests i) (session_get key default).
Proof. intros w faults. reflexivity. Qed.

Lemma unaware_session_setitem key value : unaware (with_interests i) (session_setitem key value).
Proof. intros w faults. reflexivity. Qed.

Lemma unaware_session_getitem key : unaware (with_interests i) (session_getitem key).
Proof.
  intros w faults. unfold session_getitem. unfold with_interests; cbn [fst set_db session].
  destruct (session w !! key); reflexivity.
Qed.

Lemma unaware_messages_warning text : unaware (with_interests i) (messages_warning text).
Proof. intros w faults. reflexivity. Qed.

Lemma unaware_messages_success text : unaware (with_interests i) (messages_success text).
Proof. intros w faults. reflexivity. Qed.

Ltac unaware_step :=
  first
    [ apply unaware_ret | apply unaware_raise | apply unaware_lift
    | apply unaware_query; reflexivity
    | apply unaware_execute; reflexivity
    | apply unaware_session_get | apply unaware_session_setitem
    | apply unaware_session_getitem
    | apply unaware_messages_warning | apply unaware_messages_success
    | apply unaware_atomic
    | apply unaware_bind; [|intros]
    | match goal with
      | |- unaware _ (if ?c then _ else _) => destruct c
      | |- unaware _ (match ?x with _ => _ end) => destruct x
      end ].

Lemma take_quiz_unaware request pk : unaware (with_interests i) (take_quiz request pk).
Proof.
  unfold take_quiz, get_object_or_404_Quiz, respond, TakeQuizForm_init, submit,
    Answer_objects_get.
  repeat unaware_step.
Qed.

End Unaware.

(** X7.  The view does not read the interests of the students: it answers
    a request with the same response and the same writes whatever the table
    of interests holds, under every fault plan, and leaves the table as it
    is.  So a student is served a quiz of a subject that is not among the
    student's interests, which the listing does not offer, like any other. *)
Theorem take_quiz_ignores_the_interests faults request pk w i :
  serve faults request pk (with_interests i w) =
  (fst (serve faults request pk w), with_interests i (snd (serve faults request pk w))).
Proof.
  unfold serve. rewrite (take_quiz_unaware i request pk w faults).
  destruct (take_quiz request pk (w, faults)) as [r [w1 f1]]. reflexivity.
Qed.

(** ** The two listings *)

Lemma taken_ids_exists d student pk :
  existsb (Z.eqb pk)
    (map tq_quiz (List.filter (fun t => tq_student t =? student) (taken_quizzes d))) =
  student_quizzes_exists d student pk.
Proof.
  unfold student_quizzes_exists.
  induction (taken_quizzes d) as [|t l IH]; simpl; [reflexivity|].
  destruct (tq_student t =? student); simpl; rewrite IH; [|reflexivity].
  rewrite (Z.eqb_sym pk). reflexivity.
Qed.

(** The quizzes on offer: those of the store that are of a subject of
    interest of the student, that the student has not taken, and that have a
    question. *)
Lemma QuizListView_In d student quiz :
  In quiz (QuizListView_get_queryset d student) <->
  In quiz (quizzes d) /\
  In (student, quiz_subject quiz) (interests d) /\
  student_quizzes_exists d student (quiz_id quiz) = false /\
  quiz_questions d quiz <> [].
Proof.
  unfold QuizListView_get_queryset. cbv zeta.
  rewrite !filter_In, taken_ids_exists, negb_true_iff, Z.ltb_lt.
  assert (Hint : existsb (Z.eqb (quiz_subject quiz))
                   (map snd (List.filter (fun i => fst i =? student) (interests d))) = true <->
                 In (student, quiz_subject quiz) (interests d)).
  { rewrite existsb_exists. split.
    - intros (s & Hs & E). apply Z.eqb_eq in E. subst s.
      apply in_map_iff in Hs as ([st s] & <- & Hin). apply filter_In in Hin as [Hin Hst].
      apply Z.eqb_eq in Hst. simpl in *. subst st. exact Hin.
    - intros Hin. exists (quiz_subject quiz). split; [|apply Z.eqb_refl].
      apply in_map_iff. exists (student, quiz_subject quiz). split; [reflexivity|].
      apply filter_In. split; [exact Hin|apply Z.eqb_refl]. }
  rewrite Hint.
  assert (Hlen : 0 < Z.of_nat (length (quiz_questions d quiz)) <-> quiz_questions d quiz <> [])
    by (destruct (quiz_questions d quiz); simpl; split; try lia; try congruence).
  rewrite Hlen. tauto.
Qed.

Lemma insert_by_Permutation {A} (le : A -> A -> bool) x l :
  Permutation (insert_by le x l) (x :: l).
Proof.
  induction l as [|y l IH]; simpl; [reflexivity|].
  destruct (le x y); [reflexivity|].
  rewrite IH. apply perm_swap.
Qed.

Lemma order_by_Permutation {A} (le : A -> A -> bool) l : Permutation (order_by le l) l.
Proof.
  induction l as [|x l IH]; simpl; [reflexivity|].
  rewrite insert_by_Permutation, IH. reflexivity.
Qed.

Lemma insert_by_Sorted {A} (le : A -> A -> bool) x l :
  (forall a b, le a b = true \/ le b a = true) ->
  Sorted (fun a b => le a b = true) l ->
  Sorted (fun a b => le a b = true) (insert_by le x l).
Proof.
  intros Htotal Hsorted. induction Hsorted as [|y l Hl IH Hhd]; simpl.
  - repeat constructor.
  - destruct (le x y) eqn:Hxy.
    + constructor; [constructor; assumption|constructor; exact Hxy].
    + constructor; [exact IH|].
      assert (Hyx : le y x = true) by (destruct (Htotal x y); congruence).
      destruct Hhd as [|z l' Hyz]; simpl; [constructor; exact Hyx|].
      destruct (le x z); constructor; assumption.
Qed.

Lemma order_by_Sorted {A} (le : A -> A -> bool) l :
  (forall a b, le a b = true \/ le b a = true) ->
  Sorted (fun a b => le a b = true) (order_by le l).
Proof.
  intros Htotal. induction l as [|x l IH]; simpl; [constructor|].
  apply insert_by_Sorted; assumption.
Qed.

Lemma student_taken_quizzes_In d student t quiz :
  In (t, quiz) (student_taken_quizzes d student) <->
  In t (taken_quizzes d) /\ tq_student t = student /\ Quiz_get d (tq_quiz t) = Some quiz.
Proof.
  unfold student_taken_quizzes. rewrite in_flat_map. split.
  - intros (t' & Hin & Hrow).
    destruct (Z.eqb_spec (tq_student t') student) as [Hst|_]; [|destruct Hrow].
    destruct (Quiz_get d (tq_quiz t')) as [quiz'|] eqn:Hquiz; [|destruct Hrow].
    destruct Hrow as [[= <- <-]|[]]. auto.
  - intros (Hin & Hst & Hquiz). exists t. split; [exact Hin|].
    rewrite Hst, Z.eqb_refl, Hquiz. left. reflexivity.
Qed.

(** X8.  The taken-quiz listing shows a student the student's own taken
    quizzes, each row once and with its quiz, and no row of another
    student, in the order of the quiz names: for every collation of the
    store that compares any two names. *)
Theorem taken_quiz_list_is_sorted_and_complete collation d student :
  (forall a b, collation a b = true \/ collation b a = true) ->
  let listed := TakenQuizListView_get_queryset collation d student in
  Sorted (fun r1 r2 => collation (quiz_name (snd r1)) (quiz_name (snd r2)) = true) listed /\
  Permutation listed (student_taken_quizzes d student) /\
  (forall t quiz,
      In (t, quiz) listed <->
      In t (taken_quizzes d) /\ tq_student t = student /\ Quiz_get d (tq_quiz t) = Some quiz).
Proof.
  intros Htotal. cbv zeta. unfold TakenQuizListView_get_queryset. split; [|split].
  - apply (order_by_Sorted
             (fun r1 r2 : TakenQuiz * Quiz => collation (quiz_name (snd r1)) (quiz_name (snd r2)))).
    intros a b. apply Htotal.
  - apply order_by_Permutation.
  - intros t quiz. rewrite <- student_taken_quizzes_In.
    split; apply Permutation_in; [|symmetry]; apply order_by_Permutation.
Qed.

Lemma taken_quiz_list_is_sorted_and_complete_witness :
  let d := {| quizzes := [{| quiz_id := 1; quiz_name := "Sets"; quiz_subject := 3 |};
                          {| quiz_id := 2; quiz_name := "Algebra"; quiz_subject := 3 |}];
              questions := []; answers := []; student_answers := [];
              taken_quizzes := [{| tq_student := 7; tq_quiz := 1; tq_score := float_of_int 50 |};
                                {| tq_student := 8; tq_quiz := 1; tq_score := float_of_int 0 |};
                                {| tq_student := 7; tq_quiz := 2; tq_score := float_of_int 100 |}];
              interests := [] |} in
  let listed := TakenQuizListView_get_queryset String.leb d 7 in
  Sorted (fun r1 r2 => String.leb (quiz_name (snd r1)) (quiz_name (snd r2)) = true) listed /\
  Permutation listed (student_taken_quizzes d 7) /\
  (forall t quiz,
      In (t, quiz) listed <->
      In t (taken_quizzes d) /\ tq_student t = 7 /\ Quiz_get d (tq_quiz t) = Some quiz).
Proof.
  intros d.
  apply (taken_quiz_list_is_sorted_and_complete String.leb d 7).
  apply String.leb_total.
Defined.

Lemma submission_facts request pk w quiz question rest answer correct :
  submission request pk w quiz question rest answer correct ->
  quiz_id quiz = pk /\ In answer (answers (db w)) /\
  answer_question answer = question_id question /\
  In quiz (quizzes (db w)).
Proof.
  intros [Hquiz Htaken Hcur Hpost Hvalid Hcorrect Hstore Honce].
  destruct (form_clean_Some _ _ _ Hvalid) as (Hin & Hq & _). cbn [form_question bound_form] in Hq.
  split; [exact (Quiz_get_id _ _ _ Hquiz)|]. split; [exact Hin|]. split; [exact Hq|].
  unfold Quiz_get in Hquiz. apply find_some in Hquiz as [H _]. exact H.
Qed.



(** ** Rounding does not pass an integer bound

    The quotient and the product of the progress and of the score are
    rounded to the nearest float; a bound that is an integer below
    [2 ^ 53], itself a float, is not passed by the rounding. *)

Module PyFloatBounds.

Lemma pow2_split e : e + 1 <= 0 -> 2 ^ (- e) = 2 * 2 ^ (- (e + 1)).
Proof.
  intros He. replace (- e) with (1 + - (e + 1)) by lia.
  rewrite Z.pow_add_r by lia. reflexivity.
Qed.

Lemma shr_1_below N r e :
  0 <= shr_m r -> e + 1 <= 0 ->
  below N (shr_m r) e (inexact_shr r) ->
  below N (shr_m (shr_1 r)) (e + 1) (inexact_shr (shr_1 r)).
Proof.
  destruct r as [m rb sb]. unfold below, inexact_shr. cbn [shr_m shr_r shr_s].
  intros Hm He [_ Hle]. split; [exact He|].
  rewrite (pow2_split e He) in Hle.
  set (X := N * 2 ^ (- (e + 1))) in *.
  replace (N * (2 * 2 ^ (- (e + 1)))) with (2 * X) in Hle by (unfold X; lia).
  clearbody X.
  destruct m as [|[p|p|]|p]; cbn [shr_1 shr_m shr_r shr_s orb]; try lia;
    destruct (rb || sb); lia.
Qed.

Lemma shr_1_nonneg r : 0 <= shr_m r -> 0 <= shr_m (shr_1 r).
Proof. intros H. rewrite shr_1_m by exact H. apply Z.div_pos; lia. Qed.

Lemma iter_shr_1_below N p :
  forall r e,
    0 <= shr_m r -> e + Z.pos p <= 0 ->
    below N (shr_m r) e (inexact_shr r) ->
    0 <= shr_m (SpecFloat.iter_pos shr_1 p r) /\
    below N (shr_m (SpecFloat.iter_pos shr_1 p r)) (e + Z.pos p)
          (inexact_shr (SpecFloat.iter_pos shr_1 p r)).
Proof.
  induction p as [p IH|p IH|]; intros r e Hm He Hb; simpl SpecFloat.iter_pos.
  - rewrite (Pos2Z.inj_xI p) in *.
    pose proof (shr_1_nonneg r Hm) as H1.
    pose proof (shr_1_below N r e Hm ltac:(lia) Hb) as B1.
    destruct (IH _ (e + 1) H1 ltac:(lia) B1) as [H2 B2].
    destruct (IH _ (e + 1 + Z.pos p) H2 ltac:(lia) B2) as [H3 B3].
    replace (e + (2 * Z.pos p + 1)) with (e + 1 + Z.pos p + Z.pos p) by lia. auto.
  - rewrite (Pos2Z.inj_xO p) in *.
    destruct (IH _ e Hm ltac:(lia) Hb) as [H2 B2].
    destruct (IH _ (e + Z.pos p) H2 ltac:(lia) B2) as [H3 B3].
    replace (e + 2 * Z.pos p) with (e + Z.pos p + Z.pos p) by lia. auto.
  - split; [apply shr_1_nonneg; exact Hm|apply shr_1_below; auto].
Qed.

Lemma inexact_shr_of_loc m l : inexact_shr (shr_record_of_loc m l) = inexact_loc l.
Proof. destruct l as [|[]]; reflexivity. Qed.

(** A number at most [N < 2 ^ 53] has at most 53 digits before the binary
    point. *)
Lemma below_digits N m e i :
  0 <= m -> N < 2 ^ prec -> below N m e i -> Zdigits2 m + e <= prec.
Proof.
  intros Hm HN [He Hle].
  assert (Hm' : m <= N * 2 ^ (- e)) by (destruct i; lia).
  assert (Hpow : 0 < 2 ^ (- e)) by (apply Z.pow_pos_nonneg; lia).
  assert (Hlt : m < 2 ^ (prec - e)).
  { replace (prec - e) with (prec + - e) by lia.
    rewrite Z.pow_add_r by (unfold prec; lia). nia. }
  apply Zdigits2_le in Hlt; [lia|exact Hm|unfold prec; lia].
Qed.

Lemma shr_fexp_below N m e l :
  0 <= m -> N < 2 ^ prec ->
  below N m e (inexact_loc l) ->
  let '(r, e') := shr_fexp prec emax m e l in
  0 <= shr_m r /\ below N (shr_m r) e' (inexact_shr r).
Proof.
  intros Hm HN Hb. pose proof (below_digits N m e _ Hm HN Hb) as Hd.
  unfold shr_fexp, shr.
  destruct (fexp prec emax (Zdigits2 m + e) - e) as [|n|n] eqn:En;
    try (rewrite shr_m_of_loc, inexact_shr_of_loc; auto).
  apply iter_shr_1_below.
  - rewrite shr_m_of_loc. exact Hm.
  - rewrite <- En. fl.
  - rewrite shr_m_of_loc, inexact_shr_of_loc. exact Hb.
Qed.

Lemma round_nearest_even_below N r e :
  below N (shr_m r) e (inexact_shr r) ->
  below N (round_nearest_even (shr_m r) (loc_of_shr_record r)) e false.
Proof.
  destruct r as [m rb sb]. unfold below, inexact_shr. cbn [shr_m shr_r shr_s].
  intros [He Hle]. split; [exact He|].
  destruct rb, sb; cbn [loc_of_shr_record round_nearest_even orb] in *;
    try destruct (Z.even m); lia.
Qed.

Lemma binary_round_aux_below N m e l :
  0 <= m -> N < 2 ^ prec ->
  below N m e (inexact_loc l) ->
  float_from_0_to N (binary_round_aux prec emax false m e l).
Proof.
  intros Hm HN Hb. unfold binary_round_aux.
  pose proof (shr_fexp_below N m e l Hm HN Hb) as H1.
  destruct (shr_fexp prec emax m e l) as [r1 e1]. destruct H1 as [Hm1 Hb1].
  pose proof (round_nearest_even_below N r1 e1 Hb1) as Hb2.
  pose proof (round_nearest_even_bound (shr_m r1) (loc_of_shr_record r1) Hm1) as [Hm2 _].
  pose proof (shr_fexp_below N _ e1 loc_Exact Hm2 HN Hb2) as H3.
  destruct (shr_fexp prec emax _ e1 loc_Exact) as [r3 e3]. destruct H3 as [Hm3 [He3 Hle3]].
  destruct (shr_m r3) as [|p|p]; [exact I| |lia].
  destruct (Z.leb_spec e3 (emax - prec)) as [_|Hgt]; [|fl].
  split; [exact He3|]. destruct (inexact_shr r3); lia.
Qed.

Lemma new_location_inexact nb k : inexact_loc (new_location nb k) = negb (k =? 0).
Proof.
  unfold new_location, new_location_even, new_location_odd.
  destruct (Z.even nb), (k =? 0); reflexivity.
Qed.

(** [a / b] is at most [N] when [a <= N * b]. *)
Lemma int_true_div_below a b N :
  0 <= a -> 0 < b -> a <= N * b -> N < 2 ^ prec ->
  exists q, int_true_div a b = Ok q /\ float_from_0_to N q.
Proof.
  intros Ha Hb Hab HN. unfold int_true_div.
  destruct (Z.eqb_spec b 0) as [|_]; [lia|].
  assert (Hq : float_from_0_to N (SFdiv prec emax (Z2SF a) (Z2SF b))).
  { destruct b as [|pb|pb]; try lia. destruct a as [|pa|pa]; try lia; [exact I|].
    unfold Z2SF, SFdiv, SFdiv_core_binary. cbn [xorb].
    set (e' := Z.min (fexp prec emax (Zdigits2 (Z.pos pa) + 0 - (Zdigits2 (Z.pos pb) + 0)))
                     (0 - 0)).
    set (s := 0 - 0 - e').
    set (m' := match s with
               | Z.pos _ => Z.shiftl (Z.pos pa) s | 0 => Z.pos pa | Z.neg _ => 0 end).
    assert (He' : e' <= 0) by (unfold e'; lia).
    assert (Hs : s = - e') by (unfold s; lia).
    assert (Hm' : m' = Z.pos pa * 2 ^ s).
    { unfold m'. destruct s as [|n|n] eqn:Es; [simpl; lia| |lia].
      apply Z.shiftl_mul_pow2. lia. }
    assert (Hpow : 0 < 2 ^ s) by (apply Z.pow_pos_nonneg; lia).
    pose proof (Z_div_mod m' (Z.pos pb) ltac:(lia)) as Hdm.
    destruct (Z.div_eucl m' (Z.pos pb)) as [q r] eqn:Eqr. destruct Hdm as [Hdm Hr].
    assert (Hq0 : 0 <= q) by nia.
    apply binary_round_aux_below; [exact Hq0|exact HN|].
    unfold below. rewrite new_location_inexact. split; [exact He'|].
    rewrite <- Hs.
    assert (Hbound : Z.pos pb * q + r <= N * 2 ^ s * Z.pos pb) by (rewrite <- Hdm, Hm'; nia).
    destruct (Z.eqb_spec r 0); cbn [negb]; nia. }
  destruct (SFdiv prec emax (Z2SF a) (Z2SF b)) as [s|s| |[] m e] eqn:E;
    try contradiction; eauto.
Qed.

Lemma float_mul_100_below x N :
  float_from_0_to N x -> 100 * N < 2 ^ prec ->
  float_from_0_to (100 * N) (float_mul x (float_of_int 100)).
Proof.
  intros Hx HN.
  change (float_of_int 100) with (S754_finite false 7036874417766400 (-46)).
  destruct x as [s|s| |[] m e]; try contradiction; [exact I|].
  destruct Hx as [He Hle]. unfold float_mul, SFmul. cbn [xorb].
  apply binary_round_aux_below; [lia|exact HN|].
  unfold below. cbn [inexact_loc]. split; [lia|].
  rewrite Pos2Z.inj_mul.
  replace (- (e + -46)) with (46 + - e) by lia.
  rewrite Z.pow_add_r by lia.
  change 7036874417766400 with (100 * 2 ^ 46).
  assert (0 < 2 ^ (- e)) by (apply Z.pow_pos_nonneg; lia). nia.
Qed.

(** Rounding to the nearest integer does not pass an integer bound. *)
Lemma round_half_even_below num den N :
  0 <= num -> 0 < den -> num <= N * den ->
  0 <= round_half_even num den <= N.
Proof.
  intros Hnum Hden Hle. unfold round_half_even.
  pose proof (Z.div_mod num den ltac:(lia)) as Hdm.
  pose proof (Z.mod_pos_bound num den Hden) as Hr.
  assert (Hq0 : 0 <= num / den) by (apply Z.div_pos; lia).
  assert (HqN : num / den <= N) by (apply Z.div_le_upper_bound; lia).
  destruct (Z.compare_spec (2 * (num mod den)) den) as [Heq|Hlt|Hgt];
    [destruct (Z.even (num / den))| |]; split; try lia; nia.
Qed.

Lemma py_round_below x N :
  float_from_0_to N x -> 0 <= N -> exists k, py_round x = Ok k /\ 0 <= k <= N.
Proof.
  intros Hx HN. destruct x as [s|s| |[] m e]; try contradiction.
  - exists 0. split; [reflexivity|lia].
  - destruct Hx as [He Hle]. unfold py_round. eexists. split; [reflexivity|].
    destruct (Z.leb_spec 0 e) as [He0|He0].
    + assert (e = 0) as -> by lia. simpl in *. lia.
    + apply round_half_even_below; [lia|apply Z.pow_pos_nonneg; lia|exact Hle].
Qed.

Lemma compute_progress_percentage u t :
  1 <= u <= t ->
  exists p, compute_progress u t = Ok p /\ 0 <= p <= 100 /\ (u = 1 -> p = 100).
Proof.
  intros Hu. unfold compute_progress.
  destruct (int_true_div_below (u - 1) t 1) as (q & Hq & Hq1); try lia;
    [unfold prec; lia|].
  rewrite Hq.
  pose proof (float_mul_100_below q 1 Hq1 ltac:(unfold prec; lia)) as Hm.
  destruct (py_round_below _ _ Hm ltac:(lia)) as (k & Hk & Hk100).
  rewrite Hk. eexists. split; [reflexivity|]. split; [lia|].
  intros ->. replace (1 - 1) with 0 in Hq by lia.
  unfold int_true_div in Hq. destruct (Z.eqb_spec t 0); [lia|].
  destruct t as [|pt|pt]; try lia. simpl in Hq. injection Hq as <-.
  vm_compute in Hk. injection Hk as <-. reflexivity.
Qed.

(** [round(x, 2)] of a float from 0 to 100 is a float from 0 to 100. *)
Lemma py_round_2_below x :
  float_from_0_to 100 x -> exists r, py_round_ndigits x 2 = Ok r /\ float_from_0_to 100 r.
Proof.
  intros Hx. destruct x as [s|s| |[] m e]; try contradiction; [simpl; eauto|].
  destruct Hx as [He Hle]. unfold py_round_ndigits.
  change (323 <? 2)%N with false. cbv iota. change (10 ^ Z.of_N 2) with 100.
  set (k := if 0 <=? e then Z.pos m * 2 ^ e * 100
            else round_half_even (Z.pos m * 100) (2 ^ (- e))).
  assert (Hk : 0 <= k <= 100 * 100).
  { unfold k. destruct (Z.leb_spec 0 e) as [He0|He0].
    - assert (e = 0) as -> by lia. simpl in *. lia.
    - apply round_half_even_below; [lia|apply Z.pow_pos_nonneg; lia|lia]. }
  clearbody k. destruct k as [|p|p]; [eexists; split; [reflexivity|exact I]| |lia].
  destruct (int_true_div_below (Z.pos p) 100 100) as (r & Hr & Hr100); try lia;
    [unfold prec; lia|].
  unfold int_true_div in Hr. change (100 =? 0) with false in Hr. cbv iota in Hr.
  change (Z2SF (Z.pos p)) with (S754_finite false p 0) in Hr.
  exists r. split; [|exact Hr100].
  destruct (SFdiv prec emax (S754_finite false p 0) (Z2SF 100)); try discriminate; exact Hr.
Qed.

Lemma compute_score_percentage c t :
  0 <= c <= t -> 0 < t ->
  exists score, compute_score c t = Ok score /\ float_from_0_to 100 score.
Proof.
  intros Hc Ht. unfold compute_score.
  destruct (int_true_div_below c t 1) as (q & Hq & Hq1); try lia; [unfold prec; lia|].
  rewrite Hq.
  pose proof (float_mul_100_below q 1 Hq1 ltac:(unfold prec; lia)) as Hm.
  apply py_round_2_below. exact Hm.
Qed.

End PyFloatBounds.
Import PyFloatBounds.

(** ** Percentages *)

(** X10.  The progress indicator is a percentage: whenever the form page
    is rendered for a current question, its progress is an integer from 0 to
    100; and it is 100 while the last unanswered question is shown, before
    that question is answered. *)
Theorem progress_is_a_percentage request pk w quiz question rest :
  Quiz_get (db w) pk = Some quiz ->
  student_quizzes_exists (db w) (req_student request) pk = false ->
  get_unanswered_questions (db w) (req_student request) quiz = question :: rest ->
  req_method request <> "POST" \/ form_clean (db w) (bound_form question request) = None ->
  exists progress,
    serve None request pk w =
    (Ok (TakeQuizFormPage quiz question
           (if String.eqb (req_method request) "POST" then bound_form question request
            else unbound_form question) progress), w) /\
    0 <= progress <= 100 /\
    (rest = [] -> progress = 100).
Proof.
  intros Hquiz Htaken Hcur Hform.
  destruct (serve_form_page request pk w quiz question rest Hquiz Htaken Hcur Hform)
    as (progress & Hprogress & Hserve).
  exists progress. split; [exact Hserve|].
  pose proof (unanswered_le_total (db w) (req_student request) quiz) as Hle.
  rewrite Hcur in Hprogress, Hle. cbn [length] in Hprogress, Hle.
  destruct (compute_progress_percentage (Z.of_nat (S (length rest)))
              (Z.of_nat (length (quiz_questions (db w) quiz))) ltac:(lia))
    as (p & Hp & Hrange & Hlast).
  rewrite Hprogress in Hp. injection Hp as <-. split; [exact Hrange|].
  intros ->. apply Hlast. reflexivity.
Qed.

Lemma progress_is_a_percentage_witness :
  let w := play 1 [Scenario.post 11; Scenario.post 22] (Scenario.fresh 3) in
  exists progress,
    serve None Scenario.get 1 w =
    (Ok (TakeQuizFormPage Scenario.quiz1 {| question_id := 3; question_quiz := 1 |}
           (if String.eqb (req_method Scenario.get) "POST"
            then bound_form {| question_id := 3; question_quiz := 1 |} Scenario.get
            else unbound_form {| question_id := 3; question_quiz := 1 |}) progress), w) /\
    0 <= progress <= 100 /\
    (@nil Question = [] -> progress = 100).
Proof.
  intros w.
  apply (progress_is_a_percentage Scenario.get 1 w Scenario.quiz1
           {| question_id := 3; question_quiz := 1 |} []).
  - vm_compute. reflexivity.
  - vm_compute. reflexivity.
  - vm_compute. reflexivity.
  - left. vm_compute. discriminate.
Defined.



(** ** Rows of the store under the writes of the view *)

Lemma student_quiz_answers_insert_other d sa student quiz :
  sa_student sa <> student ->
  student_quiz_answers (insert_student_answer sa d) student quiz =
  student_quiz_answers d student quiz.
Proof.
  intros Hne. unfold student_quiz_answers at 1. simpl student_answers.
  rewrite flat_map_app. simpl.
  destruct (Z.eqb_spec (sa_student sa) student) as [E|_]; [contradiction|].
  rewrite app_nil_r. reflexivity.
Qed.

Lemma student_quiz_answers_insert_any d st student quiz question answer :
  store_ok d -> In answer (answers d) -> In question (questions d) ->
  answer_question answer = question_id question ->
  student_quiz_answers (insert_student_answer (answer_row st answer) d) student quiz =
  student_quiz_answers d student quiz ++
  (if (st =? student) && (question_quiz question =? quiz_id quiz)
   then [(answer, question)] else []).
Proof.
  intros [Hq%NoDup_ListNoDup Ha%NoDup_ListNoDup] Hans Hin Hansq.
  unfold student_quiz_answers at 1. simpl student_answers.
  rewrite flat_map_app. f_equal. simpl.
  destruct (st =? student); [|reflexivity].
  unfold find_answer, find_question. simpl answers. simpl questions.
  rewrite (find_unique answer_id (answers d) answer Ha Hans), Hansq.
  rewrite (find_unique question_id (questions d) question Hq Hin).
  destruct (question_quiz question =? quiz_id quiz); reflexivity.
Qed.

(** The joined answer rows depend on the quiz through its id only. *)
Lemma answered_question_ids_quiz_id d student quiz quiz' :
  quiz_id quiz = quiz_id quiz' ->
  answered_question_ids d student quiz = answered_question_ids d student quiz'.
Proof.
  intros E. unfold answered_question_ids, student_quiz_answers. rewrite E. reflexivity.
Qed.

Lemma head_cons {A} (l : list A) x : head l = Some x -> exists rest, l = x :: rest.
Proof. destruct l as [|y l]; [discriminate|]. intros [= ->]. eauto. Qed.

(** Saving a valid answer to the current question of a student keeps the
    answers of every student to one per question. *)
Lemma answered_once_insert_all d st quiz question answer :
  store_ok d ->
  head (get_unanswered_questions d st quiz) = Some question ->
  In answer (answers d) ->
  answer_question answer = question_id question ->
  (forall student quiz', answered_once d student quiz') ->
  forall student quiz',
    answered_once (insert_student_answer (answer_row st answer) d) student quiz'.
Proof.
  intros Hok Hhead Hans Hansq Honce student quiz'.
  destruct (head_cons _ _ Hhead) as [rest Hcur].
  destruct (current_question_in d st quiz question rest Hcur) as [Hin Hquiz].
  unfold answered_once, answered_question_ids.
  rewrite (student_quiz_answers_insert_any d st student quiz' question answer Hok Hans Hin Hansq).
  destruct (Z.eqb_spec st student) as [<-|_]; cbn [andb];
    [|rewrite app_nil_r; apply Honce].
  destruct (Z.eqb_spec (question_quiz question) (quiz_id quiz')) as [E|_];
    [|rewrite app_nil_r; apply Honce].
  rewrite Hquiz in E.
  pose proof (answered_once_insert d st quiz question rest answer Hok Hcur Hans Hansq
                (Honce st quiz)) as H.
  unfold answered_once in H. rewrite (answered_question_ids_insert d st quiz question rest answer Hok Hcur Hans Hansq) in H.
  rewrite (answered_question_ids_quiz_id d st quiz quiz' E) in H.
  rewrite map_app. exact H.
Qed.

(** X12.  The view keeps the answers of a student to one per question:
    when primary keys identify the questions and the answers and no student
    has two answer rows for a question, this is so again after any request,
    under every fault plan.  A second submission for an answered question is
    checked against the next question and cannot add a row for the first. *)
Theorem one_answer_per_question_is_kept faults request pk w :
  store_ok (db w) ->
  (forall student quiz, answered_once (db w) student quiz) ->
  store_ok (db (snd (serve faults request pk w))) /\
  forall student quiz, answered_once (db (snd (serve faults request pk w))) student quiz.
Proof.
  intros Hok Honce.
  set (R := fun w1 : world =>
              questions (db w1) = questions (db w) /\ answers (db w1) = answers (db w) /\
              forall student quiz, answered_once (db w1) student quiz).
  assert (HR : R (snd (serve faults request pk w))).
  { apply (wp_serve (fun _ w' => R w') faults request pk w).
    apply take_quiz_keeps; unfold R; try (intros; assumption); try tauto.
    intros quiz question answer Hquiz Htaken Hhead Hclean.
    destruct (form_clean_Some _ _ _ Hclean) as (Hin & Hq & _).
    cbn [form_question bound_form] in Hq.
    split; [reflexivity|]. split; [reflexivity|].
    apply (answered_once_insert_all (db w) (req_student request) quiz question answer);
      assumption. }
  destruct HR as (Hq & Ha & H). split; [|exact H].
  unfold store_ok. rewrite Hq, Ha. exact Hok.
Qed.

Lemma one_answer_per_question_is_kept_witness :
  store_ok (db (snd (serve (Some 9%nat) (Scenario.post 11) 1 (Scenario.fresh 2)))) /\
  forall student quiz,
    answered_once (db (snd (serve (Some 9%nat) (Scenario.post 11) 1 (Scenario.fresh 2))))
                  student quiz.
Proof.
  apply (one_answer_per_question_is_kept (Some 9%nat) (Scenario.post 11) 1 (Scenario.fresh 2)).
  - decide_by_computation.
  - intros student quiz. unfold answered_once, answered_question_ids, student_quiz_answers.
    simpl. constructor.
Defined.

(** X13.  A request deletes and rewrites no row of the store, under every
    fault plan: the quizzes, questions, answers and interests are as before,
    and the student answers and the taken quizzes are the rows of before
    followed by at most one new row each, a row of the requesting student,
    and for the taken quizzes of the requested quiz. *)
Theorem store_is_append_only faults request pk w :
  let d := db w in
  let d' := db (snd (serve faults request pk w)) in
  quizzes d' = quizzes d /\ questions d' = questions d /\
  answers d' = answers d /\ interests d' = interests d /\
  (exists rows,
      student_answers d' = student_answers d ++ rows /\ (length rows <= 1)%nat /\
      Forall (fun sa => sa_student sa = req_student request) rows) /\
  (exists rows,
      taken_quizzes d' = taken_quizzes d ++ rows /\ (length rows <= 1)%nat /\
      Forall (fun t => tq_student t = req_student request /\ tq_quiz t = pk) rows).
Proof.
  cbv zeta. destruct (serve_outcome faults request pk w) as [Hstore _].
  unfold store_outcome in Hstore.
  assert (Hsame : forall d, quizzes d = quizzes d /\ questions d = questions d /\
                            answers d = answers d /\ interests d = interests d /\
            (exists rows, student_answers d = student_answers d ++ rows /\
                          (length rows <= 1)%nat /\
                          Forall (fun sa => sa_student sa = req_student request) rows) /\
            (exists rows, taken_quizzes d = taken_quizzes d ++ rows /\
                          (length rows <= 1)%nat /\
                          Forall (fun t => tq_student t = req_student request /\
                                           tq_quiz t = pk) rows)).
  { intros d. repeat (split; [reflexivity|]).
    split; exists []; rewrite app_nil_r; repeat split; simpl; auto. }
  destruct (fst (serve faults request pk w)) as [[| | |]|e];
    try (rewrite Hstore; apply Hsame).
  - destruct Hstore as [answer ->]. repeat (split; [reflexivity|]). split.
    + eexists [_]. split; [reflexivity|]. split; [simpl; lia|]. repeat constructor.
    + exists []. simpl. rewrite app_nil_r. repeat split; auto.
  - destruct Hstore as (answer & score & -> & _). repeat (split; [reflexivity|]). split.
    + eexists [_]. split; [reflexivity|]. split; [simpl; lia|]. repeat constructor.
    + eexists [_]. split; [reflexivity|]. split; [simpl; lia|]. repeat constructor.
Qed.

Lemma other_student_insert_sa d sa other :
  sa_student sa <> other ->
  let d' := insert_student_answer sa d in
  (forall quiz, get_unanswered_questions d' other quiz = get_unanswered_questions d other quiz) /\
  (forall quiz, correct_answers_count d' other quiz = correct_answers_count d other quiz) /\
  (forall pk, student_quizzes_exists d' other pk = student_quizzes_exists d other pk) /\
  QuizListView_get_queryset d' other = QuizListView_get_queryset d other /\
  student_taken_quizzes d' other = student_taken_quizzes d other.
Proof.
  intros Hne. cbv zeta. split; [|split; [|repeat split]].
  - intros quiz. unfold get_unanswered_questions, answered_question_ids.
    rewrite (student_quiz_answers_insert_other _ _ _ _ Hne). reflexivity.
  - intros quiz. unfold correct_answers_count.
    rewrite (student_quiz_answers_insert_other _ _ _ _ Hne). reflexivity.
Qed.

Lemma other_student_insert_tq d t other :
  tq_student t <> other ->
  let d' := insert_taken_quiz t d in
  (forall quiz, get_unanswered_questions d' other quiz = get_unanswered_questions d other quiz) /\
  (forall quiz, correct_answers_count d' other quiz = correct_answers_count d other quiz) /\
  (forall pk, student_quizzes_exists d' other pk = student_quizzes_exists d other pk) /\
  QuizListView_get_queryset d' other = QuizListView_get_queryset d other /\
  student_taken_quizzes d' other = student_taken_quizzes d other.
Proof.
  intros Hne. cbv zeta.
  assert (E : (tq_student t =? other) = false) by (apply Z.eqb_neq; exact Hne).
  split; [reflexivity|]. split; [reflexivity|]. split; [|split].
  - intros pk. unfold student_quizzes_exists. simpl taken_quizzes.
    rewrite existsb_app. simpl. rewrite E. simpl. rewrite orb_false_r. reflexivity.
  - unfold QuizListView_get_queryset. cbv zeta. simpl taken_quizzes.
    rewrite List.filter_app. simpl List.filter at 2. rewrite E, app_nil_r. reflexivity.
  - unfold student_taken_quizzes. simpl taken_quizzes.
    rewrite flat_map_app. simpl. rewrite E, app_nil_r. reflexivity.
Qed.

(** X14.  A request of one student changes nothing of what the views show
    another student, under every fault plan: the other student's unanswered
    questions and count of correct answers of every quiz, which quizzes the
    student has taken, the quizzes the listing offers and the taken quizzes
    listed are as before. *)
Theorem other_students_are_not_affected faults request pk w other :
  other <> req_student request ->
  let d := db w in
  let d' := db (snd (serve faults request pk w)) in
  (forall quiz, get_unanswered_questions d' other quiz = get_unanswered_questions d other quiz) /\
  (forall quiz, correct_answers_count d' other quiz = correct_answers_count d other quiz) /\
  (forall pk', student_quizzes_exists d' other pk' = student_quizzes_exists d other pk') /\
  QuizListView_get_queryset d' other = QuizListView_get_queryset d other /\
  student_taken_quizzes d' other = student_taken_quizzes d other.
Proof.
  intros Hne. cbv zeta. destruct (serve_outcome faults request pk w) as [Hstore _].
  unfold store_outcome in Hstore.
  assert (Hne' : req_student request <> other) by auto.
  destruct (fst (serve faults request pk w)) as [[| | |]|e];
    try (rewrite Hstore; repeat split; reflexivity).
  - destruct Hstore as [answer ->]. apply other_student_insert_sa. exact Hne'.
  - destruct Hstore as (answer & score & -> & _).
    pose proof (other_student_insert_sa (db w)
                  {| sa_student := req_student request; sa_answer := answer |} other Hne')
      as (H1 & H2 & H3 & H4 & H5).
    pose proof (other_student_insert_tq
                  (insert_student_answer
                     {| sa_student := req_student request; sa_answer := answer |} (db w))
                  {| tq_student := req_student request; tq_quiz := pk; tq_score := score |}
                  other Hne') as (G1 & G2 & G3 & G4 & G5).
    cbv zeta in *. repeat split; intros; congruence.
Qed.

Lemma other_students_are_not_affected_witness :
  let d := db (Scenario.fresh 1) in
  let d' := db (snd (serve None (Scenario.post 11) 1 (Scenario.fresh 1))) in
  (forall quiz, get_unanswered_questions d' 8 quiz = get_unanswered_questions d 8 quiz) /\
  (forall quiz, correct_answers_count d' 8 quiz = correct_answers_count d 8 quiz) /\
  (forall pk', student_quizzes_exists d' 8 pk' = student_quizzes_exists d 8 pk') /\
  QuizListView_get_queryset d' 8 = QuizListView_get_queryset d 8 /\
  student_taken_quizzes d' 8 = student_taken_quizzes d 8.
Proof.
  apply (other_students_are_not_affected None (Scenario.post 11) 1 (Scenario.fresh 1) 8).
  vm_compute. discriminate.
Defined.

(** ** A quiz on offer, a quiz in progress, a quiz answered out *)

Lemma get_unanswered_questions_quiz_id d student quiz quiz' :
  quiz_id quiz = quiz_id quiz' ->
  get_unanswered_questions d student quiz = get_unanswered_questions d student quiz'.
Proof.
  intros E. unfold get_unanswered_questions, answered_question_ids, student_quiz_answers,
    quiz_questions. rewrite E. reflexivity.
Qed.

Lemma get_unanswered_questions_insert_other d st student quiz question answer :
  store_ok d -> In answer (answers d) -> In question (questions d) ->
  answer_question answer = question_id question ->
  st <> student \/ question_quiz question <> quiz_id quiz ->
  get_unanswered_questions (insert_student_answer (answer_row st answer) d) student quiz =
  get_unanswered_questions d student quiz.
Proof.
  intros Hok Hans Hin Hansq Hother.
  unfold get_unanswered_questions, answered_question_ids.
  rewrite (student_quiz_answers_insert_any d st student quiz question answer Hok Hans Hin Hansq).
  assert (E : (st =? student) && (question_quiz question =? quiz_id quiz) = false).
  { apply andb_false_iff. destruct Hother as [H|H]; [left|right]; apply Z.eqb_neq; exact H. }
  rewrite E, app_nil_r. reflexivity.
Qed.

Lemma unanswered_NoDup d student quiz :
  store_ok d -> List.NoDup (map question_id (get_unanswered_questions d student quiz)).
Proof.
  intros [Hq%NoDup_ListNoDup _]. unfold get_unanswered_questions, quiz_questions.
  do 2 apply NoDup_map_filter. exact Hq.
Qed.

(** While questions are left, saving an answer keeps [finished_is_taken]. *)
Lemma finished_is_taken_insert_sa d st quiz question next rest answer :
  store_ok d ->
  get_unanswered_questions d st quiz = question :: next :: rest ->
  In answer (answers d) ->
  answer_question answer = question_id question ->
  finished_is_taken d ->
  finished_is_taken (insert_student_answer (answer_row st answer) d).
Proof.
  intros Hok Hcur Hans Hansq Hinv student quiz' Hq Hu.
  destruct (current_question_in d st quiz question _ Hcur) as [Hin Hquiz].
  change (student_quizzes_exists (insert_student_answer _ d) student (quiz_id quiz'))
    with (student_quizzes_exists d student (quiz_id quiz')).
  apply Hinv; [exact Hq|].
  destruct (Z.eq_dec st student) as [<-|Hst];
    [destruct (Z.eq_dec (question_quiz question) (quiz_id quiz')) as [E|Hqz]|].
  - exfalso. rewrite Hquiz in E.
    rewrite <- (get_unanswered_questions_quiz_id _ _ _ _ E) in Hu.
    unfold answer_row in Hu.
    rewrite (get_unanswered_questions_insert d st quiz question _ answer Hok Hcur Hans Hansq)
      in Hu.
    discriminate Hu.
  - rewrite <- Hu. symmetry.
    apply (get_unanswered_questions_insert_other d st st quiz' question answer); auto.
  - rewrite <- Hu. symmetry.
    apply (get_unanswered_questions_insert_other d st student quiz' question answer); auto.
Qed.

(** Saving the last answer with the taken quiz keeps [finished_is_taken]. *)
Lemma finished_is_taken_insert_tq d st quiz question answer score :
  store_ok d ->
  get_unanswered_questions d st quiz = [question] ->
  In answer (answers d) ->
  answer_question answer = question_id question ->
  finished_is_taken d ->
  finished_is_taken
    (insert_taken_quiz {| tq_student := st; tq_quiz := quiz_id quiz; tq_score := score |}
       (insert_student_answer (answer_row st answer) d)).
Proof.
  intros Hok Hcur Hans Hansq Hinv student quiz' Hq Hu.
  destruct (current_question_in d st quiz question _ Hcur) as [Hin Hquiz].
  unfold student_quizzes_exists. simpl taken_quizzes. rewrite existsb_app. simpl.
  rewrite orb_false_r.
  change (get_unanswered_questions (insert_taken_quiz _ ?d') student quiz')
    with (get_unanswered_questions d' student quiz') in Hu.
  destruct (Z.eqb_spec st student) as [<-|Hst];
    [destruct (Z.eqb_spec (quiz_id quiz) (quiz_id quiz')) as [E|Hqz]|]; cbn [andb].
  - apply orb_true_r.
  - rewrite orb_false_r. apply (Hinv st quiz' Hq). rewrite <- Hu. symmetry.
    apply (get_unanswered_questions_insert_other d st st quiz' question answer); auto.
    right. congruence.
  - rewrite orb_false_r. apply (Hinv student quiz' Hq). rewrite <- Hu. symmetry.
    apply (get_unanswered_questions_insert_other d st student quiz' question answer); auto.
Qed.

(** X15.  A student who has answered every question of a quiz has taken
    it: when this holds of the store, with primary keys that identify the
    questions and the answers and one answer per student and question, it
    holds again after any request, under every fault plan.  The taken quiz
    is written in the transaction of the last answer, so no request leaves a
    quiz answered out and not taken. *)
Theorem finished_is_taken_is_kept faults request pk w :
  store_ok (db w) ->
  (forall student quiz, answered_once (db w) student quiz) ->
  finished_is_taken (db w) ->
  finished_is_taken (db (snd (serve faults request pk w))).
Proof.
  intros Hok Honce Hinv.
  destruct (serve_outcome faults request pk w) as [_ [->|Hvalid]]; [exact Hinv|].
  destruct Hvalid as (Hpost & Htaken & quiz & question & answer & Hquiz & Hhead & Hclean).
  destruct (head_cons _ _ Hhead) as [rest Hcur].
  destruct (form_clean_Some _ _ _ Hclean) as (Hin & Hq & _). cbn [form_question bound_form] in Hq.
  destruct (Answer_get_correct (db w) (question_id question)) as [correct|e] eqn:Hget.
  - assert (Hsub : submission request pk w quiz question rest answer correct)
      by (constructor; auto).
    pose proof (wp_serve _ faults request pk w
                  (take_quiz_submission _ _ _ _ _ _ _ _ Hsub)) as H.
    cbv beta zeta in H.
    destruct (fst (serve faults request pk w)) as [response|e]; [|rewrite H; exact Hinv].
    destruct rest as [|next rest].
    + destruct H as [_ [score ->]]. rewrite <- (Quiz_get_id _ _ _ Hquiz).
      apply (finished_is_taken_insert_tq (db w) (req_student request) quiz question answer);
        assumption.
    + destruct H as [_ ->].
      apply (finished_is_taken_insert_sa (db w) (req_student request) quiz question next rest
               answer); assumption.
  - destruct (blocked_question_unchanged faults request pk w quiz question rest answer e
                Hquiz Htaken Hcur Hpost Hclean Hget) as [-> _].
    exact Hinv.
Qed.

Lemma finished_is_taken_fresh n : finished_is_taken (db (Scenario.fresh n)).
Proof.
  intros student quiz Hq Hu.
  destruct (unanswered_all (db (Scenario.fresh n)) student quiz eq_refl) as (Hall & _).
  rewrite Hall in Hu. contradiction.
Qed.

Lemma finished_is_taken_is_kept_witness :
  finished_is_taken (db (snd (serve (Some 10%nat) (Scenario.post 11) 1 (Scenario.fresh 1)))).
Proof.
  apply (finished_is_taken_is_kept (Some 10%nat) (Scenario.post 11) 1 (Scenario.fresh 1)).
  - decide_by_computation.
  - intros student quiz. unfold answered_once, answered_question_ids, student_quiz_answers.
    simpl. constructor.
  - apply finished_is_taken_fresh.
Defined.

(** X16.  A quiz on offer opens.  When quiz ids identify the quizzes and
    every quiz answered out is taken, a request that is not a POST for a
    quiz that the listing offers the student is answered with the form page
    of that quiz, for a question of the quiz that the student has not
    answered, and never with the taken-quiz page or an error. *)
Theorem offered_quiz_opens request w quiz :
  NoDup (map quiz_id (quizzes (db w))) ->
  finished_is_taken (db w) ->
  In quiz (QuizListView_get_queryset (db w) (req_student request)) ->
  req_method request <> "POST" ->
  exists question progress,
    serve None request (quiz_id quiz) w =
    (Ok (TakeQuizFormPage quiz question (unbound_form question) progress), w) /\
    In question (quiz_questions (db w) quiz) /\
    ~ In (question_id question)
         (answered_question_ids (db w) (req_student request) quiz).
Proof.
  intros Hids%NoDup_ListNoDup Hinv Hoffer Hget.
  apply QuizListView_In in Hoffer as (Hin & _ & Htaken & Hquestions).
  assert (Hquiz : Quiz_get (db w) (quiz_id quiz) = Some quiz)
    by (apply (find_unique quiz_id); assumption).
  destruct (get_unanswered_questions (db w) (req_student request) quiz)
    as [|question rest] eqn:Hcur.
  { rewrite (Hinv _ _ Hquestions Hcur) in Htaken. discriminate. }
  destruct (serve_form_page request (quiz_id quiz) w quiz question rest Hquiz Htaken Hcur
              (or_introl Hget)) as (progress & _ & Hserve).
  exists question, progress. split; [|split].
  - rewrite Hserve. destruct (String.eqb_spec (req_method request) "POST");
      [contradiction|reflexivity].
  - assert (H : In question (get_unanswered_questions (db w) (req_student request) quiz))
      by (rewrite Hcur; left; reflexivity).
    apply filter_In in H as [H _]. exact H.
  - exact (current_question_unanswered _ _ _ _ _ Hcur).
Qed.

Lemma offered_quiz_opens_witness :
  exists question progress,
    serve None Scenario.get (quiz_id Scenario.quiz1) (Scenario.fresh 2) =
    (Ok (TakeQuizFormPage Scenario.quiz1 question (unbound_form question) progress),
     Scenario.fresh 2) /\
    In question (quiz_questions (db (Scenario.fresh 2)) Scenario.quiz1) /\
    ~ In (question_id question)
         (answered_question_ids (db (Scenario.fresh 2)) (req_student Scenario.get)
            Scenario.quiz1).
Proof.
  apply (offered_quiz_opens Scenario.get (Scenario.fresh 2) Scenario.quiz1).
  - decide_by_computation.
  - apply finished_is_taken_fresh.
  - vm_compute. tauto.
  - vm_compute. discriminate.
Defined.



(** ** The exceptions of the view *)

Lemma compute_progress_raises u t e :
  0 <= u <= t -> compute_progress u t = Raise e -> e = ZeroDivisionError /\ t = 0.
Proof.
  intros Hu Hraise. destruct (Z.eq_dec t 0) as [->|Ht].
  - unfold compute_progress, int_true_div in Hraise. simpl in Hraise.
    injection Hraise as <-. auto.
  - exfalso. unfold compute_progress in Hraise.
    assert (Hq : exists q, int_true_div (u - 1) t = Ok q /\ sf_bounded 2 q).
    { destruct (Z.eq_dec u 0) as [->|Hu0]; [|apply int_true_div_bounded; lia].
      unfold int_true_div. destruct (Z.eqb_spec t 0) as [|_]; [lia|].
      destruct t as [|pt|pt]; try lia.
      change (0 - 1) with (-1). change (Z2SF (-1)) with (S754_finite true 1 0).
      change (Z2SF (Z.pos pt)) with (S754_finite false pt 0).
      assert (Hb : sf_bounded 2 (SFdiv prec emax (S754_finite true 1 0)
                                   (S754_finite false pt 0))).
      { apply (SFdiv_bounded true 1 0 false pt 0 1); try fl.
        change (Z.pos (digits2_pos 1)) with 1.
        pose proof (Pos2Z.is_pos (digits2_pos pt)). lia. }
      destruct (SFdiv prec emax (S754_finite true 1 0) (S754_finite false pt 0))
        as [s|s| |s m e'] eqn:E; try contradiction; eauto. }
    destruct Hq as (q & Hq & Hb). rewrite Hq in Hraise.
    pose proof (float_mul_100_bounded q 2 Hb ltac:(fl) ltac:(fl)) as Hm.
    destruct (py_round_total _ _ Hm) as [k Hk]. rewrite Hk in Hraise. discriminate.
Qed.

Lemma compute_progress_Ok_total u t p : compute_progress u t = Ok p -> t <> 0.
Proof.
  intros H ->. unfold compute_progress, int_true_div in H. simpl in H. discriminate.
Qed.

Lemma Answer_get_correct_raises d qid e :
  Answer_get_correct d qid = Raise e -> e = DoesNotExist \/ e = MultipleObjectsReturned.
Proof.
  unfold Answer_get_correct.
  destruct (List.filter _ (answers d)) as [|a [|b l]]; intros H; inversion H; auto.
Qed.

Lemma sound_ret {A} (a : A) : sound_on_healthy (ret a).
Proof. intros w. split; [discriminate|reflexivity]. Qed.

Lemma sound_raise {A} e : e <> DatabaseError -> sound_on_healthy (@raise A e).
Proof. intros He w. split; [intros [= E]; auto|reflexivity]. Qed.

Lemma sound_lift {A} (r : result A) : r <> Raise DatabaseError -> sound_on_healthy (lift r).
Proof. intros Hr w. split; [exact Hr|reflexivity]. Qed.

Lemma sound_bind {A B} (m : M A) (k : A -> M B) :
  sound_on_healthy m -> (forall a, sound_on_healthy (k a)) ->
  sound_on_healthy (x <- m ;; k x).
Proof.
  intros Hm Hk w. unfold bind. destruct (Hm w) as [Hr Hf].
  destruct (m (w, None)) as [[a|e] [w1 f1]]; cbn [fst snd] in *.
  - subst f1. apply Hk.
  - split; [intros [= ->]; apply Hr; reflexivity|exact Hf].
Qed.

Lemma sound_query {A} (f : DB -> A) : sound_on_healthy (query f).
Proof. intros w. split; [discriminate|reflexivity]. Qed.

Lemma sound_execute (f : DB -> DB) : sound_on_healthy (execute f).
Proof. intros w. split; [discriminate|reflexivity]. Qed.

Lemma sound_atomic {A} (body : M A) : sound_on_healthy body -> sound_on_healthy (atomic body).
Proof.
  intros Hbody w. unfold atomic, bind. destruct (Hbody w) as [Hr Hf].
  destruct (body (w, None)) as [[a|e] [w1 f1]]; cbn [fst snd] in *; subst f1.
  - split; [discriminate|reflexivity].
  - split; [exact Hr|reflexivity].
Qed.

Lemma sound_session_get key default : sound_on_healthy (session_get key default).
Proof. intros w. split; [discriminate|reflexivity]. Qed.

Lemma sound_session_setitem key value : sound_on_healthy (session_setitem key value).
Proof. intros w. split; [discriminate|reflexivity]. Qed.

Lemma sound_session_getitem key : sound_on_healthy (session_getitem key).
Proof.
  intros w. unfold session_getitem. cbn [fst].
  destruct (session w !! key); split; try discriminate; reflexivity.
Qed.

Lemma sound_messages_warning text : sound_on_healthy (messages_warning text).
Proof. intros w. split; [discriminate|reflexivity]. Qed.

Lemma sound_messages_success text : sound_on_healthy (messages_success text).
Proof. intros w. split; [discriminate|reflexivity]. Qed.

Lemma int_true_div_sound a b : int_true_div a b <> Raise DatabaseError.
Proof.
  unfold int_true_div. destruct (b =? 0); [discriminate|].
  destruct (SFdiv _ _ _ _); discriminate.
Qed.

Lemma py_round_sound x : py_round x <> Raise DatabaseError.
Proof. destruct x; discriminate. Qed.

Lemma compute_progress_sound u t : compute_progress u t <> Raise DatabaseError.
Proof.
  unfold compute_progress. pose proof (int_true_div_sound (u - 1) t) as H.
  destruct (int_true_div (u - 1) t) as [x|e]; [|congruence].
  pose proof (py_round_sound (float_mul x (float_of_int 100))) as H'.
  destruct (py_round _) as [k|e]; [discriminate|congruence].
Qed.

Lemma py_round_ndigits_sound x n : py_round_ndigits x n <> Raise DatabaseError.
Proof.
  unfold py_round_ndigits. destruct x; try discriminate.
  destruct (323 <? n)%N; [discriminate|].
  match goal with |- context [match ?k with Z0 => _ | Zpos _ => _ | Zneg _ => _ end] =>
    destruct k end; try discriminate.
  destruct (SFdiv _ _ _ _); discriminate.
Qed.

Lemma compute_score_sound c t : compute_score c t <> Raise DatabaseError.
Proof.
  unfold compute_score. pose proof (int_true_div_sound c t) as H.
  destruct (int_true_div c t) as [x|e]; [|congruence].
  apply py_round_ndigits_sound.
Qed.

Lemma Answer_get_correct_sound d qid : Answer_get_correct d qid <> Raise DatabaseError.
Proof.
  unfold Answer_get_correct. destruct (List.filter _ (answers d)) as [|a [|b l]]; discriminate.
Qed.

Lemma sound_Answer_objects_get qid : sound_on_healthy (Answer_objects_get qid).
Proof. intros w. split; [apply Answer_get_correct_sound|reflexivity]. Qed.

Ltac sound_step :=
  first
    [ apply sound_ret
    | apply sound_Answer_objects_get
    | apply sound_raise; discriminate
    | apply sound_lift; first [apply compute_progress_sound | apply compute_score_sound]
    | apply sound_query | apply sound_execute
    | apply sound_session_get | apply sound_session_setitem | apply sound_session_getitem
    | apply sound_messages_warning | apply sound_messages_success
    | apply sound_atomic
    | apply sound_bind; [|intros]
    | match goal with
      | |- sound_on_healthy (if ?c then _ else _) => destruct c
      | |- sound_on_healthy (match ?x with _ => _ end) => destruct x
      end ].

Lemma wp_serve_on (Q : result HttpResponse -> world -> Prop) p faults request pk w :
  wp (take_quiz_on p request pk) Q w ->
  Q (fst (serve_on p faults request pk w)) (snd (serve_on p faults request pk w)).
Proof.
  intros H. specialize (H faults). unfold serve_on.
  destruct (take_quiz_on p request pk (w, faults)) as [r [w' f']]. exact H.
Qed.

(** Every exception of the view on a platform has its cause in the request,
    the store, the session or the platform. *)
Lemma take_quiz_on_error_cause p request pk w :
  store_ok (db w) ->
  (forall student quiz, answered_once (db w) student quiz) ->
  wp (take_quiz_on p request pk)
     (fun r _ => match r with Ok _ => True | Raise e => error_cause_on p request pk w e end) w.
Proof.
  intros Hok Honce.
  unfold take_quiz_on, get_object_or_404_Quiz_on, get_object_or_404_Quiz.
  destruct (accepts_key p pk) eqn:Hkey; [|apply wp_bind, wp_raise; exact I].
  apply wp_bind. apply wp_bind_query; [|exact I].
  destruct (Quiz_get (db w) pk) as [quiz|] eqn:Hquiz;
    [apply wp_ret|apply wp_raise; split; [exact Hkey|exact Hquiz]].
  apply wp_bind_query; [|exact I].
  destruct (student_quizzes_exists (db w) (req_student request) pk) eqn:Htaken;
    [apply wp_ret; exact I|].
  apply wp_bind_query; [|exact I]. apply wp_bind_query; [|exact I].
  apply wp_bind_lift.
  pose proof (unanswered_le_total (db w) (req_student request) quiz) as Hle.
  destruct (compute_progress _ _) as [progress|e] eqn:Hprogress.
  2:{ apply compute_progress_raises in Hprogress as [-> Ht]; [|lia].
      exists quiz. split; [exact Hquiz|].
      destruct (quiz_questions (db w) quiz); [reflexivity|discriminate]. }
  apply compute_progress_Ok_total in Hprogress.
  apply wp_bind_query; [|exact I].
  unfold respond_on.
  destruct (head (get_unanswered_questions (db w) (req_student request) quiz))
    as [question|] eqn:Hhead.
  2:{ assert (Hnone : get_unanswered_questions (db w) (req_student request) quiz = [])
        by (destruct (get_unanswered_questions _ _ _); [reflexivity|discriminate]).
      destruct (String.eqb (req_method request) "POST"); cbn [TakeQuizForm_init];
        apply wp_bind, wp_raise; exists quiz; auto. }
  destruct (String.eqb (req_method request) "POST") eqn:Hmethod; cbn [TakeQuizForm_init];
    [|apply wp_bind, wp_ret, wp_ret; exact I].
  apply String.eqb_eq in Hmethod.
  apply wp_bind, wp_ret. apply wp_bind_query; [|exact I].
  fold (bound_form question request).
  destruct (form_clean (db w) (bound_form question request)) as [answer|] eqn:Hclean;
    [|apply wp_ret; exact I].
  destruct (form_clean_Some _ _ _ Hclean) as (Hin & Hq & _). cbn [form_question bound_form] in Hq.
  destruct (head_cons _ _ Hhead) as [rest Hcur].
  pose proof (answered_once_insert _ _ _ _ _ _ Hok Hcur Hin Hq (Honce _ quiz)) as Honce1.
  pose proof (correct_answers_count_le _ _ _ Honce1) as Hcount.
  rewrite quiz_questions_insert_sa in Hcount.
  pose proof (session_names_differ quiz) as Hdiff.
  assert (Hdiff' : next_exponent_name quiz <> temp_score_name quiz) by (intros E; auto).
  apply wp_atomic. unfold submit_on, Answer_objects_get. cbn [form_question bound_form].
  apply wp_bind_execute; [|exact I].
  set (d1 := insert_student_answer _ (db w)) in *.
  apply wp_bind. apply wp_bind_query; [|exact I]. apply wp_lift. wsimpl.
  unfold d1 at 1. rewrite Answer_get_correct_insert_sa.
  destruct (Answer_get_correct (db w) (question_id question)) as [correct|e] eqn:Hcorrect.
  2:{ assert (Hcause : exists quiz question,
                Quiz_get (db w) pk = Some quiz /\ req_method request = "POST" /\
                head (get_unanswered_questions (db w) (req_student request) quiz) =
                  Some question /\
                Answer_get_correct (db w) (question_id question) = Raise e)
        by (exists quiz, question; auto).
      destruct (Answer_get_correct_raises _ _ _ Hcorrect) as [-> | ->]; exact Hcause. }
  assert (Hsub : submission request pk w quiz question rest answer correct)
    by (constructor; auto).
  apply wp_bind_session_get, wp_bind_session_setitem.
  apply wp_bind_session_get, wp_bind_session_setitem.
  apply wp_bind.
  assert (Htail : forall w1 : world,
    db w1 = d1 ->
    wp (number_correct <- query (fun d => correct_answers_count d (req_student request) quiz) ;;
        more <- query (fun d => match get_unanswered_questions d (req_student request) quiz with
                                | [] => false
                                | _ :: _ => true
                                end) ;;
        if more : bool then ret (RedirectTakeQuiz pk)
        else
          correct_answers <-
            query (fun d => correct_answers_count d (req_student request) quiz) ;;
          score <- lift (compute_score correct_answers
                           (Z.of_nat (length (quiz_questions (db w) quiz)))) ;;
          execute (insert_taken_quiz
                     {| tq_student := req_student request; tq_quiz := quiz_id quiz;
                        tq_score := score |}) ;;
          (if float_lt score (float_of_int 50) then
             messages_warning (BetterLuckNextTime (quiz_name quiz) score)
           else
             messages_success (Congratulations (quiz_name quiz) score)) ;;
          ret RedirectQuizList)
       (fun r w2 =>
          match r with
          | Ok b => True /\ True
          | Raise e => error_cause_on p request pk w e
          end) w1).
  { intros w1 Hw1. apply wp_bind_query; [|exact I]. apply wp_bind_query; [|exact I].
    destruct (get_unanswered_questions (db w1) (req_student request) quiz);
      [|apply wp_ret; auto].
    apply wp_bind_query; [|exact I]. apply wp_bind_lift. rewrite Hw1.
    destruct (compute_score_total _ _ Hcount ltac:(lia)) as (score & -> & _).
    apply wp_bind_execute; [|exact I].
    destruct (float_lt score (float_of_int 50));
      [apply wp_bind_messages_warning|apply wp_bind_messages_success];
      apply wp_ret; auto. }
  cbn [sa_answer].
  destruct (answer_id answer =? answer_id correct) eqn:Hmark.
  all: apply wp_bind_session_setitem, wp_bind_session_setitem, wp_bind_session_getitem.
  all: wsimpl; rewrite lookup_insert_ne by exact Hdiff'; rewrite lookup_insert_eq.
  all: apply wp_bind_lift.
  all: try rewrite (lookup_insert_ne (session w) _ _ _ Hdiff).
  all: match goal with
       | |- context [str_on ?q ?n] =>
           destruct (str_on_cases q n) as [Hp|Hnp]; [rewrite Hp|rewrite Hnp]
       end.
  1,3: apply wp_messages_warning, Htail; reflexivity.
  all: exists quiz, question, rest, answer, correct; split; [exact Hsub|].
  all: rewrite Hmark; unfold printable; intros Hp.
  all: match type of Hnp with str_on ?q ?n = _ =>
         change (str_on q n = Ok (str n)) in Hp end.
  all: congruence.
Qed.

Lemma str_on_sound p n : str_on p n <> Raise DatabaseError.
Proof. destruct (str_on_cases p n) as [H|H]; rewrite H; discriminate. Qed.

Ltac sound_step_on :=
  first [ sound_step | apply sound_lift; apply str_on_sound ].

Lemma take_quiz_on_sound p request pk : sound_on_healthy (take_quiz_on p request pk).
Proof.
  unfold take_quiz_on, get_object_or_404_Quiz_on, get_object_or_404_Quiz, respond_on,
    TakeQuizForm_init, submit_on.
  repeat sound_step_on.
Qed.

(** The exceptions of a request and their causes. *)
Lemma serve_on_error_cause p faults request pk w e :
  store_ok (db w) ->
  (forall student quiz, answered_once (db w) student quiz) ->
  fst (serve_on p faults request pk w) = Raise e ->
  error_cause_on p request pk w e.
Proof.
  intros Hok Honce Hraise.
  pose proof (wp_serve_on _ p faults request pk w (take_quiz_on_error_cause p request pk w Hok Honce))
    as H.
  cbv beta in H. rewrite Hraise in H. exact H.
Qed.

(** X1.  A request for a quiz id that the store has no quiz for ends in
    [Http404] and changes nothing; when the store fails, the request ends in
    the store's error instead, and still changes nothing.  That is for an id
    that the store takes as a key: for one that it does not take, the
    request ends in [OverflowError] and changes nothing.  And no other path
    of the view ends in [Http404]: on a store whose primary keys identify
    the questions and the answers, with one answer per student and question,
    a request that ends in [Http404] is one for an id without a quiz. *)
Theorem unknown_quiz_is_not_found p request pk w :
  (Quiz_get (db w) pk = None ->
   accepts_key p pk = true ->
   serve_on p None request pk w = (Raise Http404, w) /\
   forall faults,
     snd (serve_on p faults request pk w) = w /\
     (fst (serve_on p faults request pk w) = Raise Http404 \/
      fst (serve_on p faults request pk w) = Raise DatabaseError)) /\
  (accepts_key p pk = false ->
   serve_on p None request pk w = (Raise OverflowError, w)) /\
  (store_ok (db w) ->
   (forall student quiz, answered_once (db w) student quiz) ->
   forall faults,
     fst (serve_on p faults request pk w) = Raise Http404 ->
     Quiz_get (db w) pk = None /\ accepts_key p pk = true).
Proof.
  split; [|split].
  - intros Hnone Hkey. split.
    + unfold serve_on, take_quiz_on, get_object_or_404_Quiz_on, get_object_or_404_Quiz.
      rewrite Hkey, bind_assoc, bind_query, Hnone. reflexivity.
    + intros faults.
      apply (wp_serve_on (fun r w' => w' = w /\ (r = Raise Http404 \/ r = Raise DatabaseError))
               p faults request pk w).
      unfold take_quiz_on, get_object_or_404_Quiz_on, get_object_or_404_Quiz. rewrite Hkey.
      apply wp_bind. apply wp_bind_query; [|auto].
      rewrite Hnone. apply wp_raise. auto.
  - intros Hkey. unfold serve_on, take_quiz_on, get_object_or_404_Quiz_on.
    rewrite Hkey. reflexivity.
  - intros Hok Honce faults Hraise.
    destruct (serve_on_error_cause p faults request pk w Http404 Hok Honce Hraise) as [Hkey Hnone].
    auto.
Qed.

Lemma unknown_quiz_is_not_found_witness :
  let w := Scenario.fresh 1 in
  (serve_on default_limits None Scenario.get 2 w = (Raise Http404, w) /\
   snd (serve_on default_limits (Some 0%nat) Scenario.get 2 w) = w /\
   (fst (serve_on default_limits (Some 0%nat) Scenario.get 2 w) = Raise Http404 \/
    fst (serve_on default_limits (Some 0%nat) Scenario.get 2 w) = Raise DatabaseError)) /\
  serve_on default_limits None Scenario.get (2 ^ 63) w = (Raise OverflowError, w) /\
  (Quiz_get (db w) 2 = None /\ accepts_key default_limits 2 = true).
Proof.
  intros w. split; [|split].
  - destruct (unknown_quiz_is_not_found default_limits Scenario.get 2 w) as (Hunknown & _).
    destruct Hunknown as [Hhealthy Hfaults]; [vm_compute; reflexivity|reflexivity|].
    split; [exact Hhealthy|exact (Hfaults (Some 0%nat))].
  - destruct (unknown_quiz_is_not_found default_limits Scenario.get (2 ^ 63) w)
      as (_ & Hrefused & _).
    apply Hrefused. vm_compute. reflexivity.
  - destruct (unknown_quiz_is_not_found default_limits Scenario.get 2 w) as (_ & _ & Honly).
    apply (Honly ltac:(decide_by_computation)
                 ltac:(intros student quiz; unfold answered_once, answered_question_ids,
                         student_quiz_answers; simpl; constructor)
                 None).
    vm_compute. reflexivity.
Defined.

(** X18.  The exceptions of the view and their causes.  On a store whose
    primary keys identify the questions and the answers, with one answer per
    student and question, a request ends in an exception only as follows:
    [Http404] when there is no quiz of the id; [ZeroDivisionError] when the
    quiz has no question; [AttributeError] when the student has not taken
    the quiz and has no unanswered question of it; [DoesNotExist] or
    [MultipleObjectsReturned] when a POST meets a current question that
    [Answer.objects.get] finds no single correct answer for; [ValueError]
    when a submission leaves a running score of more digits than [str]
    converts; the store's error only when the store fails.  The lookups in
    the session never raise [KeyError].  Nothing is said of [OverflowError],
    the error of a key that the store does not take. *)
Theorem exceptions_have_their_cause p faults request pk w e :
  store_ok (db w) ->
  (forall student quiz, answered_once (db w) student quiz) ->
  fst (serve_on p faults request pk w) = Raise e ->
  error_cause_on p request pk w e /\ (faults = None -> e <> DatabaseError).
Proof.
  intros Hok Honce Hraise. split.
  - exact (serve_on_error_cause p faults request pk w e Hok Honce Hraise).
  - intros -> ->. unfold serve_on in Hraise.
    destruct (take_quiz_on_sound p request pk w) as [H _].
    destruct (take_quiz_on p request pk (w, None)) as [r [w1 f1]]. cbn [fst] in *. auto.
Qed.

Lemma exceptions_have_their_cause_witness :
  let w := set_session (<["next_exponent_1" := 20000]> ∅) (Scenario.fresh 2) in
  error_cause_on default_limits (Scenario.post 11) 1 w ValueError /\
  (@None nat = None -> ValueError <> DatabaseError).
Proof.
  intros w.
  apply (exceptions_have_their_cause default_limits None (Scenario.post 11) 1 w ValueError).
  - decide_by_computation.
  - intros student quiz. unfold answered_once, answered_question_ids, student_quiz_answers.
    simpl. constructor.
  - vm_compute. reflexivity.
Defined.

(** ** The scoring message and the range of the running score *)

(** X19.  The scoring message shows the running score that the session
    holds after the submission.  For a submission on a session whose streak
    exponent is not negative, the view writes the new running score to the
    session and then builds the text of the message from it.  When that
    score is within the digits that [str] converts, the session holds it
    after the request and the submission queues one message of level
    warning, for a correct answer as for a wrong one, whose text carries
    it; the message is the last one when questions are left, and is
    followed by the one closing message when the quiz is completed.  When
    the score is not within the digits, the submission is not processed: no
    message is queued and the store is as it was. *)
Theorem scoring_message_shows_the_running_score
    p request pk w quiz question rest answer correct :
  submission request pk w quiz question rest answer correct ->
  accepts_key p pk = true ->
  0 <= snd (session_state (session w) quiz) ->
  let served := serve_on p None request pk w in
  let shown := fst (score_step (answer_is_correct answer) (session_state (session w) quiz)) in
  (printable p shown ->
   fst (session_state (session (snd served)) quiz) = shown /\
   exists closing,
     messages (snd served) =
     messages w ++
     {| msg_level := Warning;
        msg_text := if answer_is_correct answer then CorrectScoreIs shown
                    else WrongScoreIs shown |} :: closing /\
     length closing = match rest with [] => 1%nat | _ :: _ => 0%nat end) /\
  (~ printable p shown ->
   ~ is_Ok (fst served) /\ messages (snd served) = messages w /\ db (snd served) = db w).
Proof.
  intros Hsub Hkey _. pose proof Hsub as [Hquiz Htaken Hcur Hpost Hvalid Hcorrect Hstore Honce].
  destruct (serve_valid_post _ _ _ _ _ _ _ _ Hquiz Htaken Hcur Hpost Hvalid Hcorrect
              Hstore Honce) as [_ Hserve].
  destruct (serve_on_submission p _ _ _ _ _ _ _ _ Hsub Hkey) as [Hsame Hraise].
  assert (Hin : In answer (question_answers (db w) question)).
  { unfold form_clean, bound_form in Hvalid. cbn [form_data form_question] in Hvalid.
    destruct (req_POST request) as [posted|]; [|discriminate].
    apply find_some in Hvalid as [H _]. exact H. }
  rewrite (marked_correct _ _ _ _ Hstore Hin Hcorrect) in Hserve, Hsame, Hraise.
  cbv zeta in *. split.
  - intros Hp. rewrite (Hsame Hp). destruct rest as [|next rest].
    + destruct Hserve as (score & _ & _ & ->). cbn [snd session messages].
      rewrite session_state_scored. split; [reflexivity|].
      eexists [_]. split; reflexivity.
    + rewrite Hserve. cbn [snd session messages].
      rewrite session_state_scored. split; [reflexivity|].
      exists []. split; reflexivity.
  - intros Hno. rewrite (Hraise Hno). unfold scored_unsaved.
    cbn [fst snd messages db is_Ok]. auto.
Qed.

Lemma scoring_message_shows_the_running_score_witness :
  let w := Scenario.fresh 2 in
  let served := serve_on default_limits None (Scenario.post 12) 1 w in
  fst (session_state (session (snd served)) Scenario.quiz1) = -2 /\
  exists closing,
    messages (snd served) =
    messages w ++ {| msg_level := Warning; msg_text := WrongScoreIs (-2) |} :: closing /\
    length closing = 0%nat.
Proof.
  intros w served.
  destruct (scoring_message_shows_the_running_score default_limits (Scenario.post 12) 1 w
              Scenario.quiz1 {| question_id := 1; question_quiz := 1 |}
              [{| question_id := 2; question_quiz := 1 |}]
              {| answer_id := 12; answer_question := 1; answer_is_correct := false |}
              {| answer_id := 11; answer_question := 1; answer_is_correct := true |})
    as [Hqueued _].
  - constructor; try (vm_compute; reflexivity); decide_by_computation.
  - reflexivity.
  - vm_compute. discriminate.
  - apply Hqueued. vm_compute. reflexivity.
Defined.

Lemma score_run_range marks :
  forall temp_score next_exponent,
    1 <= next_exponent ->
    let n := Z.of_nat (length marks) in
    temp_score - 2 * n <= fst (score_run marks (temp_score, next_exponent))
      <= temp_score + 2 ^ (next_exponent + n) - 2 ^ next_exponent /\
    1 <= snd (score_run marks (temp_score, next_exponent)) <= next_exponent + n.
Proof.
  induction marks as [|c marks IH]; intros temp_score next_exponent He; cbv zeta.
  - unfold score_run. simpl. rewrite Z.add_0_r. lia.
  - rewrite score_run_cons. cbn [length]. rewrite Nat2Z.inj_succ.
    set (n := Z.of_nat (length marks)) in *.
    assert (Hn : 0 <= n) by (unfold n; lia).
    unfold score_step, score_update, py_pow2. cbn [fst snd].
    assert (Hpe : 2 <= 2 ^ next_exponent).
    { change 2 with (2 ^ 1) at 1. apply Z.pow_le_mono_r; lia. }
    assert (Hpn : 1 <= 2 ^ n) by (pose proof (Z.pow_pos_nonneg 2 n ltac:(lia) Hn); lia).
    replace (next_exponent + Z.succ n) with (next_exponent + 1 + n) by lia.
    destruct c.
    + specialize (IH (temp_score + 2 ^ next_exponent) (next_exponent + 1) ltac:(lia)).
      cbv zeta in IH. fold n in IH.
      rewrite (Z.pow_add_r 2 next_exponent 1) in IH by lia. change (2 ^ 1) with 2 in IH.
      lia.
    + specialize (IH (temp_score - 2) 1 ltac:(lia)). cbv zeta in IH. fold n in IH.
      change (2 ^ 1) with 2 in IH.
      assert (Hmono : 2 ^ (1 + n) <= 2 ^ (next_exponent + 1 + n))
        by (apply Z.pow_le_mono_r; lia).
      assert (Hsplit : 2 ^ (next_exponent + 1 + n) = 2 ^ next_exponent * (2 * 2 ^ n)).
      { rewrite <- (Z.pow_succ_r 2 n) by lia.
        rewrite <- Z.pow_add_r by lia. f_equal. lia. }
      assert (Hsplit1 : 2 ^ (1 + n) = 2 * 2 ^ n).
      { rewrite Z.pow_add_r by lia. reflexivity. }
      nia.
Qed.

(** X20.  The range of the running score.  An attempt started on a session
    without the two values of the quiz, in which the student has posted [n]
    answers, one request after the other, leaves a running score from
    [- 2 * n] to [2 ^ (n + 1) - 2] and an exponent from 1 to [n + 1]. *)
Theorem running_score_range pk quiz student picked current later w :
  Quiz_get (db w) pk = Some quiz ->
  student_quizzes_exists (db w) student pk = false ->
  store_ok (db w) ->
  answered_once (db w) student quiz ->
  get_unanswered_questions (db w) student quiz = current ++ later ->
  Forall2 (answerable (db w)) current picked ->
  fresh_session (session w) quiz ->
  let w' := play pk (map (post_answer student) picked) w in
  let n := Z.of_nat (length picked) in
  - 2 * n <= fst (session_state (session w') quiz) <= 2 ^ (n + 1) - 2 /\
  1 <= snd (session_state (session w') quiz) <= n + 1.
Proof.
  intros Hquiz Htaken Hstore Honce Hcur Hpicked Hfresh.
  destruct (play_posts pk quiz student picked current later w Hquiz Htaken Hstore Honce
              Hcur Hpicked) as (_ & Hs & _).
  cbv zeta in *. rewrite Hs, (session_state_fresh _ _ Hfresh).
  pose proof (score_run_range (map answer_is_correct picked) 0 1 ltac:(lia)) as H.
  cbv zeta in H. rewrite length_map in H.
  rewrite (Z.add_comm _ 1). change (2 ^ 1) with 2 in H. lia.
Qed.

Lemma running_score_range_witness :
  let picked := [{| answer_id := 11; answer_question := 1; answer_is_correct := true |};
                 {| answer_id := 22; answer_question := 2; answer_is_correct := false |};
                 {| answer_id := 31; answer_question := 3; answer_is_correct := true |}] in
  let w' := play 1 (map (post_answer 7) picked) (Scenario.fresh 4) in
  let n := Z.of_nat (length picked) in
  - 2 * n <= fst (session_state (session w') Scenario.quiz1) <= 2 ^ (n + 1) - 2 /\
  1 <= snd (session_state (session w') Scenario.quiz1) <= n + 1.
Proof.
  intros picked.
  apply (running_score_range 1 Scenario.quiz1 7 picked
           [{| question_id := 1; question_quiz := 1 |};
            {| question_id := 2; question_quiz := 1 |};
            {| question_id := 3; question_quiz := 1 |}]
           [{| question_id := 4; question_quiz := 1 |}] (Scenario.fresh 4)).
  - vm_compute. reflexivity.
  - vm_compute. reflexivity.
  - decide_by_computation.
  - decide_by_computation.
  - vm_compute. reflexivity.
  - repeat (constructor; [split; [vm_compute; tauto|vm_compute; exact I]|]). constructor.
  - split; reflexivity.
Defined.
